(** * Pokemon card detection frontend: the detection session controller

    A shallow embedding of [PokemonCardDetector] (the browser-side class of
    the frontend) and the properties of its detection cache, capture
    scheduler, recognition client, overlay renderer and notification channel.

    The controller is a single-threaded event-driven object.  Its methods
    are functions from session state to session state; the browser around
    it (timers, sockets, pending [toBlob] and [fetch] callbacks, the
    animation-frame queue) is part of that state, and [step] runs the
    handler of one event to completion.  An [async] method is cut at its
    [await]: the part before it and the continuation after it are two
    functions, joined by the event that resumes it.

    Left out, because they only repaint the page: [updateCardCollection],
    [updateProcessingStatus], [updateConnectionStatus], [updateBackendStatus],
    [applyOverlayStyles], and the continuation of [checkBackendHealth] (it
    only calls [updateBackendStatus]).

    Conventions of the embedding:
    - JavaScript strings are [string]s over the ASCII range; [toLowerCase]
      and [trim] are the ASCII restrictions of the built-ins.
    - Instants are milliseconds since the epoch, in [Z].  A card's
      [timestamp] is stored by the source as an ISO string and read back
      with [new Date(..)]; that round trip is the identity on milliseconds,
      so the field holds the instant itself.
    - JSON numbers that are only carried around or used in exact arithmetic
      (distances, coordinates, text widths) are rationals.
    - An absent or [null] JSON field is [None].
    - The fields of a recognition response and of a channel card are typed
      as the services' schemas give them.  A body the controller reads
      without relying on its shape (the error body of a non-success
      response, the answer to the connectivity test) is an arbitrary JSON
      value, [Json.t].
    - The text of a [TypeError] raised by the engine itself differs between
      browsers; an event that can raise one carries the engine's texts.
    - The page has the elements the constructor looks up and is served over
      http or https, so that the DOM updates succeed and [new WebSocket]
      accepts the channel's URL. *)

From Stdlib Require Import ZArith QArith String Ascii List Bool Lia DecimalString.
Import ListNotations.

Open Scope string_scope.
Open Scope Z_scope.

(* ===================================================================== *)
(** ** JavaScript built-ins used by the controller *)
(* ===================================================================== *)

Module Js.

(** [String.prototype.toLowerCase], ASCII range. *)
Definition lowerChar (c : ascii) : ascii :=
  let n := nat_of_ascii c in
  if ((65 <=? n)%nat && (n <=? 90)%nat)%bool then ascii_of_nat (n + 32) else c.

Fixpoint toLowerCase (s : string) : string :=
  match s with
  | EmptyString => EmptyString
  | String c r => String (lowerChar c) (toLowerCase r)
  end.

(** White space and line terminators removed by [trim], ASCII range:
    TAB, LF, VT, FF, CR and SPACE. *)
Definition isWhite (c : ascii) : bool :=
  let n := nat_of_ascii c in
  (((9 <=? n)%nat && (n <=? 13)%nat) || (n =? 32)%nat)%bool.

Fixpoint trimStart (s : string) : string :=
  match s with
  | EmptyString => EmptyString
  | String c r => if isWhite c then trimStart r else s
  end.

Fixpoint trimEnd (s : string) : string :=
  match s with
  | EmptyString => EmptyString
  | String c r =>
      match trimEnd r with
      | EmptyString => if isWhite c then EmptyString else String c EmptyString
      | r' => String c r'
      end
  end.

(** [String.prototype.trim]. *)
Definition trim (s : string) : string := trimEnd (trimStart s).

(** Truthiness of a string value: every string but the empty one. *)
Definition truthy (s : string) : bool :=
  match s with EmptyString => false | _ => true end.

(** [f || dflt] on a possibly absent string field. *)
Definition orElse (f : option string) (dflt : string) : string :=
  match f with
  | Some s => if truthy s then s else dflt
  | None => dflt
  end.

(** The guard [f && f.trim()] together with the value [f.trim()] that the
    guarded branch then uses: [Some (f.trim())] when the guard is truthy. *)
Definition nonBlank (f : option string) : option string :=
  match f with
  | Some s => if (truthy s && truthy (trim s))%bool then Some (trim s) else None
  | None => None
  end.

(** Truthiness of the result of a lookup: an object, or [undefined]. *)
Definition present {A : Type} (o : option A) : bool :=
  match o with Some _ => true | None => false end.

(** Template-literal rendering of an integer. *)
Definition showZ (z : Z) : string := NilZero.string_of_int (Z.to_int z).

Definition showNat (n : nat) : string := showZ (Z.of_nat n).

(** [x || 0] on a possibly absent number: zero is itself falsy. *)
Definition numOrZero (x : option Q) : Q :=
  match x with
  | Some q => if Qeq_bool q 0 then 0%Q else q
  | None => 0%Q
  end.

(** The texts of the engine's own [TypeError]s: reading a property of
    [null] (by the property's name) and converting to a string an object
    that has no usable [toString]. *)
Record Engine : Type := mkEngine {
  readOfNull : string -> string;
  noPrimitive : string
}.

End Js.

(* ===================================================================== *)
(** ** JSON values of unconstrained shape *)
(* ===================================================================== *)

Module Json.

(** The result of [JSON.parse].  A number is carried as its string
    conversion, which is all the controller uses of it; [JSON.parse] yields
    no [NaN], so the falsy numbers are [0] and [-0], the two whose string
    conversion is "0". *)
#[local] Unset Elimination Schemes.
Inductive t : Type :=
| Null
| Bool (b : bool)
| Num (shown : string)
| Str (s : string)
| Arr (items : list t)
| Obj (fields : list (string * t)).
#[local] Set Elimination Schemes.

(** Truthiness, as [||] and [if] test it. *)
Definition truthy (v : t) : bool :=
  match v with
  | Null => false
  | Bool b => b
  | Num shown => negb (String.eqb shown "0")
  | Str s => Js.truthy s
  | Arr _ | Obj _ => true
  end.

(** An own property of a parsed object; when the text repeated the key, the
    last value is the one [JSON.parse] keeps. *)
Fixpoint own (key : string) (fields : list (string * t)) : option t :=
  match fields with
  | [] => None
  | (k, v) :: r =>
      match own key r with
      | Some w => Some w
      | None => if String.eqb k key then Some v else None
      end
  end.

(** [v.key] on a value other than [null], for a key that names no built-in
    property ([detail], [device]): a primitive and an array have no such
    property, which reads as [undefined]. *)
Definition get (key : string) (v : t) : option t :=
  match v with
  | Obj fields => own key fields
  | _ => None
  end.

(** [String(v)], as [new Error(v)] and a template literal convert [v];
    [None] when the conversion throws a [TypeError].  An array joins the
    conversions of its items with commas, [null] items giving the empty
    string.  An object goes through [Object.prototype.toString] unless it
    has an own [toString] property, which parsed from JSON is never
    callable, and then [valueOf] cannot give a primitive either. *)
Fixpoint toString (v : t) : option string :=
  match v with
  | Null => Some "null"
  | Bool true => Some "true"
  | Bool false => Some "false"
  | Num shown => Some shown
  | Str s => Some s
  | Arr items =>
      (fix join (l : list t) : option string :=
         match l with
         | [] => Some ""
         | x :: r =>
             match (match x with Null => Some "" | _ => toString x end), join r with
             | Some a, Some b => Some (match r with [] => a | _ => a ++ "," ++ b end)
             | _, _ => None
             end
         end) items
  | Obj fields =>
      match own "toString" fields with
      | Some _ => None
      | None => Some "[object Object]"
      end
  end.

(** [String(field || fallback)] for a field read off a parsed body. *)
Definition orElse (field : option t) (fallback : string) : option string :=
  match field with
  | Some v => if truthy v then toString v else Some fallback
  | None => Some fallback
  end.

End Json.

(* ===================================================================== *)
(** ** Wire data: the recognition response and the channel's cards *)
(* ===================================================================== *)

Definition Point : Type := (Q * Q)%type.

(** One candidate of a detection's ranked [matches] list. *)
Module BestMatch.
Record t : Type := mk {
  name : option string;
  card_id : option string;
  set_id : option string;
  distance : option Q
}.
End BestMatch.

(** One raw detection of a recognition response. *)
Module Detection.
Record t : Type := mk {
  polygon : option (list Point);
  crop_size : option string;
  matches : option (list BestMatch.t)
}.
End Detection.

(** The body of a successful recognition response. *)
Module Response.
Record t : Type := mk {
  num_detections : option Z;
  detections : option (list Detection.t)
}.
End Response.

(** One element of the [cards] array of a channel ['detection'] message.
    [card.name] is a string: both handlers call [toLowerCase] on it. *)
Module WsCard.
Record t : Type := mk {
  name : string;
  confidence : option Q;
  polygon : option (list Point);
  crop_size : option string;
  set : option string;
  id : option string
}.
End WsCard.

(** A stored entity of [detectedCards]. *)
Module Card.
Record t : Type := mk {
  id : string;
  name : string;
  confidence : option Q;
  polygon : option (list Point);
  cropSize : option string;
  setId : string;
  cardId : string;
  timestamp : Z;
  kept : bool
}.

Definition setKept (c : t) (b : bool) : t :=
  mk (id c) (name c) (confidence c) (polygon c) (cropSize c)
     (setId c) (cardId c) (timestamp c) b.
End Card.

(* ===================================================================== *)
(** ** The JavaScript [Map] holding the collection *)
(* ===================================================================== *)

(** [detectedCards] is a [Map] from id strings to cards.  A [Map] iterates in
    insertion order and [set] on a present key keeps the key's place, so the
    store is an association list with exactly that behaviour. *)
Module JsMap.

Definition t : Type := list (string * Card.t).

Definition empty : t := [].

Definition size (m : t) : nat := length m.

Definition values (m : t) : list Card.t := map snd m.

Definition keys (m : t) : list string := map fst m.

Fixpoint get (k : string) (m : t) : option Card.t :=
  match m with
  | [] => None
  | (k', v) :: r => if String.eqb k k' then Some v else get k r
  end.

Fixpoint set (k : string) (v : Card.t) (m : t) : t :=
  match m with
  | [] => [(k, v)]
  | (k', v') :: r =>
      if String.eqb k k' then (k', v) :: r else (k', v') :: set k v r
  end.

Fixpoint delete (k : string) (m : t) : t :=
  match m with
  | [] => []
  | (k', v') :: r =>
      if String.eqb k k' then r else (k', v') :: delete k r
  end.

End JsMap.

(** [Array.prototype.forEach] with its index argument, threading the state
    the callback mutates. *)
Fixpoint forEachFrom {A S : Type} (index : nat) (f : A -> nat -> S -> S)
    (l : list A) (s : S) : S :=
  match l with
  | [] => s
  | x :: r => forEachFrom (Datatypes.S index) f r (f x index s)
  end.

Definition forEach {A S : Type} (f : A -> nat -> S -> S) (l : list A) (s : S) : S :=
  forEachFrom 0 f l s.

(* ===================================================================== *)
(** ** The overlay canvas and [drawDetectionOverlay]'s render pass *)
(* ===================================================================== *)

Module Canvas.

(** Calls and property assignments on the 2D context, in program order. *)
Inductive Op : Type :=
| clearRect (x y w h : Q)
| beginPath
| moveTo (x y : Q)
| lineTo (x y : Q)
| closePath
| fillStyle (v : string)
| fill
| strokeStyle (v : string)
| lineWidth (v : Q)
| stroke
| fillRect (x y w h : Q)
| font (v : string)
| textAlign (v : string)
| fillText (text : string) (x y : Q).

(** The overlay canvas: its pixel size, the context's current font, the
    browser's text metrics ([measureText(text).width] under a font) and
    the operations performed so far. *)
Record t : Type := mk {
  width : Z;
  height : Z;
  currentFont : string;
  metrics : string -> string -> Q;
  trace : list Op
}.

Definition emit (op : Op) (c : t) : t :=
  mk (width c) (height c)
     (match op with font v => v | _ => currentFont c end)
     (metrics c) (trace c ++ [op]).

Definition emitAll (ops : list Op) (c : t) : t := fold_left (fun c op => emit op c) ops c.

Definition defaultFont : string := "10px sans-serif".

(** Assigning [width] and [height] resets the context, its font included. *)
Definition resize (w h : Z) (c : t) : t :=
  mk w h defaultFont (metrics c) (trace c).

(** [ctx.clearRect(0, 0, overlay.width, overlay.height)]. *)
Definition clearAll (c : t) : t :=
  emit (clearRect 0 0 (inject_Z (width c)) (inject_Z (height c))) c.

End Canvas.

Module Overlay.
Import Canvas.

(** The label drawn next to a polygon: the inline [cardName] of
    [drawDetectionOverlay]. *)
Definition cardName (index : nat) (detection : Detection.t) : string :=
  let dflt := "Card " ++ Js.showNat (index + 1) in
  match Detection.matches detection with
  | Some (bestMatch :: _) =>
      match Js.nonBlank (BestMatch.name bestMatch) with
      | Some n => n
      | None =>
          match Js.nonBlank (BestMatch.card_id bestMatch) with
          | Some i => i
          | None => dflt
          end
      end
  | _ => dflt
  end.

(** The body of the [detections.forEach] callback. *)
Definition drawDetection (detection : Detection.t) (index : nat) (c : t) : t :=
  match Detection.polygon detection with
  | Some (firstPoint :: others) =>
      let '(x, y) := firstPoint in
      let c := emit beginPath c in
      let c := emit (moveTo (fst firstPoint) (snd firstPoint)) c in
      let c := emitAll (map (fun point => lineTo (fst point) (snd point)) others) c in
      let c := emit closePath c in
      let c := emit (fillStyle "rgba(16, 185, 129, 0.1)") c in
      let c := emit fill c in
      let c := emit (strokeStyle "#10b981") c in
      let c := emit (lineWidth 3) c in
      let c := emit stroke c in
      let name := cardName index detection in
      let textWidth := metrics c (currentFont c) name in
      let textHeight := 20%Q in
      let c := emit (fillStyle "rgba(16, 185, 129, 0.9)") c in
      let c := emit (fillRect (x - 10) (y - 35) (textWidth + 20) (textHeight + 10)) c in
      let c := emit (fillStyle "#ffffff") c in
      let c := emit (font "bold 14px Arial") c in
      let c := emit (textAlign "center") c in
      let c := emit (fillText name (x + textWidth / 2) (y - 20)) c in
      let c := emit (fillStyle "#10b981") c in
      let c := emit (fillRect (x - 25) (y - 25) 30 30) c in
      let c := emit (fillStyle "#ffffff") c in
      let c := emit (font "bold 16px Arial") c in
      let c := emit (textAlign "center") c in
      emit (fillText (Js.showNat (index + 1)) (x - 10) (y - 8)) c
  | _ => c
  end.

(** The callback [drawDetectionOverlay] hands to [requestAnimationFrame]. *)
Definition renderPass (detections : option (list Detection.t)) (c : t) : t :=
  let c := clearAll c in
  match detections with
  | None | Some [] => c
  | Some l => forEach drawDetection l c
  end.

End Overlay.

(* ===================================================================== *)
(** ** Session state *)
(* ===================================================================== *)

Inductive Level : Type := info | error.

(** The three detection parameter sliders. *)
Inductive Slider : Type := ConfThreshold | IouThreshold | MaxHits.

(** The texts handed to [logMessage], one constructor per template. *)
Inductive Message : Type :=
| SpeedUpdated (fps : Z)
| NoCardsToRemove
| RemovedAll (cardCount : nat)
| SliderUpdated (slider : Slider) (value : string)
| TestingConnectivity
| StartedPeriodic (fps : Z) (intervalMs : Q)
| StoppedPeriodic
| CameraStarted (videoWidth videoHeight : Z)
| CanvasDimensions (w h : Z)
| VideoDisplaySize (w h : Q)
| CameraStopped
| CameraError (message : string)
| NoCameraStream
| AlreadyProcessing
| SendingRequest (url : string)
| ReceivedDetections (n : Z)
| BackendProcessingError (message : string)
| ErrorType (name : string)
| NewCardDetected (cardName : string) (confidence : option Q)
| KeptCard (name : string)
| UnkeptCard (name : string)
| RemovedCard (name : string)
| ConnectedToServer
| DisconnectedFromServer
| AttemptingReconnect
| WebSocketError (message : string)
| ServerGreeting (message : string)
| ProcessingFrame
| ServerError (message : string)
| NoCardsInFrame
| DetectedCount (n : nat)
| NewCardViaWebSocket (name : string)
| ResizedOverlay (w h : Q)
| ConnectivityPassed (device : string)
| ConnectivityFailedHttp (status : Z)
| ConnectivityFailed (message : string)
| BackendNotAccessible.

Definition LogEntry : Type := (Message * Level)%type.

(** What a timer runs when it fires. *)
Inductive Callback : Type :=
| CaptureTick        (* the [setInterval] callback of [startPeriodicProcessing] *)
| CaptureDelay       (* its inner 25 ms [setTimeout] *)
| HealthCheck        (* [startBackendHealthCheck] *)
| Heartbeat          (* [startHeartbeat] *)
| Reconnect          (* the [setTimeout] of [onclose] *)
| ConnectivityTest.  (* the constructor's 1000 ms [setTimeout] *)

Inductive TimerMode : Type := Interval | Timeout.

Record Timer : Type := mkTimer {
  callback : Callback;
  mode : TimerMode;
  delay : Q   (* milliseconds *)
}.

(** [WebSocket.readyState]. *)
Inductive ReadyState : Type := CONNECTING | OPEN | CLOSING | CLOSED.

(** Messages the controller sends on the channel. *)
Inductive Outgoing : Type := ping.

(** Current values of the detection parameter sliders. *)
Record Sliders : Type := mkSliders {
  confThreshold : string;
  iouThreshold : string;
  maxHits : string
}.

Record Session : Type := mkSession {
  stream : bool;  (* [this.stream] is not [null] *)
  ws : option nat;  (* [this.ws]: the socket last created *)
  isConnected : bool;
  detectedCards : JsMap.t;
  isProcessing : bool;  (* the in-flight flag *)
  processingInterval : option nat;  (* handle of the capture interval *)
  healthCheckInterval : option nat;
  heartbeatInterval : option nat;
  processingSpeed : Z;  (* [parseInt] of the speed slider's value *)
  sliders : Sliders;
  messageLog : list LogEntry;  (* children of the log element, oldest first *)
  overlay : Canvas.t;
  timers : list (nat * Timer);  (* the browser's active timers, by id *)
  nextTimer : nat;  (* the id the next timer gets *)
  sockets : list ReadyState;  (* every socket created, by creation index *)
  sent : list (nat * Outgoing);  (* messages sent, with their socket *)
  pendingBlobs : nat;  (* [toBlob] callbacks not yet delivered *)
  inflight : nat;  (* recognition requests awaiting completion *)
  rafQueue : list (option (list Detection.t))  (* render passes awaiting the next frame *)
}.

Definition set_stream (x : bool) (s : Session) : Session :=
  mkSession x (ws s) (isConnected s) (detectedCards s) (isProcessing s)
    (processingInterval s) (healthCheckInterval s) (heartbeatInterval s)
    (processingSpeed s) (sliders s) (messageLog s) (overlay s) (timers s)
    (nextTimer s) (sockets s) (sent s) (pendingBlobs s) (inflight s)
    (rafQueue s).

Definition set_ws (x : option nat) (s : Session) : Session :=
  mkSession (stream s) x (isConnected s) (detectedCards s) (isProcessing s)
    (processingInterval s) (healthCheckInterval s) (heartbeatInterval s)
    (processingSpeed s) (sliders s) (messageLog s) (overlay s) (timers s)
    (nextTimer s) (sockets s) (sent s) (pendingBlobs s) (inflight s)
    (rafQueue s).

Definition set_isConnected (x : bool) (s : Session) : Session :=
  mkSession (stream s) (ws s) x (detectedCards s) (isProcessing s)
    (processingInterval s) (healthCheckInterval s) (heartbeatInterval s)
    (processingSpeed s) (sliders s) (messageLog s) (overlay s) (timers s)
    (nextTimer s) (sockets s) (sent s) (pendingBlobs s) (inflight s)
    (rafQueue s).

Definition set_detectedCards (x : JsMap.t) (s : Session) : Session :=
  mkSession (stream s) (ws s) (isConnected s) x (isProcessing s)
    (processingInterval s) (healthCheckInterval s) (heartbeatInterval s)
    (processingSpeed s) (sliders s) (messageLog s) (overlay s) (timers s)
    (nextTimer s) (sockets s) (sent s) (pendingBlobs s) (inflight s)
    (rafQueue s).

Definition set_isProcessing (x : bool) (s : Session) : Session :=
  mkSession (stream s) (ws s) (isConnected s) (detectedCards s) x
    (processingInterval s) (healthCheckInterval s) (heartbeatInterval s)
    (processingSpeed s) (sliders s) (messageLog s) (overlay s) (timers s)
    (nextTimer s) (sockets s) (sent s) (pendingBlobs s) (inflight s)
    (rafQueue s).

Definition set_processingInterval (x : option nat) (s : Session) : Session :=
  mkSession (stream s) (ws s) (isConnected s) (detectedCards s)
    (isProcessing s) x (healthCheckInterval s) (heartbeatInterval s)
    (processingSpeed s) (sliders s) (messageLog s) (overlay s) (timers s)
    (nextTimer s) (sockets s) (sent s) (pendingBlobs s) (inflight s)
    (rafQueue s).

Definition set_healthCheckInterval (x : option nat) (s : Session) : Session :=
  mkSession (stream s) (ws s) (isConnected s) (detectedCards s)
    (isProcessing s) (processingInterval s) x (heartbeatInterval s)
    (processingSpeed s) (sliders s) (messageLog s) (overlay s) (timers s)
    (nextTimer s) (sockets s) (sent s) (pendingBlobs s) (inflight s)
    (rafQueue s).

Definition set_heartbeatInterval (x : option nat) (s : Session) : Session :=
  mkSession (stream s) (ws s) (isConnected s) (detectedCards s)
    (isProcessing s) (processingInterval s) (healthCheckInterval s) x
    (processingSpeed s) (sliders s) (messageLog s) (overlay s) (timers s)
    (nextTimer s) (sockets s) (sent s) (pendingBlobs s) (inflight s)
    (rafQueue s).

Definition set_processingSpeed (x : Z) (s : Session) : Session :=
  mkSession (stream s) (ws s) (isConnected s) (detectedCards s)
    (isProcessing s) (processingInterval s) (healthCheckInterval s)
    (heartbeatInterval s) x (sliders s) (messageLog s) (overlay s) (timers
    s) (nextTimer s) (sockets s) (sent s) (pendingBlobs s) (inflight s)
    (rafQueue s).

Definition set_sliders (x : Sliders) (s : Session) : Session :=
  mkSession (stream s) (ws s) (isConnected s) (detectedCards s)
    (isProcessing s) (processingInterval s) (healthCheckInterval s)
    (heartbeatInterval s) (processingSpeed s) x (messageLog s) (overlay s)
    (timers s) (nextTimer s) (sockets s) (sent s) (pendingBlobs s) (inflight
    s) (rafQueue s).

Definition set_messageLog (x : list LogEntry) (s : Session) : Session :=
  mkSession (stream s) (ws s) (isConnected s) (detectedCards s)
    (isProcessing s) (processingInterval s) (healthCheckInterval s)
    (heartbeatInterval s) (processingSpeed s) (sliders s) x (overlay s)
    (timers s) (nextTimer s) (sockets s) (sent s) (pendingBlobs s) (inflight
    s) (rafQueue s).

Definition set_overlay (x : Canvas.t) (s : Session) : Session :=
  mkSession (stream s) (ws s) (isConnected s) (detectedCards s)
    (isProcessing s) (processingInterval s) (healthCheckInterval s)
    (heartbeatInterval s) (processingSpeed s) (sliders s) (messageLog s) x
    (timers s) (nextTimer s) (sockets s) (sent s) (pendingBlobs s) (inflight
    s) (rafQueue s).

Definition set_timers (x : list (nat * Timer)) (s : Session) : Session :=
  mkSession (stream s) (ws s) (isConnected s) (detectedCards s)
    (isProcessing s) (processingInterval s) (healthCheckInterval s)
    (heartbeatInterval s) (processingSpeed s) (sliders s) (messageLog s)
    (overlay s) x (nextTimer s) (sockets s) (sent s) (pendingBlobs s)
    (inflight s) (rafQueue s).

Definition set_nextTimer (x : nat) (s : Session) : Session :=
  mkSession (stream s) (ws s) (isConnected s) (detectedCards s)
    (isProcessing s) (processingInterval s) (healthCheckInterval s)
    (heartbeatInterval s) (processingSpeed s) (sliders s) (messageLog s)
    (overlay s) (timers s) x (sockets s) (sent s) (pendingBlobs s) (inflight
    s) (rafQueue s).

Definition set_sockets (x : list ReadyState) (s : Session) : Session :=
  mkSession (stream s) (ws s) (isConnected s) (detectedCards s)
    (isProcessing s) (processingInterval s) (healthCheckInterval s)
    (heartbeatInterval s) (processingSpeed s) (sliders s) (messageLog s)
    (overlay s) (timers s) (nextTimer s) x (sent s) (pendingBlobs s)
    (inflight s) (rafQueue s).

Definition set_sent (x : list (nat * Outgoing)) (s : Session) : Session :=
  mkSession (stream s) (ws s) (isConnected s) (detectedCards s)
    (isProcessing s) (processingInterval s) (healthCheckInterval s)
    (heartbeatInterval s) (processingSpeed s) (sliders s) (messageLog s)
    (overlay s) (timers s) (nextTimer s) (sockets s) x (pendingBlobs s)
    (inflight s) (rafQueue s).

Definition set_pendingBlobs (x : nat) (s : Session) : Session :=
  mkSession (stream s) (ws s) (isConnected s) (detectedCards s)
    (isProcessing s) (processingInterval s) (healthCheckInterval s)
    (heartbeatInterval s) (processingSpeed s) (sliders s) (messageLog s)
    (overlay s) (timers s) (nextTimer s) (sockets s) (sent s) x (inflight s)
    (rafQueue s).

Definition set_inflight (x : nat) (s : Session) : Session :=
  mkSession (stream s) (ws s) (isConnected s) (detectedCards s)
    (isProcessing s) (processingInterval s) (healthCheckInterval s)
    (heartbeatInterval s) (processingSpeed s) (sliders s) (messageLog s)
    (overlay s) (timers s) (nextTimer s) (sockets s) (sent s) (pendingBlobs
    s) x (rafQueue s).

Definition set_rafQueue (x : list (option (list Detection.t))) (s : Session) : Session :=
  mkSession (stream s) (ws s) (isConnected s) (detectedCards s)
    (isProcessing s) (processingInterval s) (healthCheckInterval s)
    (heartbeatInterval s) (processingSpeed s) (sliders s) (messageLog s)
    (overlay s) (timers s) (nextTimer s) (sockets s) (sent s) (pendingBlobs
    s) (inflight s) x.

(* ===================================================================== *)
(** ** Event log *)
(* ===================================================================== *)

(** The last [n] elements of a list. *)
Definition keepLast {A : Type} (n : nat) (l : list A) : list A :=
  skipn (length l - n) l.

(** [logMessage]: append an entry, then drop the oldest ones while more than
    50 remain. *)
Definition logMessage (message : Message) (level : Level) (s : Session) : Session :=
  set_messageLog (keepLast 50 (messageLog s ++ [(message, level)])) s.

(* ===================================================================== *)
(** ** Detection cache *)
(* ===================================================================== *)

(** The clock readings of one iteration of [handleBackendResponse]'s loop, in
    program order: [Date.now()] for the id, [new Date()] inside
    [isRecentlyDetected], [new Date()] for the timestamp. *)
Record HttpReadings : Type := mkHttpReadings {
  idNow : Z;
  checkNow : Z;
  stampNow : Z
}.

(** The readings of one iteration of [handleDetection]'s loop: [new Date()]
    inside [isRecentlyDetected], [Date.now()] and
    [Math.random().toString(36).substr(2, 9)] for the id, [new Date()] for
    the timestamp. *)
Record WsReadings : Type := mkWsReadings {
  wsCheckNow : Z;
  wsIdNow : Z;
  wsRandom : string;
  wsStampNow : Z
}.

(** [a.toLowerCase() === b.toLowerCase()]. *)
Definition sameName (a b : string) : bool :=
  String.eqb (Js.toLowerCase a) (Js.toLowerCase b).

(** [isRecentlyDetected(cardName, cooldownMinutes)], with [now] the reading
    of [new Date()]. *)
Definition isRecentlyDetected (now : Z) (cardName : string) (cooldownMinutes : Z)
    (s : Session) : bool :=
  let cooldownMs := cooldownMinutes * 60 * 1000 in
  existsb
    (fun card =>
       if sameName (Card.name card) cardName
       then now - Card.timestamp card <? cooldownMs
       else false)
    (JsMap.values (detectedCards s)).

(** [Array.from(detectedCards.values()).find(card => same name)]. *)
Definition existingCard (cardName : string) (s : Session) : option Card.t :=
  find (fun card => sameName (Card.name card) cardName) (JsMap.values (detectedCards s)).

(** The display name [handleBackendResponse] extracts from the best match. *)
Definition cardName (bestMatch : BestMatch.t) : string :=
  match Js.nonBlank (BestMatch.name bestMatch) with
  | Some n => n
  | None =>
      match Js.nonBlank (BestMatch.card_id bestMatch) with
      | Some i => i
      | None =>
          match Js.nonBlank (BestMatch.set_id bestMatch) with
          | Some t => t
          | None => "Unknown Card"
          end
      end
  end.

(** [drawDetectionOverlay]: the render pass is queued for the next frame. *)
Definition drawDetectionOverlay (detections : option (list Detection.t))
    (s : Session) : Session :=
  set_rafQueue (rafQueue s ++ [detections]) s.

(** [clearOverlay]: an immediate clear of the whole canvas. *)
Definition clearOverlay (s : Session) : Session :=
  set_overlay (Canvas.clearAll (overlay s)) s.

(** The callback of [data.detections.forEach] in [handleBackendResponse]. *)
Definition addBackendDetection (clk : HttpReadings) (detection : Detection.t)
    (index : nat) (s : Session) : Session :=
  match Detection.matches detection with
  | Some (bestMatch :: _) =>
      let name := cardName bestMatch in
      let confidence := BestMatch.distance bestMatch in
      let cardId := "card_" ++ Js.showZ (idNow clk) ++ "_" ++ Js.showNat index in
      let existing := existingCard name s in
      let recentlyDetected := isRecentlyDetected (checkNow clk) name 2 s in
      if (negb (Js.present existing) && negb recentlyDetected)%bool then
        let card :=
          Card.mk cardId name confidence (Detection.polygon detection)
            (Detection.crop_size detection)
            (Js.orElse (BestMatch.set_id bestMatch) "Unknown Set")
            (Js.orElse (BestMatch.card_id bestMatch) "Unknown ID")
            (stampNow clk) false in
        let s := set_detectedCards (JsMap.set cardId card (detectedCards s)) s in
        logMessage (NewCardDetected name confidence) info s
      else s
  | _ => s
  end.

(** [handleBackendResponse(data)]; [clock i] holds the readings taken while
    the [i]-th detection is processed.  [updateCardCollection] only rebuilds
    the collection's DOM from [detectedCards] and has no state of its own. *)
Definition handleBackendResponse (clock : nat -> HttpReadings) (data : Response.t)
    (s : Session) : Session :=
  match Response.detections data with
  | Some (d :: ds) =>
      let s := forEach (fun detection index => addBackendDetection (clock index) detection index)
                 (d :: ds) s in
      drawDetectionOverlay (Some (d :: ds)) s
  | _ => clearOverlay s
  end.

(** A channel card as [drawDetectionOverlay] reads it: it has a [polygon]
    and no [matches]. *)
Definition asDetection (card : WsCard.t) : Detection.t :=
  Detection.mk (WsCard.polygon card) (WsCard.crop_size card) None.

(** The callback of [cards.forEach] in [handleDetection]. *)
Definition addChannelCard (env : WsReadings) (card : WsCard.t) (index : nat)
    (s : Session) : Session :=
  let existing := existingCard (WsCard.name card) s in
  let recentlyDetected := isRecentlyDetected (wsCheckNow env) (WsCard.name card) 2 s in
  if (negb (Js.present existing) && negb recentlyDetected)%bool then
    let cardId := "card_" ++ Js.showZ (wsIdNow env) ++ "_" ++ wsRandom env in
    let stored :=
      Card.mk cardId (WsCard.name card)
        (Some (Js.numOrZero (WsCard.confidence card)))
        (Some (match WsCard.polygon card with Some p => p | None => [] end))
        (match WsCard.crop_size card with
         | Some c => if Js.truthy c then Some c else None
         | None => None
         end)
        (Js.orElse (WsCard.set card) "Unknown Set")
        (Js.orElse (WsCard.id card) "Unknown ID")
        (wsStampNow env) false in
    let s := set_detectedCards (JsMap.set cardId stored (detectedCards s)) s in
    logMessage (NewCardViaWebSocket (WsCard.name card)) info s
  else s.

(** [handleDetection(cards)]. *)
Definition handleDetection (env : nat -> WsReadings) (cards : option (list WsCard.t))
    (s : Session) : Session :=
  match cards with
  | None | Some [] => logMessage NoCardsInFrame info s
  | Some l =>
      let s := logMessage (DetectedCount (length l)) info s in
      let s := forEach (fun card index => addChannelCard (env index) card index) l s in
      drawDetectionOverlay (Some (map asDetection l)) s
  end.

(** [toggleKeepCard(cardId)]: the stored object is mutated in place. *)
Definition toggleKeepCard (cardId : string) (s : Session) : Session :=
  match JsMap.get cardId (detectedCards s) with
  | Some card =>
      let card' := Card.setKept card (negb (Card.kept card)) in
      let s := set_detectedCards (JsMap.set cardId card' (detectedCards s)) s in
      logMessage (if Card.kept card' then KeptCard (Card.name card')
                  else UnkeptCard (Card.name card')) info s
  | None => s
  end.

(** [removeCard(cardId)]. *)
Definition removeCard (cardId : string) (s : Session) : Session :=
  match JsMap.get cardId (detectedCards s) with
  | Some card =>
      let s := set_detectedCards (JsMap.delete cardId (detectedCards s)) s in
      logMessage (RemovedCard (Card.name card)) info s
  | None => s
  end.

(** [removeAllCards()]. *)
Definition removeAllCards (s : Session) : Session :=
  if (JsMap.size (detectedCards s) =? 0)%nat then
    logMessage NoCardsToRemove info s
  else
    let cardCount := JsMap.size (detectedCards s) in
    let s := set_detectedCards JsMap.empty s in
    logMessage (RemovedAll cardCount) info s.

(* ===================================================================== *)
(** ** Timers *)
(* ===================================================================== *)

(** [setInterval] / [setTimeout]: the new timer's id, and the state with the
    timer registered.  Ids are positive, hence truthy as handles. *)
Definition startTimer (t : Timer) (s : Session) : nat * Session :=
  let id := nextTimer s in
  (id, set_nextTimer (S id) (set_timers (timers s ++ [(id, t)]) s)).

(** [clearInterval(id)]. *)
Definition clearTimer (id : nat) (s : Session) : Session :=
  set_timers (filter (fun p => negb (fst p =? id)%nat) (timers s)) s.

Fixpoint lookupTimer (id : nat) (l : list (nat * Timer)) : option Timer :=
  match l with
  | [] => None
  | (i, t) :: r => if (i =? id)%nat then Some t else lookupTimer id r
  end.

(* ===================================================================== *)
(** ** Capture scheduler *)
(* ===================================================================== *)

(** [stopPeriodicProcessing()]. *)
Definition stopPeriodicProcessing (s : Session) : Session :=
  match processingInterval s with
  | Some id =>
      let s := clearTimer id s in
      let s := set_processingInterval None s in
      logMessage StoppedPeriodic info s
  | None => s
  end.

(** [startPeriodicProcessing()]. *)
Definition startPeriodicProcessing (s : Session) : Session :=
  if negb (stream s) then s
  else
    let s := match processingInterval s with
             | Some id => clearTimer id s
             | None => s
             end in
    let fps := processingSpeed s in
    let intervalMs := (1000 / inject_Z fps)%Q in
    let '(id, s) := startTimer (mkTimer CaptureTick Interval intervalMs) s in
    let s := set_processingInterval (Some id) s in
    logMessage (StartedPeriodic fps intervalMs) info s.

(** [updateProcessingSpeed()], after the slider took the value [fps]. *)
Definition updateProcessingSpeed (fps : Z) (s : Session) : Session :=
  let s := set_processingSpeed fps s in
  let s := match processingInterval s with
           | Some _ => startPeriodicProcessing s
           | None => s
           end in
  logMessage (SpeedUpdated fps) info s.

(** [captureFrame()]: draws the video frame on a scratch canvas and asks for
    its blob; the blob arrives in a later callback. *)
Definition captureFrame (s : Session) : Session :=
  if negb (stream s) then logMessage NoCameraStream error s
  else set_pendingBlobs (S (pendingBlobs s)) s.

(** [stopCamera()]. *)
Definition stopCamera (s : Session) : Session :=
  if stream s then
    let s := set_stream false s in
    let s := clearOverlay s in
    let s := stopPeriodicProcessing s in
    logMessage CameraStopped info s
  else s.

(** [startCamera()]: asks the browser for the camera; the answer is a later
    event ([UserMediaGranted] or [UserMediaDenied]). *)
Definition startCamera (s : Session) : Session := s.

(** [toggleCamera()]. *)
Definition toggleCamera (s : Session) : Session :=
  if stream s then stopCamera s else startCamera s.

(* ===================================================================== *)
(** ** Recognition client *)
(* ===================================================================== *)

Definition backendUrl : string := "http://localhost:8000".

(** Where the handling of a success response can throw once it has begun. *)
Inductive ThrowPoint : Type :=
| InLoop     (* in a callback of [detections.forEach], before it stores a card *)
| InDisplay. (* in [updateCardCollection], after the render pass is queued *)

(** How the awaited part of [processFrameWithBackend] ends. *)
Inductive FetchOutcome : Type :=
| Rejects (name message : string)
    (* this error is thrown before the response is handled: [fetch] rejects,
       the body of a success response is not JSON, or it is [null] *)
| NotOk (status : Z) (body : option Json.t) (engine : Js.Engine)
    (* [!response.ok]; [body] is the parsed error body, [None] when
       [response.json()] rejects *)
| Ok (data : Response.t) (clock : nat -> HttpReadings)
| OkThrows (data : Response.t) (clock : nat -> HttpReadings) (point : ThrowPoint)
    (name message : string).
    (* a success response whose handling throws this error; [data] holds the
       detections handled before it *)

(** [await response.json().catch(() => ({}))]. *)
Definition errorData (body : option Json.t) : Json.t :=
  match body with
  | Some v => v
  | None => Json.Obj []
  end.

(** The error raised on a non-success response, name first:
    [new Error(errorData.detail || `HTTP ${response.status}`)], or the
    [TypeError] of the engine when [errorData] is [null] or the message
    cannot be converted to a string. *)
Definition notOkError (engine : Js.Engine) (status : Z) (body : option Json.t)
    : string * string :=
  match errorData body with
  | Json.Null => ("TypeError", Js.readOfNull engine "detail")
  | data =>
      match Json.orElse (Json.get "detail" data) ("HTTP " ++ Js.showZ status) with
      | Some message => ("Error", message)
      | None => ("TypeError", Js.noPrimitive engine)
      end
  end.

(** The [finally] block. *)
Definition finallyBlock (s : Session) : Session :=
  set_isProcessing false s.

(** The [catch] block, followed by [finally]. *)
Definition catchBlock (name message : string) (s : Session) : Session :=
  let s := logMessage (BackendProcessingError message) error s in
  let s := logMessage (ErrorType name) error s in
  finallyBlock s.

(** [processFrameWithBackend(blob)] up to its first [await].  [appendError]
    is the message of the [TypeError] that [formData.append] throws when
    [toBlob] produced no blob. *)
Definition processFrameWithBackend (appendError : option string) (s : Session) : Session :=
  if isProcessing s then logMessage AlreadyProcessing info s
  else
    let s := set_isProcessing true s in
    match appendError with
    | Some message => catchBlock "TypeError" message s
    | None =>
        let url :=
          backendUrl ++ "/v1/process?visualize=true&conf=" ++ confThreshold (sliders s)
          ++ "&iou=" ++ iouThreshold (sliders s)
          ++ "&max_hits=" ++ maxHits (sliders s) in
        let s := logMessage (SendingRequest url) info s in
        set_inflight (S (inflight s)) s
    end.

(** The rest of [processFrameWithBackend], run when the awaited request
    completes. *)
Definition resumeProcessFrame (outcome : FetchOutcome) (s : Session) : Session :=
  match outcome with
  | Rejects name message => catchBlock name message s
  | NotOk status body engine =>
      let '(name, message) := notOkError engine status body in
      catchBlock name message s
  | Ok data clock =>
      let s := match Response.num_detections data with
               | Some n => if n >? 0 then logMessage (ReceivedDetections n) info s else s
               | None => s
               end in
      let s := handleBackendResponse clock data s in
      finallyBlock s
  | OkThrows data clock point name message =>
      let s := match Response.num_detections data with
               | Some n => if n >? 0 then logMessage (ReceivedDetections n) info s else s
               | None => s
               end in
      let s := match point with
               | InLoop =>
                   forEach
                     (fun detection index =>
                        addBackendDetection (clock index) detection index)
                     (match Response.detections data with Some l => l | None => [] end)
                     s
               | InDisplay => handleBackendResponse clock data s
               end in
      catchBlock name message s
  end.

(* ===================================================================== *)
(** ** Notification channel *)
(* ===================================================================== *)

(** A parsed channel message, by its [type] tag. *)
Inductive Envelope : Type :=
| MsgConnected (message : string)
| MsgProcessing
| MsgDetection (cards : option (list WsCard.t)) (env : nat -> WsReadings)
| MsgError (message : string)
| MsgPong
| MsgOther (type : string).

Definition readyState (sock : nat) (s : Session) : option ReadyState :=
  nth_error (sockets s) sock.

Fixpoint setNth {A : Type} (n : nat) (x : A) (l : list A) : list A :=
  match l, n with
  | [], _ => []
  | _ :: r, O => x :: r
  | y :: r, S n' => y :: setNth n' x r
  end.

Definition setReadyState (sock : nat) (st : ReadyState) (s : Session) : Session :=
  set_sockets (setNth sock st (sockets s)) s.

(** A detection parameter slider takes a new value. *)
Definition moveSlider (slider : Slider) (value : string) (sl : Sliders) : Sliders :=
  match slider with
  | ConfThreshold => mkSliders value (iouThreshold sl) (maxHits sl)
  | IouThreshold => mkSliders (confThreshold sl) value (maxHits sl)
  | MaxHits => mkSliders (confThreshold sl) (iouThreshold sl) value
  end.

(** [startHeartbeat()]. *)
Definition startHeartbeat (s : Session) : Session :=
  let '(id, s) := startTimer (mkTimer Heartbeat Interval 30000) s in
  set_heartbeatInterval (Some id) s.

(** [stopHeartbeat()]. *)
Definition stopHeartbeat (s : Session) : Session :=
  match heartbeatInterval s with
  | Some id => set_heartbeatInterval None (clearTimer id s)
  | None => s
  end.

(** [connectWebSocket()]: a new socket is created, in state [CONNECTING], and
    becomes [this.ws]; its four handlers are the functions below.  The URL is
    built from the page's own location, so the constructor does not throw. *)
Definition connectWebSocket (s : Session) : Session :=
  let sock := length (sockets s) in
  let s := set_sockets (sockets s ++ [CONNECTING]) s in
  set_ws (Some sock) s.

(** [ws.onopen]. *)
Definition onopen (s : Session) : Session :=
  let s := set_isConnected true s in
  let s := logMessage ConnectedToServer info s in
  startHeartbeat s.

(** [ws.onclose]. *)
Definition onclose (s : Session) : Session :=
  let s := set_isConnected false s in
  let s := logMessage DisconnectedFromServer info s in
  let s := stopHeartbeat s in
  snd (startTimer (mkTimer Reconnect Timeout 3000) s).

(** [ws.onerror]. *)
Definition onerror (message : option string) (s : Session) : Session :=
  logMessage (WebSocketError (Js.orElse message "Unknown error")) error s.

(** [handleMessage(data)]. *)
Definition handleMessage (data : Envelope) (s : Session) : Session :=
  match data with
  | MsgConnected message => logMessage (ServerGreeting message) info s
  | MsgProcessing => logMessage ProcessingFrame info s
  | MsgDetection cards env => handleDetection env cards s
  | MsgError message => logMessage (ServerError message) error s
  | MsgPong => s
  | MsgOther _ => s
  end.

(** [ws.onmessage]: [None] is a payload that [JSON.parse] rejects. *)
Definition onmessage (parsed : option Envelope) (s : Session) : Session :=
  match parsed with
  | Some data => handleMessage data s
  | None => s
  end.

(** The callback of the reconnect [setTimeout]. *)
Definition reconnectCallback (s : Session) : Session :=
  if negb (isConnected s) then
    connectWebSocket (logMessage AttemptingReconnect info s)
  else s.

(** The callback of the heartbeat [setInterval]. *)
Definition heartbeatCallback (s : Session) : Session :=
  match ws s with
  | Some sock =>
      match readyState sock s with
      | Some OPEN => set_sent (sent s ++ [(sock, ping)]) s
      | _ => s
      end
  | None => s
  end.

(** [ws.close()]. *)
Definition closeSocket (sock : nat) (s : Session) : Session :=
  match readyState sock s with
  | Some CONNECTING | Some OPEN => setReadyState sock CLOSING s
  | _ => s
  end.

(* ===================================================================== *)
(** ** Backend health check *)
(* ===================================================================== *)

(** [checkBackendHealth()]: the request and its answer only repaint the
    backend status indicator, which the session state does not hold. *)
Definition checkBackendHealth (s : Session) : Session := s.

(** [startBackendHealthCheck()]. *)
Definition startBackendHealthCheck (s : Session) : Session :=
  let s := checkBackendHealth s in
  let '(id, s) := startTimer (mkTimer HealthCheck Interval 10000) s in
  set_healthCheckInterval (Some id) s.

(** [stopBackendHealthCheck()]. *)
Definition stopBackendHealthCheck (s : Session) : Session :=
  match healthCheckInterval s with
  | Some id => set_healthCheckInterval None (clearTimer id s)
  | None => s
  end.

(** [testBackendConnectivity()] up to its [await]. *)
Definition testBackendConnectivity (s : Session) : Session :=
  logMessage TestingConnectivity info s.

(** How the request of [testBackendConnectivity] ends. *)
Inductive ProbeOutcome : Type :=
| ProbeRejects (message : string)
    (* [fetch] rejects, or the body of a success response is not JSON *)
| ProbeNotOk (status : Z)
| ProbeOk (data : Json.t) (engine : Js.Engine).

(** The [catch] block of [testBackendConnectivity]. *)
Definition probeFailed (message : string) (s : Session) : Session :=
  let s := logMessage (ConnectivityFailed message) error s in
  logMessage BackendNotAccessible error s.

(** The rest of [testBackendConnectivity], run when its request completes. *)
Definition resumeConnectivityTest (outcome : ProbeOutcome) (s : Session) : Session :=
  match outcome with
  | ProbeRejects message => probeFailed message s
  | ProbeNotOk status => logMessage (ConnectivityFailedHttp status) error s
  | ProbeOk data engine =>
      match data with
      | Json.Null => probeFailed (Js.readOfNull engine "device") s
      | _ =>
          match Json.orElse (Json.get "device" data) "Ready" with
          | Some device => logMessage (ConnectivityPassed device) info s
          | None => probeFailed (Js.noPrimitive engine) s
          end
      end
  end.

(** [handleResize()]; the video's intrinsic size and the bounding rectangle
    are read off the page.  The restyling of the overlay only repaints. *)
Definition handleResize (videoWidth videoHeight : Z) (rectWidth rectHeight : Q)
    (s : Session) : Session :=
  if (negb (videoWidth =? 0) && negb (videoHeight =? 0))%bool
  then logMessage (ResizedOverlay rectWidth rectHeight) info s
  else s.

(* ===================================================================== *)
(** ** Construction and teardown *)
(* ===================================================================== *)

(** [cleanup()]. *)
Definition cleanup (s : Session) : Session :=
  let s := stopPeriodicProcessing s in
  let s := stopBackendHealthCheck s in
  let s := stopHeartbeat s in
  let s := match ws s with
           | Some sock => closeSocket sock s
           | None => s
           end in
  if stream s then stopCamera s else s.

(** What the constructor finds in the page it runs in (the markup is not
    part of the controller): the browser's text metrics, the initial values
    of the sliders and the initial size of the overlay canvas. *)
Record Page : Type := mkPage {
  textMetrics : string -> string -> Q;
  initialSpeed : Z;
  initialSliders : Sliders;
  overlayWidth : Z;
  overlayHeight : Z
}.

(** The state the constructor leaves. *)
Definition init (page : Page) : Session :=
  let s :=
    mkSession false None false JsMap.empty false None None None
      (initialSpeed page) (initialSliders page) []
      (Canvas.mk (overlayWidth page) (overlayHeight page) Canvas.defaultFont
         (textMetrics page) [])
      [] 1%nat [] [] 0%nat 0%nat [] in
  let s := connectWebSocket s in
  let s := startBackendHealthCheck s in
  snd (startTimer (mkTimer ConnectivityTest Timeout 1000) s).

(* ===================================================================== *)
(** ** The event loop *)
(* ===================================================================== *)

(** What the browser can deliver to the controller.  The camera events and
    the answer to the connectivity test are not tied to a pending request:
    the browser may deliver them at any time, which only adds runs. *)
Inductive Event : Type :=
| TimerFires (id : nat)                      (* an active timer is due *)
| BlobReady (appendError : option string)    (* a [toBlob] callback *)
| FetchCompletes (outcome : FetchOutcome)    (* the awaited request settles *)
| AnimationFrame                             (* the next display refresh *)
| SocketOpens (sock : nat)
| SocketMessage (sock : nat) (parsed : option Envelope)
| SocketErrors (sock : nat) (message : option string)
| SocketCloses (sock : nat)
| UserMediaGranted                           (* [getUserMedia] resolves *)
| UserMediaDenied (message : string)         (* [getUserMedia] rejects *)
| CanPlay (videoWidth videoHeight : Z) (rectWidth rectHeight : Q)
| ClickStart                                 (* the start/stop button *)
| SpeedInput (fps : Z)
| SliderInput (slider : Slider) (value : string)
| ClickKeep (cardId : string)
| ClickRemove (cardId : string)
| ClickRemoveAll
| VisibilityChange (hidden : bool)
| BeforeUnload                               (* runs [cleanup] *)
| WindowResize (videoWidth videoHeight : Z) (rectWidth rectHeight : Q)
| ConnectivityAnswer (outcome : ProbeOutcome).
    (* the request of [testBackendConnectivity] settles *)

(** The callback a timer runs. *)
Definition runCallback (cb : Callback) (s : Session) : Session :=
  match cb with
  | CaptureTick =>
      if (stream s && negb (isProcessing s))%bool
      then snd (startTimer (mkTimer CaptureDelay Timeout 25) s)
      else s
  | CaptureDelay =>
      if (stream s && negb (isProcessing s))%bool then captureFrame s else s
  | HealthCheck => checkBackendHealth s
  | Heartbeat => heartbeatCallback s
  | Reconnect => reconnectCallback s
  | ConnectivityTest => testBackendConnectivity s
  end.

(** One turn of the event loop.  An event the browser cannot deliver in the
    current state (a timer that is not active, a blob nobody asked for, a
    completion with no request outstanding, an event of a closed socket) is
    not a turn and leaves the state as it is. *)
Definition step (e : Event) (s : Session) : Session :=
  match e with
  | TimerFires id =>
      match lookupTimer id (timers s) with
      | Some t =>
          let s := match mode t with
                   | Timeout => clearTimer id s
                   | Interval => s
                   end in
          runCallback (callback t) s
      | None => s
      end
  | BlobReady appendError =>
      match pendingBlobs s with
      | S n => processFrameWithBackend appendError (set_pendingBlobs n s)
      | O => s
      end
  | FetchCompletes outcome =>
      match inflight s with
      | S n => resumeProcessFrame outcome (set_inflight n s)
      | O => s
      end
  | AnimationFrame =>
      let c := fold_left (fun c detections => Overlay.renderPass detections c)
                 (rafQueue s) (overlay s) in
      set_rafQueue [] (set_overlay c s)
  | SocketOpens sock =>
      match readyState sock s with
      | Some CONNECTING => onopen (setReadyState sock OPEN s)
      | _ => s
      end
  | SocketMessage sock parsed =>
      match readyState sock s with
      | Some OPEN | Some CLOSING => onmessage parsed s
      | _ => s
      end
  | SocketErrors sock message =>
      match readyState sock s with
      | Some CONNECTING | Some OPEN | Some CLOSING => onerror message s
      | _ => s
      end
  | SocketCloses sock =>
      match readyState sock s with
      | Some CONNECTING | Some OPEN | Some CLOSING =>
          onclose (setReadyState sock CLOSED s)
      | _ => s
      end
  | UserMediaGranted => set_stream true s
  | UserMediaDenied message => logMessage (CameraError message) error s
  | CanPlay videoWidth videoHeight rectWidth rectHeight =>
      let s := set_overlay (Canvas.resize videoWidth videoHeight (overlay s)) s in
      let s := logMessage (CameraStarted videoWidth videoHeight) info s in
      let s := logMessage (CanvasDimensions (Canvas.width (overlay s))
                             (Canvas.height (overlay s))) info s in
      let s := logMessage (VideoDisplaySize rectWidth rectHeight) info s in
      startPeriodicProcessing s
  | ClickStart => toggleCamera s
  | SpeedInput fps => updateProcessingSpeed fps s
  | SliderInput slider value =>
      logMessage (SliderUpdated slider value) info
        (set_sliders (moveSlider slider value (sliders s)) s)
  | ClickKeep cardId => toggleKeepCard cardId s
  | ClickRemove cardId => removeCard cardId s
  | ClickRemoveAll => removeAllCards s
  | VisibilityChange hidden =>
      if (negb hidden && negb (isConnected s))%bool then connectWebSocket s else s
  | BeforeUnload => cleanup s
  | WindowResize videoWidth videoHeight rectWidth rectHeight =>
      handleResize videoWidth videoHeight rectWidth rectHeight s
  | ConnectivityAnswer outcome => resumeConnectivityTest outcome s
  end.

(** A run of the event loop: the events in the order the browser delivers
    them. *)
Definition run (events : list Event) (s : Session) : Session :=
  fold_left (fun s e => step e s) events s.

(* ===================================================================== *)
(** ** Vocabulary of the properties *)
(* ===================================================================== *)

(** The part of the state that cache operations and logging never touch. *)
Definition control (s : Session) :=
  (stream s, ws s, isConnected s, isProcessing s,
   (processingInterval s, healthCheckInterval s, heartbeatInterval s),
   (timers s, nextTimer s), sockets s, (pendingBlobs s, inflight s)).

(** The case-folded name the handlers compare. *)
Definition foldedName (card : Card.t) : string := Js.toLowerCase (Card.name card).

Definition foldedNames (m : JsMap.t) : list string := map foldedName (JsMap.values m).

(** No two entries of the store have the same case-folded name. *)
Definition uniqueNames (s : Session) : Prop := NoDup (foldedNames (detectedCards s)).

(** A property of the store, read on the session. *)
Definition holdsIn (P : JsMap.t -> Prop) (s : Session) : Prop := P (detectedCards s).

(** No two entries of the store have the same id. *)
Definition uniqueKeys (s : Session) : Prop := NoDup (JsMap.keys (detectedCards s)).

(** A card is live at [now] when its timestamp lies within the cooldown
    window of [now]. *)
Definition live (window now : Z) (card : Card.t) : bool :=
  now - Card.timestamp card <=? window.

(** The default cooldown window: 120 s. *)
Definition cooldownWindow : Z := 2 * 60 * 1000.

Definition liveCards (window now : Z) (s : Session) : list Card.t :=
  filter (live window now) (JsMap.values (detectedCards s)).

(** The display-name chain of the cache, field by field: a field is usable
    when it is present and not blank once trimmed. *)
Definition usable (f : option string) (v : string) : Prop :=
  f = Some v /\ Js.trim v <> "".

Definition unusable (f : option string) : Prop :=
  forall v, f = Some v -> Js.trim v = "".

(** The number of stored cards that carry a given name, case-insensitively. *)
Definition countNamed (name : string) (s : Session) : nat :=
  length (filter (fun card => sameName (Card.name card) name)
            (JsMap.values (detectedCards s))).

(* ===================================================================== *)
(** ** Concrete scenarios *)
(* ===================================================================== *)

Module Scenario.

(** A page whose fonts give every text seven pixels per character. *)
Definition metrics : string -> string -> Q :=
  fun _ text => inject_Z (7 * Z.of_nat (String.length text)).

Definition page : Page := mkPage metrics 2 (mkSliders "0.25" "0.45" "10") 300 150.

(** The constructor's state in that page: the speed slider at 2 frames per
    second, the overlay at the default canvas size. *)
Definition start : Session := init page.

Definition square : list Point := [(10, 20); (110, 20); (110, 160); (10, 160)]%Q.

Definition pikachu : BestMatch.t :=
  BestMatch.mk (Some "Pikachu") (Some "base1-58") (Some "base1") (Some (32 # 10)%Q).

Definition pikachuDetection : Detection.t :=
  Detection.mk (Some square) None (Some [pikachu]).

Definition pikachuResponse : Response.t :=
  Response.mk (Some 1) (Some [pikachuDetection]).

(** Every reading of the clock during one handler returns [t]. *)
Definition at_ (t : Z) : nat -> HttpReadings := fun _ => mkHttpReadings t t t.

(** The camera is granted and the video becomes playable: capture starts
    (timer 3 is the capture interval). *)
Definition cameraOn : list Event :=
  [UserMediaGranted; CanPlay 640 480 640 480].

(** One full recognition cycle answered by [outcome]: the capture interval
    ticks, its 25 ms delay [delayId] elapses, the blob arrives, the request
    completes. *)
Definition cycle (delayId : nat) (outcome : FetchOutcome) : list Event :=
  [TimerFires 3; TimerFires delayId; BlobReady None; FetchCompletes outcome].

(** A best match with surrounding white space in its name. *)
Definition padded : BestMatch.t :=
  BestMatch.mk (Some " Pikachu ") None None (Some (32 # 10)%Q).

(** A best match that only carries a set identifier. *)
Definition setOnly : BestMatch.t :=
  BestMatch.mk None None (Some "base1") (Some (32 # 10)%Q).

(** A detection with a polygon and no candidate match. *)
Definition unmatched : Detection.t := Detection.mk (Some square) None (Some []).

(** The texts of V8's [TypeError]s. *)
Definition v8 : Js.Engine :=
  Js.mkEngine
    (fun property => "Cannot read properties of null (reading '" ++ property ++ "')")
    "Cannot convert object to primitive value".

(** The error body FastAPI sends with a status 422: [detail] is a list of
    objects. *)
Definition validationError : Json.t :=
  Json.Obj [("detail",
             Json.Arr [Json.Obj [("loc", Json.Arr [Json.Str "query"; Json.Str "conf"]);
                                 ("msg", Json.Str "value is not a valid float")]])].

End Scenario.

(* ===================================================================== *)
(** ** The render pass as a list of operations *)
(* ===================================================================== *)

Module OverlayOps.
Import Canvas.

(** The path of a polygon, filled translucently and then stroked. *)
Definition polygonOps (firstPoint : Point) (others : list Point) : list Op :=
  ([beginPath; moveTo (fst firstPoint) (snd firstPoint)]
   ++ map (fun point => lineTo (fst point) (snd point)) others
   ++ [closePath; fillStyle "rgba(16, 185, 129, 0.1)"; fill;
       strokeStyle "#10b981"; lineWidth 3; stroke])%list.

(** The label: a background as wide as the measured text plus 20, then the
    text. *)
Definition labelOps (textWidth : Q) (anchor : Point) (text : string) : list Op :=
  let '(x, y) := anchor in
  [fillStyle "rgba(16, 185, 129, 0.9)";
   fillRect (x - 10) (y - 35) (textWidth + 20) (20 + 10);
   fillStyle "#ffffff"; font "bold 14px Arial"; textAlign "center";
   fillText text (x + textWidth / 2) (y - 20)]%Q.

(** The badge carrying the detection's sequence number. *)
Definition badgeOps (anchor : Point) (index : nat) : list Op :=
  let '(x, y) := anchor in
  [fillStyle "#10b981"; fillRect (x - 25) (y - 25) 30 30;
   fillStyle "#ffffff"; font "bold 16px Arial"; textAlign "center";
   fillText (Js.showNat (index + 1)) (x - 10) (y - 8)]%Q.

Arguments polygonOps : simpl never.
Arguments labelOps : simpl never.
Arguments badgeOps : simpl never.

(** What a pass draws for the detections [l], numbered from [index], when
    the context's font is [font0] on entry.  A label is measured under the
    font then current: [font0] until a first polygon has been drawn, the
    badge font afterwards. *)
Fixpoint passOps (metrics : string -> string -> Q) (font0 : string) (index : nat)
    (l : list Detection.t) : list Op :=
  match l with
  | [] => []
  | d :: r =>
      match Detection.polygon d with
      | Some (p :: ps) =>
          let text := Overlay.cardName index d in
          (polygonOps p ps ++ labelOps (metrics font0 text) p text ++ badgeOps p index
           ++ passOps metrics "bold 16px Arial" (S index) r)%list
      | _ => passOps metrics font0 (S index) r
      end
  end.

(** The detections of a pass, none when the argument is absent. *)
Definition listed (detections : option (list Detection.t)) : list Detection.t :=
  match detections with Some l => l | None => [] end.

(** The best match of a detection, if it has one. *)
Definition bestMatchOf (d : Detection.t) : option BestMatch.t :=
  match Detection.matches d with
  | Some (m :: _) => Some m
  | _ => None
  end.

End OverlayOps.

(** The texts a canvas has been asked to draw, in order. *)
Definition textsDrawn (c : Canvas.t) : list string :=
  flat_map (fun op => match op with Canvas.fillText text _ _ => [text] | _ => [] end)
    (Canvas.trace c).

(** A detection the backend-response path has nothing to match against. *)
Definition unmatchedDetection (d : Detection.t) : Prop :=
  Detection.matches d = None \/ Detection.matches d = Some [].

(** The in-flight flag together with the number of outstanding requests. *)
Definition flight (s : Session) : bool * nat := (isProcessing s, inflight s).

(** At most one request is outstanding, and none while the flag is clear. *)
Definition singleInFlight (s : Session) : Prop :=
  (inflight s <= 1)%nat /\ (isProcessing s = false -> inflight s = 0%nat).

Definition callbackIs (cb : Callback) (t : Timer) : bool :=
  match cb, callback t with
  | CaptureTick, CaptureTick | CaptureDelay, CaptureDelay
  | HealthCheck, HealthCheck | Heartbeat, Heartbeat
  | Reconnect, Reconnect | ConnectivityTest, ConnectivityTest => true
  | _, _ => false
  end.

(** The active timers that run a given callback. *)
Definition pending (cb : Callback) (s : Session) : list (nat * Timer) :=
  filter (fun p => callbackIs cb (snd p)) (timers s).

(** A socket whose close event is still to come. *)
Definition notClosed (sock : nat) (s : Session) : Prop :=
  readyState sock s = Some CONNECTING \/ readyState sock s = Some OPEN \/
  readyState sock s = Some CLOSING.

(** The handle under which the session remembers a timer of a given
    callback; only the three intervals have one. *)
Definition handleOf (cb : Callback) (s : Session) : option nat :=
  match cb with
  | CaptureTick => processingInterval s
  | HealthCheck => healthCheckInterval s
  | Heartbeat => heartbeatInterval s
  | _ => None
  end.

(** The handle is the only way the controller can cancel a timer. *)
Definition hasHandle (cb : Callback) : bool :=
  match cb with
  | CaptureTick | HealthCheck | Heartbeat => true
  | _ => false
  end.

(** Bookkeeping of timers and handles that every reachable state satisfies:
    ids and handles are below the next id; a handle only ever points to a
    timer of its own callback; every active capture or health-check
    interval is the one its handle points to. *)
Record timersOk (s : Session) : Prop := mkTimersOk {
  fresh_ids : forall id t, In (id, t) (timers s) -> (id < nextTimer s)%nat;
  fresh_handles : forall cb id, handleOf cb s = Some id -> (id < nextTimer s)%nat;
  handle_typed : forall cb id t,
      handleOf cb s = Some id -> In (id, t) (timers s) -> callback t = cb;
  tracked : forall id t,
      In (id, t) (timers s) ->
      callback t = CaptureTick \/ callback t = HealthCheck ->
      handleOf (callback t) s = Some id
}.

(** What the timer bookkeeping depends on. *)
Definition timerView (s : Session) :=
  (timers s, nextTimer s,
   (processingInterval s, healthCheckInterval s, heartbeatInterval s)).


(* ===================================================================== *)
(** ** Proof automation *)
(* ===================================================================== *)

(** Splits on the ways the connectivity test can end. *)
Ltac split_answer outcome :=
  unfold resumeConnectivityTest, probeFailed;
  destruct outcome as [?|?|data ?];
  [ | | destruct data; try destruct (Json.orElse _ _) ].

(** Splits on whatever the head function of the goal branches on. *)
Ltac split_branches :=
  repeat match goal with
    | |- context [match ?x with _ => _ end] =>
        match type of x with
        | Session => fail 1
        | _ => destruct x eqn:?; simpl
        end
    end.

Ltac unfold_control :=
  unfold toggleCamera, startCamera, cleanup, stopCamera, updateProcessingSpeed,
    startPeriodicProcessing,
    stopPeriodicProcessing, stopBackendHealthCheck, startBackendHealthCheck,
    testBackendConnectivity, onopen, onclose, onerror, reconnectCallback,
    heartbeatCallback, closeSocket, connectWebSocket, startHeartbeat,
    stopHeartbeat, captureFrame, clearOverlay, setReadyState, startTimer,
    clearTimer, catchBlock, finallyBlock, logMessage in *.

(* ===================================================================== *)
(** ** The serving side of the notification channel *)
(* ===================================================================== *)

(** The WebSocket endpoint of the Express server ([server.js]), which the
    controller's channel talks to.  A send on the server's socket is taken
    to succeed. *)
Module Server.

(** What the server sends. *)
Inductive Reply : Type :=
| connected (message : string)
| processing (message : string)
| error (message : string)
| pong.

(** The greeting sent when a client connects. *)
Definition onConnection : list Reply :=
  [connected "Connected to Pokemon Card Detection server"].

(** The ['message'] handler.  [None] is a payload on which [JSON.parse]
    throws, or which parses to [null] so that reading [data.type] throws;
    [Some t] is a parsed value whose [type] is the string [t], or is absent
    or not a string when [t] is [None]. *)
Definition onMessage (data : option (option string)) : list Reply :=
  match data with
  | None => [error "Invalid message format"]
  | Some (Some type) =>
      if String.eqb type "frame" then [processing "Frame received for processing"]
      else if String.eqb type "ping" then [pong]
      else []
  | Some None => []
  end.

End Server.

(** A message of the controller as the server parses it. *)
Definition outgoingData (o : Outgoing) : option (option string) :=
  match o with ping => Some (Some "ping") end.

(** A reply of the server as the controller parses it. *)
Definition replyEnvelope (r : Server.Reply) : Envelope :=
  match r with
  | Server.connected message => MsgConnected message
  | Server.processing _ => MsgProcessing
  | Server.error message => MsgError message
  | Server.pong => MsgPong
  end.

(* ===================================================================== *)
(** ** Further vocabulary *)
(* ===================================================================== *)

(** What the overlay shows: the operations performed since the surface was
    last cleared. *)
Fixpoint sinceClear (shown : list Canvas.Op) (ops : list Canvas.Op) : list Canvas.Op :=
  match ops with
  | [] => shown
  | Canvas.clearRect _ _ _ _ :: r => sinceClear [] r
  | op :: r => sinceClear (shown ++ [op]) r
  end.

Definition visible (c : Canvas.t) : list Canvas.Op := sinceClear [] (Canvas.trace c).

(** The channel's bookkeeping: [this.ws] is the socket created last, and
    the controller only says it is connected while some socket is open or
    closing. *)
Definition channelOk (s : Session) : Prop :=
  ws s = Some (Nat.pred (length (sockets s))) /\
  sockets s <> [] /\
  (isConnected s = true ->
   exists sock, readyState sock s = Some OPEN \/ readyState sock s = Some CLOSING).

(** The capture interval, when there is one: a single repeating timer whose
    period is 1000 ms over the speed slider's value. *)
Definition captureOk (s : Session) : Prop :=
  (length (pending CaptureTick s) <= 1)%nat /\
  forall id t,
    In (id, t) (timers s) -> callback t = CaptureTick ->
    t = mkTimer CaptureTick Interval (1000 / inject_Z (processingSpeed s))%Q.

(** A state on which [cleanup] has nothing left to do. *)
Definition tornDown (s : Session) : Prop :=
  processingInterval s = None /\ healthCheckInterval s = None /\
  heartbeatInterval s = None /\ stream s = false /\
  forall sock, ws s = Some sock ->
               readyState sock s <> Some CONNECTING /\ readyState sock s <> Some OPEN.

(** What the channel's bookkeeping depends on. *)
Definition chanView (s : Session) := (ws s, sockets s, isConnected s).

(** What the capture interval's bookkeeping depends on. *)
Definition capView (s : Session) :=
  (timers s, processingSpeed s, stream s, processingInterval s).

(** A capture interval is only held while the camera streams. *)
Definition running (s : Session) : Prop :=
  forall id, processingInterval s = Some id -> stream s = true.

(** A clear of the surface, as opposed to an operation that paints or sets
    a property.  The controller only ever clears the whole canvas. *)
Definition isClear (op : Canvas.Op) : bool :=
  match op with
  | Canvas.clearRect _ _ _ _ => true
  | _ => false
  end.


(* ===================================================================== *)
(** * Properties *)
(* ===================================================================== *)

(** ** Elementary facts about the session record *)

Lemma control_fields (s s' : Session) :
  control s' = control s ->
  stream s' = stream s /\ ws s' = ws s /\ isConnected s' = isConnected s /\
  isProcessing s' = isProcessing s /\
  processingInterval s' = processingInterval s /\
  healthCheckInterval s' = healthCheckInterval s /\
  heartbeatInterval s' = heartbeatInterval s /\
  timers s' = timers s /\ nextTimer s' = nextTimer s /\
  sockets s' = sockets s /\
  pendingBlobs s' = pendingBlobs s /\ inflight s' = inflight s.
Proof.
  unfold control; intros H; inversion H; repeat split; reflexivity.
Qed.

Lemma forEachFrom_preserves {A S : Type} (P : S -> Prop) (f : A -> nat -> S -> S) :
  (forall x i s, P s -> P (f x i s)) ->
  forall l i s, P s -> P (forEachFrom i f l s).
Proof.
  intros Hf l; induction l as [|x r IH]; intros i s Hs; simpl.
  - exact Hs.
  - apply IH, Hf, Hs.
Qed.

Lemma forEachFrom_view {A S V : Type} (view : S -> V) (f : A -> nat -> S -> S) :
  (forall x i s, view (f x i s) = view s) ->
  forall l i s, view (forEachFrom i f l s) = view s.
Proof.
  intros Hf l; induction l as [|x r IH]; intros i s; simpl.
  - reflexivity.
  - rewrite IH; apply Hf.
Qed.

Lemma keepLast_snoc {A : Type} (n : nat) (l : list A) (x : A) :
  keepLast (S n) (l ++ [x]) = (keepLast n l ++ [x])%list.
Proof.
  unfold keepLast; rewrite length_app; simpl.
  replace (length l + 1 - S n)%nat with (length l - n)%nat by lia.
  rewrite skipn_app.
  replace (length l - n - length l)%nat with 0%nat by lia.
  reflexivity.
Qed.

(** The entry just logged is the last one of the log. *)
Lemma logMessage_last (m : Message) (lv : Level) (s : Session) :
  messageLog (logMessage m lv s) = (keepLast 49 (messageLog s) ++ [(m, lv)])%list.
Proof.
  unfold logMessage; simpl; apply keepLast_snoc.
Qed.

Lemma logMessage_control m lv s : control (logMessage m lv s) = control s.
Proof. reflexivity. Qed.

Lemma logMessage_cards m lv s : detectedCards (logMessage m lv s) = detectedCards s.
Proof. reflexivity. Qed.

(** ** The cache operations leave the control state alone *)

Lemma addBackendDetection_control clk d i s :
  control (addBackendDetection clk d i s) = control s.
Proof.
  unfold addBackendDetection.
  destruct (Detection.matches d) as [[|m r]|]; try reflexivity.
  destruct (negb _ && negb _)%bool; reflexivity.
Qed.

Lemma addChannelCard_control env c i s :
  control (addChannelCard env c i s) = control s.
Proof.
  unfold addChannelCard.
  destruct (negb _ && negb _)%bool; reflexivity.
Qed.

Lemma handleBackendResponse_control clock data s :
  control (handleBackendResponse clock data s) = control s.
Proof.
  unfold handleBackendResponse.
  destruct (Response.detections data) as [[|d ds]|]; try reflexivity.
  unfold drawDetectionOverlay, forEach.
  change (control (set_rafQueue ?q ?x)) with (control x).
  apply (forEachFrom_view control).
  intros; apply addBackendDetection_control.
Qed.

Lemma handleDetection_control env cards s :
  control (handleDetection env cards s) = control s.
Proof.
  unfold handleDetection.
  destruct cards as [[|c cs]|]; try reflexivity.
  unfold drawDetectionOverlay, forEach.
  change (control (set_rafQueue ?q ?x)) with (control x).
  rewrite (forEachFrom_view control).
  - reflexivity.
  - intros; apply addChannelCard_control.
Qed.

Lemma toggleKeepCard_control k s : control (toggleKeepCard k s) = control s.
Proof. unfold toggleKeepCard; destruct (JsMap.get k _); reflexivity. Qed.

Lemma removeCard_control k s : control (removeCard k s) = control s.
Proof. unfold removeCard; destruct (JsMap.get k _); reflexivity. Qed.

Lemma removeAllCards_control s : control (removeAllCards s) = control s.
Proof. unfold removeAllCards; destruct (_ =? _)%nat; reflexivity. Qed.

(** ** The collection never holds two cards of one name *)

Section CacheInvariant.

Lemma sameName_true a b : sameName a b = true <-> Js.toLowerCase a = Js.toLowerCase b.
Proof. unfold sameName; apply String.eqb_eq. Qed.

Lemma existingCard_None name s :
  existingCard name s = None ->
  ~ In (Js.toLowerCase name) (foldedNames (detectedCards s)).
Proof.
  unfold existingCard, foldedNames; intros Hfind Hin.
  apply in_map_iff in Hin; destruct Hin as [c [Hc Hin]].
  pose proof (find_none _ _ Hfind c Hin) as Hne; simpl in Hne.
  assert (sameName (Card.name c) name = true) as Ht by (apply sameName_true; exact Hc).
  congruence.
Qed.

Lemma existingCard_Some name s c :
  In c (JsMap.values (detectedCards s)) ->
  sameName (Card.name c) name = true ->
  exists c', existingCard name s = Some c'.
Proof.
  unfold existingCard; intros Hin Hsame.
  destruct (find _ _) as [c'|] eqn:Hfind.
  - exists c'; reflexivity.
  - pose proof (find_none _ _ Hfind c Hin) as Hne; simpl in Hne; congruence.
Qed.

(** With no card of that name stored, the cooldown check finds nothing. *)
Lemma existingCard_None_not_recent name s now k :
  existingCard name s = None -> isRecentlyDetected now name k s = false.
Proof.
  unfold existingCard, isRecentlyDetected; intros Hfind.
  induction (JsMap.values (detectedCards s)) as [|c r IH]; simpl in *.
  - reflexivity.
  - destruct (sameName (Card.name c) name); [discriminate|].
    simpl; apply IH, Hfind.
Qed.

Lemma set_foldedNames_in k v m x :
  In x (foldedNames (JsMap.set k v m)) -> x = foldedName v \/ In x (foldedNames m).
Proof.
  unfold foldedNames, JsMap.values.
  induction m as [|[k' v'] r IH]; simpl.
  - intros [H|[]]; auto.
  - destruct (String.eqb k k'); simpl.
    + intros [H|H]; auto.
    + intros [H|H]; auto. destruct (IH H); auto.
Qed.

Lemma set_fresh_unique k v m :
  NoDup (foldedNames m) -> ~ In (foldedName v) (foldedNames m) ->
  NoDup (foldedNames (JsMap.set k v m)).
Proof.
  unfold foldedNames, JsMap.values.
  induction m as [|[k' v'] r IH]; simpl; intros Hnd Hfresh.
  - constructor; [intros []|constructor].
  - inversion Hnd as [|? ? Hnotin Hnd']; subst.
    destruct (String.eqb k k'); simpl.
    + constructor; [tauto|assumption].
    + constructor.
      * intros Hin. apply set_foldedNames_in in Hin.
        destruct Hin as [Heq|Hin]; [|exact (Hnotin Hin)].
        apply Hfresh; left; exact Heq.
      * apply IH; [assumption|tauto].
Qed.

Lemma set_same_name k v c m :
  JsMap.get k m = Some c -> foldedName v = foldedName c ->
  foldedNames (JsMap.set k v m) = foldedNames m.
Proof.
  unfold foldedNames, JsMap.values.
  induction m as [|[k' v'] r IH]; simpl; intros Hget Hname.
  - discriminate.
  - destruct (String.eqb k k'); simpl.
    + injection Hget as ->. rewrite Hname; reflexivity.
    + rewrite (IH Hget Hname); reflexivity.
Qed.

Lemma delete_foldedNames_in k m x :
  In x (foldedNames (JsMap.delete k m)) -> In x (foldedNames m).
Proof.
  unfold foldedNames, JsMap.values.
  induction m as [|[k' v'] r IH]; simpl; [tauto|].
  destruct (String.eqb k k'); simpl; intuition.
Qed.

Lemma delete_unique k m :
  NoDup (foldedNames m) -> NoDup (foldedNames (JsMap.delete k m)).
Proof.
  unfold foldedNames, JsMap.values.
  induction m as [|[k' v'] r IH]; simpl; intros Hnd; [constructor|].
  inversion Hnd as [|? ? Hnotin Hnd']; subst.
  destruct (String.eqb k k'); simpl; [assumption|].
  constructor; [|apply IH; assumption].
  intros Hin; apply Hnotin. exact (delete_foldedNames_in _ _ _ Hin).
Qed.

Lemma keys_set_in k v m x :
  In x (JsMap.keys (JsMap.set k v m)) -> x = k \/ In x (JsMap.keys m).
Proof.
  unfold JsMap.keys; induction m as [|[k' v'] r IH]; simpl.
  - intros [H|[]]; auto.
  - destruct (String.eqb k k'); simpl; [tauto|].
    intros [H|H]; auto. destruct (IH H); auto.
Qed.

(** [set] never duplicates a key. *)
Lemma set_keys_unique k v m :
  NoDup (JsMap.keys m) -> NoDup (JsMap.keys (JsMap.set k v m)).
Proof.
  unfold JsMap.keys; induction m as [|[k' v'] r IH]; simpl; intros Hnd.
  - constructor; [intros []|constructor].
  - inversion Hnd as [|? ? Hnotin Hnd']; subst.
    destruct (String.eqb k k') eqn:E; simpl; [constructor; assumption|].
    constructor; [|apply IH; assumption].
    intros Hin; apply keys_set_in in Hin; destruct Hin as [Heq|Hin]; [|tauto].
    subst k'; rewrite String.eqb_refl in E; discriminate.
Qed.

Lemma delete_keys_unique k m :
  NoDup (JsMap.keys m) -> NoDup (JsMap.keys (JsMap.delete k m)).
Proof.
  unfold JsMap.keys; induction m as [|[k' v'] r IH]; simpl; intros Hnd; [constructor|].
  inversion Hnd as [|? ? Hnotin Hnd']; subst.
  destruct (String.eqb k k'); simpl; [assumption|].
  constructor; [|apply IH; assumption].
  intros Hin; apply Hnotin; clear - Hin.
  induction r as [|[k2 v2] r IH]; simpl in *; [tauto|].
  destruct (String.eqb k k2); simpl in *; tauto.
Qed.

End CacheInvariant.

(** ** What the event loop can do to the collection *)

(** The collection only changes by inserting a card whose name is not
    stored yet, by updating a stored card without renaming it, by deleting a
    card and by clearing.  A property of the store that these four preserve
    is preserved by every handler and by every turn of the event loop. *)
Section CacheClosure.

Variable P : JsMap.t -> Prop.

Hypothesis P_insert : forall k v m,
    P m -> ~ In (foldedName v) (foldedNames m) -> P (JsMap.set k v m).
Hypothesis P_update : forall k v c m,
    P m -> JsMap.get k m = Some c -> foldedName v = foldedName c -> P (JsMap.set k v m).
Hypothesis P_delete : forall k m, P m -> P (JsMap.delete k m).
Hypothesis P_empty : P JsMap.empty.

Lemma addBackendDetection_closed clk d i s :
  holdsIn P s -> holdsIn P (addBackendDetection clk d i s).
Proof.
  unfold holdsIn, addBackendDetection; intros Hu.
  destruct (Detection.matches d) as [[|m r]|]; try assumption.
  destruct (existingCard (cardName m) s) eqn:Hex; simpl; [assumption|].
  destruct (negb _); simpl; [|assumption].
  apply P_insert; [assumption|].
  apply existingCard_None; exact Hex.
Qed.

Lemma addChannelCard_closed env c i s :
  holdsIn P s -> holdsIn P (addChannelCard env c i s).
Proof.
  unfold holdsIn, addChannelCard; intros Hu.
  destruct (existingCard (WsCard.name c) s) eqn:Hex; simpl; [assumption|].
  destruct (negb _); simpl; [|assumption].
  apply P_insert; [assumption|].
  apply existingCard_None; exact Hex.
Qed.

Lemma handleBackendResponse_closed clock data s :
  holdsIn P s -> holdsIn P (handleBackendResponse clock data s).
Proof.
  unfold handleBackendResponse; intros Hu.
  destruct (Response.detections data) as [[|d ds]|]; try assumption.
  unfold drawDetectionOverlay, forEach.
  change (holdsIn P (set_rafQueue ?q ?x)) with (holdsIn P x).
  apply (forEachFrom_preserves (holdsIn P)); [|assumption].
  intros; apply addBackendDetection_closed; assumption.
Qed.

Lemma handleDetection_closed env cards s :
  holdsIn P s -> holdsIn P (handleDetection env cards s).
Proof.
  unfold handleDetection; intros Hu.
  destruct cards as [[|c cs]|]; try assumption.
  unfold drawDetectionOverlay, forEach.
  change (holdsIn P (set_rafQueue ?q ?x)) with (holdsIn P x).
  apply (forEachFrom_preserves (holdsIn P)); [|assumption].
  intros; apply addChannelCard_closed; assumption.
Qed.

Lemma toggleKeepCard_closed k s : holdsIn P s -> holdsIn P (toggleKeepCard k s).
Proof.
  unfold holdsIn, toggleKeepCard; intros Hu.
  destruct (JsMap.get k (detectedCards s)) as [c|] eqn:Hget; [|assumption].
  simpl. apply (P_update _ _ c); [assumption|exact Hget|reflexivity].
Qed.

Lemma removeCard_closed k s : holdsIn P s -> holdsIn P (removeCard k s).
Proof.
  unfold holdsIn, removeCard; intros Hu.
  destruct (JsMap.get k (detectedCards s)); [|assumption].
  simpl; apply P_delete; assumption.
Qed.

Lemma removeAllCards_closed s : holdsIn P s -> holdsIn P (removeAllCards s).
Proof.
  unfold holdsIn, removeAllCards; intros Hu.
  destruct (_ =? _)%nat; [assumption|simpl; exact P_empty].
Qed.

(** Scheduler, channel and timers leave the collection alone. *)
Lemma runCallback_cards cb s : detectedCards (runCallback cb s) = detectedCards s.
Proof.
  destruct cb; unfold runCallback; unfold_control; simpl;
    split_branches; reflexivity.
Qed.

Lemma processFrameWithBackend_cards e s :
  detectedCards (processFrameWithBackend e s) = detectedCards s.
Proof.
  unfold processFrameWithBackend; unfold_control; split_branches; reflexivity.
Qed.

Lemma cleanup_cards s : detectedCards (cleanup s) = detectedCards s.
Proof. unfold_control; simpl; split_branches; reflexivity. Qed.

Lemma resumeProcessFrame_closed o s :
  holdsIn P s -> holdsIn P (resumeProcessFrame o s).
Proof.
  intros Hu.
  assert (forall data,
             holdsIn P (match Response.num_detections data with
                        | Some n =>
                            if n >? 0 then logMessage (ReceivedDetections n) info s else s
                        | None => s
                        end)) as Hreceived
      by (intros data; destruct (Response.num_detections data) as [n|]; [|exact Hu];
          destruct (n >? 0); exact Hu).
  destruct o as [n m|st body engine|data clock|data clock point n m]; simpl;
    try exact Hu.
  - destruct (notOkError engine st body); exact Hu.
  - unfold finallyBlock.
    change (holdsIn P (set_isProcessing ?b ?x)) with (holdsIn P x).
    apply handleBackendResponse_closed, Hreceived.
  - change (holdsIn P (catchBlock ?a ?b ?x)) with (holdsIn P x).
    destruct point; [|apply handleBackendResponse_closed, Hreceived].
    apply (forEachFrom_preserves (holdsIn P)); [|apply Hreceived].
    intros; apply addBackendDetection_closed; assumption.
Qed.

Lemma step_closed e s : holdsIn P s -> holdsIn P (step e s).
Proof.
  intros Hu; destruct e; simpl.
  - destruct (lookupTimer id (timers s)) as [t|]; [|exact Hu].
    unfold holdsIn; rewrite runCallback_cards.
    destruct (mode t); exact Hu.
  - destruct (pendingBlobs s); [exact Hu|].
    unfold holdsIn; rewrite processFrameWithBackend_cards; exact Hu.
  - destruct (inflight s); [exact Hu|].
    apply resumeProcessFrame_closed; exact Hu.
  - exact Hu.
  - destruct (readyState sock s) as [[]|]; exact Hu.
  - destruct (readyState sock s) as [[]|]; try exact Hu;
      (destruct parsed as [[]|]; simpl; try exact Hu;
       apply handleDetection_closed; exact Hu).
  - destruct (readyState sock s) as [[]|]; exact Hu.
  - destruct (readyState sock s) as [[]|]; try exact Hu;
      (unfold holdsIn, onclose; unfold_control; simpl;
       split_branches; exact Hu).
  - exact Hu.
  - exact Hu.
  - unfold holdsIn; unfold_control; simpl; split_branches; exact Hu.
  - unfold toggleCamera, startCamera.
    destruct (stream s) eqn:Hs; [|exact Hu].
    unfold holdsIn; unfold_control; simpl; rewrite Hs; simpl.
    split_branches; exact Hu.
  - unfold holdsIn; unfold_control; simpl; split_branches; exact Hu.
  - exact Hu.
  - apply toggleKeepCard_closed; exact Hu.
  - apply removeCard_closed; exact Hu.
  - apply removeAllCards_closed; exact Hu.
  - destruct (negb hidden && negb (isConnected s))%bool; exact Hu.
  - unfold holdsIn; rewrite cleanup_cards; exact Hu.
  - unfold handleResize; destruct (_ && _)%bool; exact Hu.
  - split_answer outcome; exact Hu.
Qed.

End CacheClosure.

(** An invariant of [step] that holds initially holds after every run. *)
Lemma run_invariant (Q : Session -> Prop) :
  (forall e s, Q s -> Q (step e s)) ->
  forall events s, Q s -> Q (run events s).
Proof.
  intros Hstep events; induction events as [|e r IH]; intros s Hs; simpl.
  - exact Hs.
  - apply IH, Hstep, Hs.
Qed.

(** Every turn of the event loop preserves the uniqueness of names. *)
Lemma step_unique e s : uniqueNames s -> uniqueNames (step e s).
Proof.
  apply (step_closed (fun m => NoDup (foldedNames m))).
  - intros k v m; apply set_fresh_unique.
  - intros k v c m Hm Hget Hname; rewrite (set_same_name k v c m Hget Hname); exact Hm.
  - intros k m; apply delete_unique.
  - constructor.
Qed.

(** In every reachable state the ids under which cards are stored are
    pairwise different: the association list is a faithful [Map]. *)
Lemma reachable_uniqueKeys page events :
  uniqueKeys (run events (init page)).
Proof.
  apply (run_invariant uniqueKeys); [|constructor].
  intros e s; apply (step_closed (fun m => NoDup (JsMap.keys m))).
  - intros k v m Hm _; apply set_keys_unique; exact Hm.
  - intros k v c m Hm _ _; apply set_keys_unique; exact Hm.
  - intros k m; apply delete_keys_unique.
  - constructor.
Qed.

Lemma init_unique page : uniqueNames (init page).
Proof. unfold uniqueNames; simpl; constructor. Qed.

(** Dropping cards from a list of pairwise differently named cards leaves
    the names pairwise different. *)
Lemma kept_cards_unique (keep : Card.t -> bool) (cards : list Card.t) :
  NoDup (map foldedName cards) -> NoDup (map foldedName (filter keep cards)).
Proof.
  induction cards as [|card rest IH]; simpl; intros Hnd; [constructor|].
  inversion Hnd as [|? ? Hnotin Hnd']; subst.
  destruct (keep card); simpl; [|apply IH; assumption].
  constructor; [|apply IH; assumption].
  intros Hin; apply Hnotin.
  apply in_map_iff in Hin; destruct Hin as [other [Hname Hin]].
  apply in_map_iff; exists other; split; [exact Hname|].
  apply filter_In in Hin; tauto.
Qed.

(* ===================================================================== *)
(** ** Detection cache: dedup, cooldown, display name *)
(* ===================================================================== *)

(** C1. Dedup invariant of the detection cache: after every run of the event
    loop from the constructor's state (recognition responses, channel
    messages, user actions and timers in any order) and at every instant
    [now], the stored cards that are live at [now] have pairwise different
    case-insensitive names.  It holds for every cooldown window, the default
    120 s included. *)
Theorem dedup_invariant (page : Page) (events : list Event) (window now : Z) :
  NoDup (map foldedName (liveCards window now (run events (init page)))).
Proof.
  unfold liveCards; apply kept_cards_unique.
  change (uniqueNames (run events (init page))).
  apply run_invariant; [exact step_unique|apply init_unique].
Qed.

Lemma get_set_same k v m : JsMap.get k (JsMap.set k v m) = Some v.
Proof.
  induction m as [|[k' v'] r IH]; simpl.
  - rewrite String.eqb_refl; reflexivity.
  - destruct (String.eqb k k') eqn:E; simpl; rewrite E; [reflexivity|exact IH].
Qed.

(** A detection whose name is already in the collection changes nothing,
    whatever the clock says. *)
Lemma addBackendDetection_existing clk d i s m r c :
  Detection.matches d = Some (m :: r) ->
  In c (JsMap.values (detectedCards s)) ->
  sameName (Card.name c) (cardName m) = true ->
  addBackendDetection clk d i s = s.
Proof.
  intros Hm Hin Hsame; unfold addBackendDetection; rewrite Hm.
  destruct (existingCard_Some _ _ _ Hin Hsame) as [c' Hc']; rewrite Hc'.
  reflexivity.
Qed.

(** A detection whose name is not in the collection is inserted under the
    id built from the clock and the index. *)
Lemma addBackendDetection_fresh clk d i s m r :
  Detection.matches d = Some (m :: r) ->
  existingCard (cardName m) s = None ->
  let cardId := "card_" ++ Js.showZ (idNow clk) ++ "_" ++ Js.showNat i in
  exists card,
    JsMap.get cardId (detectedCards (addBackendDetection clk d i s)) = Some card /\
    Card.name card = cardName m /\
    Card.timestamp card = stampNow clk /\
    Card.kept card = false.
Proof.
  intros Hm Hex; unfold addBackendDetection; rewrite Hm, Hex.
  rewrite (existingCard_None_not_recent _ _ _ _ Hex); simpl.
  eexists; split; [apply get_set_same|]; simpl; auto.
Qed.

Lemma get_In k m c : JsMap.get k m = Some c -> In c (JsMap.values m).
Proof.
  unfold JsMap.values; induction m as [|[k' v'] r IH]; simpl; [discriminate|].
  destruct (String.eqb k k'); [intros [= ->]; auto|auto].
Qed.

(** C2, as amended.  Two detections that resolve to the same name: the first,
    arriving when no card of that name is stored, is inserted with the
    current instant as its timestamp; the second is rejected and leaves the
    whole session unchanged in every state in which a card of that name is
    still stored, for every reading of the clock, within the cooldown window
    or after it. *)
Theorem same_name_rejected_while_stored
    (clk1 clk2 : HttpReadings) (d1 d2 : Detection.t) (i1 i2 : nat)
    (m1 m2 : BestMatch.t) (r1 r2 : list BestMatch.t) (s : Session) :
  Detection.matches d1 = Some (m1 :: r1) ->
  Detection.matches d2 = Some (m2 :: r2) ->
  cardName m2 = cardName m1 ->
  existingCard (cardName m1) s = None ->
  let s1 := addBackendDetection clk1 d1 i1 s in
  (exists card,
      In card (JsMap.values (detectedCards s1)) /\
      Card.name card = cardName m1 /\ Card.timestamp card = stampNow clk1) /\
  addBackendDetection clk2 d2 i2 s1 = s1 /\
  (forall s' card,
      In card (JsMap.values (detectedCards s')) ->
      Card.name card = cardName m1 ->
      addBackendDetection clk2 d2 i2 s' = s').
Proof.
  intros H1 H2 Hname Hex s1.
  destruct (addBackendDetection_fresh clk1 d1 i1 s m1 r1 H1 Hex)
    as [card [Hget [Hn [Ht _]]]].
  assert (forall s' c, In c (JsMap.values (detectedCards s')) ->
                       Card.name c = cardName m1 ->
                       addBackendDetection clk2 d2 i2 s' = s') as Hrej.
  { intros s' c Hin Hc.
    apply (addBackendDetection_existing clk2 d2 i2 s' m2 r2 c H2 Hin).
    apply sameName_true; rewrite Hc, Hname; reflexivity. }
  repeat split.
  - exists card; repeat split; [exact (get_In _ _ _ Hget)|exact Hn|exact Ht].
  - apply (Hrej s1 card); [exact (get_In _ _ _ Hget)|exact Hn].
  - exact Hrej.
Qed.

Lemma same_name_rejected_while_stored_witness :
  let s1 := addBackendDetection (Scenario.at_ 1000 0%nat) Scenario.pikachuDetection 0
              Scenario.start in
  (exists card,
      In card (JsMap.values (detectedCards s1)) /\
      Card.name card = "Pikachu" /\ Card.timestamp card = 1000) /\
  addBackendDetection (Scenario.at_ 121001 0%nat) Scenario.pikachuDetection 0 s1 = s1 /\
  (forall s' card,
      In card (JsMap.values (detectedCards s')) ->
      Card.name card = "Pikachu" ->
      addBackendDetection (Scenario.at_ 121001 0%nat) Scenario.pikachuDetection 0 s' = s').
Proof.
  apply (same_name_rejected_while_stored
           (Scenario.at_ 1000 0%nat) (Scenario.at_ 121001 0%nat)
           Scenario.pikachuDetection Scenario.pikachuDetection 0 0
           Scenario.pikachu Scenario.pikachu [] [] Scenario.start);
    reflexivity.
Defined.

(** C2 as stated fails: a first "Pikachu" is stored at instant 1000 through a
    full capture cycle; a second cycle delivers the same detection at instant
    121001, more than the 120 s window later and with nothing removed in
    between.  The claim has the cache hold two such cards; it holds one and
    the second response did not change it. *)
Lemma cooldown_boundary_counterexample :
  let s1 := run (Scenario.cameraOn ++
                 Scenario.cycle 4 (Ok Scenario.pikachuResponse (Scenario.at_ 1000)))%list
              Scenario.start in
  let s2 := run (Scenario.cycle 5 (Ok Scenario.pikachuResponse (Scenario.at_ 121001))) s1 in
  map Card.timestamp (JsMap.values (detectedCards s1)) = [1000] /\
  121001 - 1000 > cooldownWindow /\
  detectedCards s2 = detectedCards s1 /\
  countNamed "Pikachu" s2 = 1%nat /\
  countNamed "Pikachu" s2 <> 2%nat.
Proof.
  vm_compute; repeat split; discriminate.
Qed.

Lemma nonBlank_usable f v : usable f v -> Js.nonBlank f = Some (Js.trim v).
Proof.
  intros [-> Hv]; unfold Js.nonBlank.
  destruct v as [|a v']; [exfalso; apply Hv; reflexivity|].
  simpl Js.truthy at 1.
  destruct (Js.trim (String a v')); [exfalso; apply Hv; reflexivity|reflexivity].
Qed.

Lemma nonBlank_unusable f : unusable f -> Js.nonBlank f = None.
Proof.
  intros Hf; unfold Js.nonBlank; destruct f as [v|]; [|reflexivity].
  rewrite (Hf v eq_refl); destruct (Js.truthy v); reflexivity.
Qed.

(** C4, as amended.  For a raw detection with a non-empty matches list whose
    name is not yet in the collection, the stored card's name is: the best
    match's name with surrounding white space trimmed, when that name is
    present and not blank after trimming; otherwise the trimmed card
    identifier under the same condition; otherwise the trimmed set
    identifier under the same condition; otherwise the literal
    "Unknown Card". *)
Theorem display_name_resolution
    (clk : HttpReadings) (d : Detection.t) (i : nat) (s : Session)
    (m : BestMatch.t) (r : list BestMatch.t) :
  Detection.matches d = Some (m :: r) ->
  existingCard (cardName m) s = None ->
  exists card,
    JsMap.get ("card_" ++ Js.showZ (idNow clk) ++ "_" ++ Js.showNat i)
      (detectedCards (addBackendDetection clk d i s)) = Some card /\
    (forall v, usable (BestMatch.name m) v -> Card.name card = Js.trim v) /\
    (unusable (BestMatch.name m) ->
     forall v, usable (BestMatch.card_id m) v -> Card.name card = Js.trim v) /\
    (unusable (BestMatch.name m) -> unusable (BestMatch.card_id m) ->
     forall v, usable (BestMatch.set_id m) v -> Card.name card = Js.trim v) /\
    (unusable (BestMatch.name m) -> unusable (BestMatch.card_id m) ->
     unusable (BestMatch.set_id m) -> Card.name card = "Unknown Card").
Proof.
  intros Hm Hex.
  destruct (addBackendDetection_fresh clk d i s m r Hm Hex) as [card [Hget [Hn _]]].
  exists card; split; [exact Hget|]; rewrite Hn; unfold cardName.
  repeat split.
  - intros v Hv; rewrite (nonBlank_usable _ _ Hv); reflexivity.
  - intros Hn0 v Hv.
    rewrite (nonBlank_unusable _ Hn0), (nonBlank_usable _ _ Hv); reflexivity.
  - intros Hn0 Hc0 v Hv.
    rewrite (nonBlank_unusable _ Hn0), (nonBlank_unusable _ Hc0),
      (nonBlank_usable _ _ Hv); reflexivity.
  - intros Hn0 Hc0 Hs0.
    rewrite (nonBlank_unusable _ Hn0), (nonBlank_unusable _ Hc0),
      (nonBlank_unusable _ Hs0); reflexivity.
Qed.

Lemma display_name_resolution_witness :
  exists card,
    JsMap.get "card_1000_0"
      (detectedCards
         (addBackendDetection (Scenario.at_ 1000 0%nat)
            (Detection.mk None None (Some [Scenario.padded])) 0 Scenario.start))
    = Some card /\
    Card.name card = "Pikachu".
Proof.
  destruct (display_name_resolution (Scenario.at_ 1000 0%nat)
              (Detection.mk None None (Some [Scenario.padded])) 0 Scenario.start
              Scenario.padded [] eq_refl eq_refl)
    as [card [Hget [Hname _]]].
  exists card; split; [exact Hget|].
  apply (Hname " Pikachu "); split; [reflexivity|discriminate].
Defined.

(** C4 as stated fails: the best match's name " Pikachu " is present and not
    blank after trimming, yet the stored card is named "Pikachu", which is
    not the best match's name. *)
Lemma display_name_counterexample :
  let d := Detection.mk (Some Scenario.square) None (Some [Scenario.padded]) in
  let s := handleBackendResponse (Scenario.at_ 1000)
             (Response.mk (Some 1) (Some [d])) Scenario.start in
  BestMatch.name Scenario.padded = Some " Pikachu " /\
  Js.trim " Pikachu " <> "" /\
  map Card.name (JsMap.values (detectedCards s)) = ["Pikachu"] /\
  "Pikachu" <> " Pikachu ".
Proof.
  vm_compute; repeat split; discriminate.
Qed.

(** C9. [removeAllCards] leaves the store empty and touches nothing but the
    store and the log.  On a non-empty store the entry it logs reports a
    count equal to the number of cards stored just before the call; on an
    empty store it changes nothing and logs that there was no card to
    remove. *)
Theorem removeAll_postcondition (s : Session) :
  let s' := removeAllCards s in
  detectedCards s' = JsMap.empty /\
  control s' = control s /\
  (JsMap.size (detectedCards s) <> 0%nat ->
   messageLog s' =
     (keepLast 49 (messageLog s) ++
      [(RemovedAll (JsMap.size (detectedCards s)), info)])%list) /\
  (JsMap.size (detectedCards s) = 0%nat ->
   detectedCards s' = detectedCards s /\
   messageLog s' = (keepLast 49 (messageLog s) ++ [(NoCardsToRemove, info)])%list).
Proof.
  intros s'; subst s'; split; [|split; [apply removeAllCards_control|]].
  - unfold removeAllCards.
    destruct (JsMap.size (detectedCards s) =? 0)%nat eqn:E; [|reflexivity].
    apply Nat.eqb_eq in E. rewrite logMessage_cards.
    unfold JsMap.size in E; destruct (detectedCards s); [reflexivity|discriminate].
  - unfold removeAllCards; split; intros Hsize.
    + apply Nat.eqb_neq in Hsize; rewrite Hsize.
      rewrite logMessage_last; reflexivity.
    + pose proof Hsize as E; apply Nat.eqb_eq in E; rewrite E.
      split; [reflexivity|apply logMessage_last].
Qed.

Lemma removeAll_postcondition_witness :
  let s := handleBackendResponse (Scenario.at_ 1000) Scenario.pikachuResponse
             Scenario.start in
  JsMap.size (detectedCards s) = 1%nat /\
  detectedCards (removeAllCards s) = JsMap.empty /\
  messageLog (removeAllCards s) =
    (keepLast 49 (messageLog s) ++ [(RemovedAll 1, info)])%list /\
  messageLog (removeAllCards (removeAllCards s)) =
    (keepLast 49 (messageLog (removeAllCards s)) ++ [(NoCardsToRemove, info)])%list.
Proof.
  intros s.
  destruct (removeAll_postcondition s) as [Hempty [_ [Hsome _]]].
  destruct (removeAll_postcondition (removeAllCards s)) as [_ [_ [_ Hnone]]].
  split; [reflexivity|]. split; [exact Hempty|]. split.
  - apply Hsome; discriminate.
  - apply Hnone; reflexivity.
Defined.

(* ===================================================================== *)
(** ** Overlay renderer *)
(* ===================================================================== *)

Section RenderPass.
Import Canvas OverlayOps.

Lemma emitAll_lineTo (pts : list Point) (c : Canvas.t) :
  emitAll (map (fun point => lineTo (fst point) (snd point)) pts) c =
  Canvas.mk (width c) (height c) (currentFont c) (metrics c)
    (trace c ++ map (fun point => lineTo (fst point) (snd point)) pts).
Proof.
  revert c; induction pts as [|p r IH]; intros c; simpl.
  - rewrite app_nil_r; destruct c; reflexivity.
  - unfold emitAll in *; simpl. rewrite IH; simpl.
    rewrite <- app_assoc; reflexivity.
Qed.

(** A detection with a non-empty polygon appends the polygon, the label and
    the badge, and leaves the badge font in the context. *)
Lemma drawDetection_polygon (d : Detection.t) (i : nat) (c : Canvas.t)
    (p : Point) (ps : list Point) :
  Detection.polygon d = Some (p :: ps) ->
  Overlay.drawDetection d i c =
  Canvas.mk (width c) (height c) "bold 16px Arial" (metrics c)
    (trace c ++ polygonOps p ps
       ++ labelOps (metrics c (currentFont c) (Overlay.cardName i d)) p
            (Overlay.cardName i d)
       ++ badgeOps p i).
Proof.
  intros Hp; unfold Overlay.drawDetection; rewrite Hp.
  destruct p as [x y]; unfold emit at 1 2; simpl.
  rewrite emitAll_lineTo; unfold emit; simpl.
  f_equal. unfold polygonOps, labelOps, badgeOps; simpl.
  repeat rewrite <- app_assoc; simpl. reflexivity.
Qed.

(** A detection without a polygon, or with an empty one, draws nothing. *)
Lemma drawDetection_no_polygon (d : Detection.t) (i : nat) (c : Canvas.t) :
  Detection.polygon d = None \/ Detection.polygon d = Some [] ->
  Overlay.drawDetection d i c = c.
Proof.
  intros [H|H]; unfold Overlay.drawDetection; rewrite H; reflexivity.
Qed.

Lemma forEachFrom_drawDetection (l : list Detection.t) (i : nat) (c : Canvas.t) :
  trace (forEachFrom i Overlay.drawDetection l c) =
  (trace c ++ passOps (metrics c) (currentFont c) i l)%list.
Proof.
  revert i c; induction l as [|d r IH]; intros i c.
  - simpl; rewrite app_nil_r; reflexivity.
  - cbn [forEachFrom passOps].
    destruct (Detection.polygon d) as [[|p ps]|] eqn:Hp.
    + rewrite (drawDetection_no_polygon d i c) by (right; exact Hp). apply IH.
    + rewrite (drawDetection_polygon d i c p ps Hp), IH.
      cbn [trace metrics currentFont].
      repeat rewrite <- app_assoc. reflexivity.
    + rewrite (drawDetection_no_polygon d i c) by (left; exact Hp). apply IH.
Qed.

(** The operations of a whole pass: the clear, then the detections in order. *)
Lemma renderPass_trace (detections : option (list Detection.t)) (c : Canvas.t) :
  trace (Overlay.renderPass detections c) =
  (trace c ++ clearRect 0 0 (inject_Z (width c)) (inject_Z (height c))
     :: passOps (metrics c) (currentFont c) 0 (listed detections))%list.
Proof.
  unfold Overlay.renderPass, clearAll.
  destruct detections as [[|d r]|]; try reflexivity.
  unfold forEach; rewrite forEachFrom_drawDetection; simpl.
  rewrite <- app_assoc; reflexivity.
Qed.

End RenderPass.

Lemma overlay_cardName_default (i : nat) (d : Detection.t) :
  OverlayOps.bestMatchOf d = None ->
  Overlay.cardName i d = "Card " ++ Js.showNat (i + 1).
Proof.
  unfold OverlayOps.bestMatchOf, Overlay.cardName.
  destruct (Detection.matches d) as [[|m r]|]; [reflexivity|discriminate|reflexivity].
Qed.

(** C8, as amended.  Every render pass first clears the whole drawing
    surface and then handles the detections in order: a detection with a
    non-empty polygon gets its filled translucent polygon, the stroked
    outline, a label background as wide as the measured label plus 20, the
    label text and a sequence-number badge anchored at the polygon's first
    vertex; a detection with no polygon or an empty one draws nothing; with
    no detections the pass only clears.  The label follows the overlay's own
    chain: the best match's trimmed name when present and not blank,
    otherwise its trimmed card identifier under the same condition,
    otherwise, and also when there is no match at all, "Card N" with N the
    sequence number. *)
Theorem overlay_render_contract (detections : option (list Detection.t)) (c : Canvas.t) :
  Canvas.trace (Overlay.renderPass detections c) =
    (Canvas.trace c
     ++ Canvas.clearRect 0 0 (inject_Z (Canvas.width c)) (inject_Z (Canvas.height c))
     :: OverlayOps.passOps (Canvas.metrics c) (Canvas.currentFont c) 0
          (OverlayOps.listed detections))%list /\
  (OverlayOps.listed detections = [] ->
   Canvas.trace (Overlay.renderPass detections c) =
     (Canvas.trace c
      ++ [Canvas.clearRect 0 0 (inject_Z (Canvas.width c)) (inject_Z (Canvas.height c))])%list) /\
  (forall d i c',
      Detection.polygon d = None \/ Detection.polygon d = Some [] ->
      Overlay.drawDetection d i c' = c') /\
  (forall d i c' p ps,
      Detection.polygon d = Some (p :: ps) ->
      Canvas.trace (Overlay.drawDetection d i c') =
        (Canvas.trace c' ++ OverlayOps.polygonOps p ps
         ++ OverlayOps.labelOps
              (Canvas.metrics c' (Canvas.currentFont c') (Overlay.cardName i d)) p
              (Overlay.cardName i d)
         ++ OverlayOps.badgeOps p i)%list) /\
  (forall d i m,
      OverlayOps.bestMatchOf d = Some m ->
      (forall v, usable (BestMatch.name m) v -> Overlay.cardName i d = Js.trim v) /\
      (unusable (BestMatch.name m) ->
       forall v, usable (BestMatch.card_id m) v -> Overlay.cardName i d = Js.trim v) /\
      (unusable (BestMatch.name m) -> unusable (BestMatch.card_id m) ->
       Overlay.cardName i d = "Card " ++ Js.showNat (i + 1))) /\
  (forall d i,
      OverlayOps.bestMatchOf d = None ->
      Overlay.cardName i d = "Card " ++ Js.showNat (i + 1)).
Proof.
  split; [apply renderPass_trace|].
  split; [intros Hl; rewrite renderPass_trace, Hl; reflexivity|].
  split; [intros d i c'; apply drawDetection_no_polygon|].
  split; [intros d i c' p ps Hp; rewrite (drawDetection_polygon d i c' p ps Hp);
          reflexivity|].
  split; [|intros d i; apply overlay_cardName_default].
  intros d i m Hm.
  assert (Overlay.cardName i d =
          match Js.nonBlank (BestMatch.name m) with
          | Some n => n
          | None => match Js.nonBlank (BestMatch.card_id m) with
                    | Some c0 => c0
                    | None => "Card " ++ Js.showNat (i + 1)
                    end
          end) as ->.
  { unfold OverlayOps.bestMatchOf in Hm; unfold Overlay.cardName.
    destruct (Detection.matches d) as [[|m' r]|]; try discriminate.
    injection Hm as ->; reflexivity. }
  repeat split.
  - intros v Hv; rewrite (nonBlank_usable _ _ Hv); reflexivity.
  - intros Hn v Hv.
    rewrite (nonBlank_unusable _ Hn), (nonBlank_usable _ _ Hv); reflexivity.
  - intros Hn Hc.
    rewrite (nonBlank_unusable _ Hn), (nonBlank_unusable _ Hc); reflexivity.
Qed.

Lemma overlay_render_contract_witness :
  let d := Detection.mk (Some Scenario.square) None (Some [Scenario.pikachu]) in
  Overlay.cardName 0 d = "Pikachu" /\
  Canvas.trace (Overlay.renderPass None (overlay Scenario.start)) =
    [Canvas.clearRect 0 0 300 150].
Proof.
  intros d.
  destruct (overlay_render_contract None (overlay Scenario.start))
    as [_ [Hclear [_ [_ [Hlabel _]]]]].
  split.
  - destruct (Hlabel d 0%nat Scenario.pikachu eq_refl) as [Hname _].
    apply (Hname "Pikachu"); split; [reflexivity|discriminate].
  - apply Hclear; reflexivity.
Defined.

(** C8 as stated fails: for a best match that only carries the set
    identifier "base1", the cache names the card "base1" while the render
    pass of the same response labels its polygon "Card 1". *)
Lemma overlay_label_counterexample :
  let d := Detection.mk (Some Scenario.square) None (Some [Scenario.setOnly]) in
  let s := run (Scenario.cameraOn ++
                Scenario.cycle 4 (Ok (Response.mk (Some 1) (Some [d])) (Scenario.at_ 1000))
                ++ [AnimationFrame])%list Scenario.start in
  map Card.name (JsMap.values (detectedCards s)) = ["base1"] /\
  textsDrawn (overlay s) = ["Card 1"; "1"] /\
  cardName Scenario.setOnly <> Overlay.cardName 0 d.
Proof.
  vm_compute; repeat split; discriminate.
Qed.

(** C10. A raw detection whose matches list is missing or empty is skipped
    by the backend-response path: processing it leaves the whole session,
    the cache included, exactly as it was, so no card (no "Unknown Card"
    either) is created for it; a response made only of such detections
    leaves cache and log unchanged.  The detections are nevertheless all
    handed to the overlay, where a non-empty polygon is drawn, labelled
    "Card N". *)
Theorem unmatched_detection_skipped
    (clk : HttpReadings) (d : Detection.t) (i : nat) (s : Session) :
  unmatchedDetection d ->
  addBackendDetection clk d i s = s /\
  (forall clock n ds,
      (forall d', In d' (d :: ds) -> unmatchedDetection d') ->
      let s' := handleBackendResponse clock (Response.mk n (Some (d :: ds))) s in
      detectedCards s' = detectedCards s /\
      messageLog s' = messageLog s /\
      rafQueue s' = (rafQueue s ++ [Some (d :: ds)])%list) /\
  (forall c p ps,
      Detection.polygon d = Some (p :: ps) ->
      Canvas.trace (Overlay.drawDetection d i c) =
        (Canvas.trace c ++ OverlayOps.polygonOps p ps
         ++ OverlayOps.labelOps
              (Canvas.metrics c (Canvas.currentFont c) ("Card " ++ Js.showNat (i + 1))) p
              ("Card " ++ Js.showNat (i + 1))
         ++ OverlayOps.badgeOps p i)%list).
Proof.
  intros Hd.
  assert (forall clk' d' i' s', unmatchedDetection d' ->
                                addBackendDetection clk' d' i' s' = s') as Hskip.
  { intros clk' d' i' s' [H|H]; unfold addBackendDetection; rewrite H; reflexivity. }
  split; [apply Hskip; exact Hd|]. split.
  - intros clock n ds Hall s'; subst s'.
    unfold handleBackendResponse; cbn [Response.detections].
    assert (forall l j s0, (forall d', In d' l -> unmatchedDetection d') ->
              forEachFrom j
                (fun detection index => addBackendDetection (clock index) detection index)
                l s0 = s0) as Hloop.
    { induction l as [|x l' IH]; intros j s0 Hl; simpl; [reflexivity|].
      rewrite Hskip by (apply Hl; left; reflexivity).
      apply IH; intros d' Hin; apply Hl; right; exact Hin. }
    unfold forEach; rewrite (Hloop _ _ _ Hall).
    repeat split; reflexivity.
  - intros c p ps Hp.
    rewrite (drawDetection_polygon d i c p ps Hp); cbn [Canvas.trace].
    rewrite overlay_cardName_default; [reflexivity|].
    unfold OverlayOps.bestMatchOf; destruct Hd as [H|H]; rewrite H; reflexivity.
Qed.

Lemma unmatched_detection_skipped_witness :
  addBackendDetection (Scenario.at_ 1000 0%nat) Scenario.unmatched 0 Scenario.start
    = Scenario.start /\
  textsDrawn (Overlay.drawDetection Scenario.unmatched 0 (overlay Scenario.start))
    = ["Card 1"; "1"].
Proof.
  destruct (unmatched_detection_skipped (Scenario.at_ 1000 0%nat) Scenario.unmatched
              0 Scenario.start (or_intror eq_refl)) as [Hskip [_ Hdraw]].
  split; [exact Hskip|].
  unfold textsDrawn.
  rewrite (Hdraw (overlay Scenario.start) (10, 20)%Q
             [(110, 20); (110, 160); (10, 160)]%Q eq_refl).
  reflexivity.
Defined.

(* ===================================================================== *)
(** ** Capture scheduler: single request in flight *)
(* ===================================================================== *)

Lemma control_flight s s' : control s' = control s -> flight s' = flight s.
Proof.
  intros H; apply control_fields in H; unfold flight.
  destruct H as (_ & _ & _ & -> & _ & _ & _ & _ & _ & _ & _ & ->); reflexivity.
Qed.

Lemma flight_fields s s' :
  flight s' = flight s -> isProcessing s' = isProcessing s /\ inflight s' = inflight s.
Proof. unfold flight; intros H; inversion H; split; reflexivity. Qed.

Lemma runCallback_flight cb s : flight (runCallback cb s) = flight s.
Proof.
  destruct cb; unfold runCallback; unfold_control; simpl;
    split_branches; reflexivity.
Qed.

(** Only the arrival of a blob and the completion of a request change the
    flag or the number of outstanding requests. *)
Lemma step_flight e s :
  (forall appendError, e <> BlobReady appendError) ->
  (forall outcome, e <> FetchCompletes outcome) ->
  flight (step e s) = flight s.
Proof.
  intros Hblob Hfetch.
  destruct e; simpl;
    try (exfalso; eapply Hblob; reflexivity);
    try (exfalso; eapply Hfetch; reflexivity).
  - destruct (lookupTimer id (timers s)) as [t|]; [|reflexivity].
    rewrite runCallback_flight; destruct (mode t); reflexivity.
  - reflexivity.
  - destruct (readyState sock s) as [[]|]; reflexivity.
  - destruct (readyState sock s) as [[]|]; try reflexivity;
      (destruct parsed as [[]|]; simpl; try reflexivity;
       apply control_flight, handleDetection_control).
  - destruct (readyState sock s) as [[]|]; reflexivity.
  - destruct (readyState sock s) as [[]|]; try reflexivity;
      (unfold onclose; unfold_control; simpl; split_branches; reflexivity).
  - reflexivity.
  - reflexivity.
  - unfold_control; simpl; split_branches; reflexivity.
  - unfold_control; simpl; split_branches; reflexivity.
  - unfold_control; simpl; split_branches; reflexivity.
  - reflexivity.
  - apply control_flight, toggleKeepCard_control.
  - apply control_flight, removeCard_control.
  - apply control_flight, removeAllCards_control.
  - destruct (negb hidden && negb (isConnected s))%bool; reflexivity.
  - unfold_control; simpl; split_branches; reflexivity.
  - unfold handleResize; destruct (_ && _)%bool; reflexivity.
  - split_answer outcome; reflexivity.
Qed.

(** However a request completes, the control state is the one before it
    with the in-flight flag cleared. *)
Lemma resumeProcessFrame_control o s :
  control (resumeProcessFrame o s) = control (set_isProcessing false s).
Proof.
  assert (forall data,
             control (match Response.num_detections data with
                      | Some n =>
                          if n >? 0 then logMessage (ReceivedDetections n) info s else s
                      | None => s
                      end) = control s) as Hreceived
      by (intros data; destruct (Response.num_detections data) as [n|];
          [destruct (n >? 0)|]; reflexivity).
  assert (forall x, control x = control s ->
                    control (set_isProcessing false x) = control (set_isProcessing false s))
    as Hflag.
  { intros x H; apply control_fields in H.
    destruct H as (H1 & H2 & H3 & H4 & H5 & H6 & H7 & H8 & H9 & H10 & H11 & H12).
    unfold control; simpl.
    rewrite H1, H2, H3, H5, H6, H7, H8, H9, H10, H11, H12; reflexivity. }
  destruct o as [n m|st body engine|data clock|data clock point n m];
    try reflexivity.
  - simpl; destruct (notOkError engine st body); reflexivity.
  - unfold resumeProcessFrame, finallyBlock.
    apply Hflag; rewrite handleBackendResponse_control; apply Hreceived.
  - unfold resumeProcessFrame.
    change (control (catchBlock ?a ?b ?x)) with (control (set_isProcessing false x)).
    apply Hflag; destruct point.
    + unfold forEach; rewrite (forEachFrom_view control);
        [apply Hreceived|intros; apply addBackendDetection_control].
    + rewrite handleBackendResponse_control; apply Hreceived.
Qed.

Lemma resumeProcessFrame_flight o s :
  flight (resumeProcessFrame o s) = (false, inflight s).
Proof.
  rewrite (control_flight _ _ (resumeProcessFrame_control o s)); reflexivity.
Qed.

Lemma step_singleInFlight e s : singleInFlight s -> singleInFlight (step e s).
Proof.
  unfold singleInFlight; intros [Hle Hidle].
  destruct e;
    match goal with
    | |- context [step (BlobReady _) _] => idtac
    | |- context [step (FetchCompletes _) _] => idtac
    | |- context [step ?e s] =>
        let Hf := fresh "Hf" in
        assert (flight (step e s) = flight s) as Hf
          by (apply step_flight; discriminate);
        apply flight_fields in Hf; destruct Hf as [-> ->]; tauto
    end.
  - (* a blob arrives *)
    simpl; destruct (pendingBlobs s) as [|n]; [tauto|].
    unfold processFrameWithBackend; simpl.
    destruct (isProcessing s) eqn:Hproc; simpl;
      [split; [exact Hle|rewrite Hproc; discriminate]|].
    destruct appendError; simpl; rewrite (Hidle eq_refl); split; auto; discriminate.
  - (* a request completes *)
    simpl; destruct (inflight s) as [|n] eqn:Hin; [rewrite Hin; tauto|].
    pose proof (resumeProcessFrame_flight outcome (set_inflight n s)) as Hr.
    unfold flight in Hr; simpl in Hr; injection Hr as Hp Hi.
    rewrite Hp, Hi; split; lia.
Qed.

Lemma init_singleInFlight page : singleInFlight (init page).
Proof. unfold singleInFlight; simpl; split; [lia|reflexivity]. Qed.

(** C3. Single-in-flight backpressure.  In every state reachable from the
    constructor's, whatever the capture rates chosen on the way, at most one
    recognition request is outstanding.  A tick of the capture interval
    that fires while the in-flight flag is set, or without a video stream,
    changes nothing: no delay timer, no capture, no request.  The same
    holds for the tick's 25 ms delay when it elapses in such a state (the
    delay timer is merely consumed), and a frame delivered while the flag is
    set issues no request. *)
Theorem single_in_flight_backpressure
    (page : Page) (events : list Event) :
  let s := run events (init page) in
  (inflight s <= 1)%nat /\
  (forall id d,
      lookupTimer id (timers s) = Some (mkTimer CaptureTick Interval d) ->
      isProcessing s = true \/ stream s = false ->
      step (TimerFires id) s = s) /\
  (forall id d,
      lookupTimer id (timers s) = Some (mkTimer CaptureDelay Timeout d) ->
      isProcessing s = true \/ stream s = false ->
      step (TimerFires id) s = clearTimer id s) /\
  (forall appendError,
      isProcessing s = true ->
      inflight (step (BlobReady appendError) s) = inflight s /\
      pendingBlobs (step (BlobReady appendError) s) = Nat.pred (pendingBlobs s)).
Proof.
  intros s.
  assert (singleInFlight s) as [Hle _].
  { apply run_invariant; [exact step_singleInFlight|apply init_singleInFlight]. }
  clearbody s.
  split; [exact Hle|]. split; [|split].
  - intros id d Ht Hbusy; simpl; rewrite Ht; simpl.
    destruct Hbusy as [-> | ->]; [rewrite andb_false_r|]; reflexivity.
  - intros id d Ht Hbusy; simpl; rewrite Ht; simpl.
    destruct Hbusy as [Hb | Hb]; [|rewrite Hb; reflexivity].
    rewrite Hb, andb_false_r; reflexivity.
  - intros e Hbusy; simpl.
    destruct (pendingBlobs s) as [|n] eqn:Hpb; [rewrite Hpb; split; reflexivity|].
    unfold processFrameWithBackend; simpl; rewrite Hbusy; split; reflexivity.
Qed.

Lemma single_in_flight_backpressure_witness :
  let s := run (Scenario.cameraOn ++ [TimerFires 3; TimerFires 4; BlobReady None])%list
             Scenario.start in
  isProcessing s = true /\ inflight s = 1%nat /\
  step (TimerFires 3) s = s /\
  inflight (step (BlobReady None) s) = inflight s.
Proof.
  intros s.
  destruct (single_in_flight_backpressure Scenario.page
              (Scenario.cameraOn ++ [TimerFires 3; TimerFires 4; BlobReady None])%list)
    as [_ [Htick [_ Hblob]]].
  split; [reflexivity|]. split; [reflexivity|]. split.
  - apply (Htick 3%nat (1000 # 2)%Q); [reflexivity|left; reflexivity].
  - apply (Hblob None); reflexivity.
Defined.

(* ===================================================================== *)
(** ** Recognition client: how a cycle ends *)
(* ===================================================================== *)

Lemma catchBlock_log name message s :
  messageLog (catchBlock name message s) =
  (keepLast 48 (keepLast 49 (messageLog s))
   ++ [(BackendProcessingError message, error); (ErrorType name, error)])%list.
Proof.
  unfold catchBlock, finallyBlock; simpl.
  rewrite (keepLast_snoc 49 (messageLog s)).
  rewrite (keepLast_snoc 49), (keepLast_snoc 48), <- app_assoc; reflexivity.
Qed.

(** The error of a non-success response, by the shape of its body. *)
Lemma notOkError_cases (engine : Js.Engine) (status : Z) (body : option Json.t) :
  (body = None -> notOkError engine status body = ("Error", "HTTP " ++ Js.showZ status)) /\
  (body = Some Json.Null ->
   notOkError engine status body = ("TypeError", Js.readOfNull engine "detail")) /\
  (forall v,
      body = Some v -> v <> Json.Null ->
      Json.get "detail" v = None \/
      (exists detail, Json.get "detail" v = Some detail /\ Json.truthy detail = false) ->
      notOkError engine status body = ("Error", "HTTP " ++ Js.showZ status)) /\
  (forall v detail,
      body = Some v -> Json.get "detail" v = Some detail -> Json.truthy detail = true ->
      notOkError engine status body =
        match Json.toString detail with
        | Some message => ("Error", message)
        | None => ("TypeError", Js.noPrimitive engine)
        end).
Proof.
  split; [intros ->; reflexivity|]. split; [intros ->; reflexivity|]. split.
  - intros v -> Hv [Hget | [detail [Hget Hfalsy]]];
      unfold notOkError, errorData; destruct v; try contradiction;
      rewrite Hget; unfold Json.orElse; try rewrite Hfalsy; reflexivity.
  - intros v detail -> Hget Htruthy.
    unfold notOkError, errorData; destruct v; try discriminate.
    rewrite Hget; unfold Json.orElse; rewrite Htruthy; reflexivity.
Qed.

(** C7, as amended.  Whenever an outstanding recognition request completes,
    by success, by a non-success status or by a thrown error, the in-flight
    flag is cleared and the completion itself issues nothing: no request,
    no capture, no timer.  An error thrown before the response is handled
    and a non-success status leave the cache as it is and are logged,
    message first, then error type; an error thrown while a success response
    is handled is logged in the same way, behind whatever the handling
    logged before it.  On a non-success status the error body is read as
    JSON, an unreadable body counting as an empty object; the message is the
    string conversion of the body's [detail] field when that field is
    truthy, else the text "HTTP " followed by the numeric status code, in an
    error of type [Error]; a body that is [null], or a [detail] that cannot
    be converted to a string, raises the engine's [TypeError] instead, which
    is caught and logged like any other.  The next tick of the capture
    interval then schedules its capture delay as usual. *)
Theorem recognition_failure_handling (s : Session) (n : nat) (outcome : FetchOutcome) :
  inflight s = S n ->
  let s' := step (FetchCompletes outcome) s in
  isProcessing s' = false /\
  inflight s' = n /\
  pendingBlobs s' = pendingBlobs s /\
  timers s' = timers s /\
  (forall name message,
      outcome = Rejects name message ->
      detectedCards s' = detectedCards s /\
      messageLog s' =
        (keepLast 48 (keepLast 49 (messageLog s))
         ++ [(BackendProcessingError message, error); (ErrorType name, error)])%list) /\
  (forall status body engine,
      outcome = NotOk status body engine ->
      detectedCards s' = detectedCards s /\
      messageLog s' =
        (keepLast 48 (keepLast 49 (messageLog s))
         ++ [(BackendProcessingError (snd (notOkError engine status body)), error);
             (ErrorType (fst (notOkError engine status body)), error)])%list /\
      (body = None \/
       (exists v, body = Some v /\ v <> Json.Null /\
                  (Json.get "detail" v = None \/
                   exists detail, Json.get "detail" v = Some detail /\
                                  Json.truthy detail = false)) ->
       notOkError engine status body = ("Error", "HTTP " ++ Js.showZ status)) /\
      (forall v detail message,
          body = Some v -> Json.get "detail" v = Some detail ->
          Json.truthy detail = true -> Json.toString detail = Some message ->
          notOkError engine status body = ("Error", message)) /\
      (forall v text,
          body = Some v -> Json.get "detail" v = Some (Json.Str text) -> text <> "" ->
          notOkError engine status body = ("Error", text)) /\
      (body = Some Json.Null ->
       notOkError engine status body = ("TypeError", Js.readOfNull engine "detail")) /\
      (forall v detail,
          body = Some v -> Json.get "detail" v = Some detail ->
          Json.truthy detail = true -> Json.toString detail = None ->
          notOkError engine status body = ("TypeError", Js.noPrimitive engine))) /\
  (forall data clock point name message,
      outcome = OkThrows data clock point name message ->
      exists older,
        messageLog s' =
          (older ++ [(BackendProcessingError message, error);
                     (ErrorType name, error)])%list) /\
  (forall id d,
      lookupTimer id (timers s') = Some (mkTimer CaptureTick Interval d) ->
      stream s' = true ->
      timers (step (TimerFires id) s') =
        (timers s' ++ [(nextTimer s', mkTimer CaptureDelay Timeout 25)])%list).
Proof.
  intros Hin s'; subst s'; simpl; rewrite Hin.
  pose proof (resumeProcessFrame_control outcome (set_inflight n s)) as Hc.
  apply control_fields in Hc; simpl in Hc.
  destruct Hc as (_ & _ & _ & Hproc & _ & _ & _ & Htimers & _ & _ & Hblobs & Hfl).
  split; [exact Hproc|]. split; [exact Hfl|].
  split; [exact Hblobs|]. split; [exact Htimers|].
  split; [|split; [|split]].
  - intros name message ->; split; [reflexivity|].
    unfold resumeProcessFrame; rewrite catchBlock_log; reflexivity.
  - intros status body engine ->.
    destruct (notOkError_cases engine status body) as (Hnone & Hnull & Hfalsy & Htruthy).
    split; [|split; [|split; [|split; [|split; [|split]]]]].
    + unfold resumeProcessFrame; destruct (notOkError engine status body); reflexivity.
    + unfold resumeProcessFrame; destruct (notOkError engine status body) as [nm msg].
      rewrite catchBlock_log; reflexivity.
    + intros [E | [v [E [Hv Hd]]]]; [exact (Hnone E)|exact (Hfalsy v E Hv Hd)].
    + intros v detail message E Hget Ht Hs.
      rewrite (Htruthy v detail E Hget Ht), Hs; reflexivity.
    + intros v text E Hget Htext.
      rewrite (Htruthy v (Json.Str text) E Hget); [reflexivity|].
      destruct text; [contradiction|reflexivity].
    + exact Hnull.
    + intros v detail E Hget Ht Hs.
      rewrite (Htruthy v detail E Hget Ht), Hs; reflexivity.
  - intros data clock point name message ->.
    unfold resumeProcessFrame; rewrite catchBlock_log.
    eexists; reflexivity.
  - intros id d Ht Hs; rewrite Ht; simpl; rewrite Hs, Hproc; reflexivity.
Qed.

Lemma recognition_failure_handling_witness :
  let s := run (Scenario.cameraOn ++ [TimerFires 3; TimerFires 4; BlobReady None])%list
             Scenario.start in
  let s' := step (FetchCompletes (NotOk 422 (Some Scenario.validationError) Scenario.v8)) s in
  isProcessing s = true /\ isProcessing s' = false /\ inflight s' = 0%nat /\
  notOkError Scenario.v8 422 (Some Scenario.validationError)
    = ("Error", "[object Object]") /\
  timers (step (TimerFires 3) s') =
    (timers s' ++ [(nextTimer s', mkTimer CaptureDelay Timeout 25)])%list.
Proof.
  intros s s'.
  destruct (recognition_failure_handling s 0
              (NotOk 422 (Some Scenario.validationError) Scenario.v8) eq_refl)
    as [Hflag [Hfl [_ [_ [_ [Hnot [_ Htick]]]]]]].
  destruct (Hnot 422 (Some Scenario.validationError) Scenario.v8 eq_refl)
    as (_ & _ & _ & Hmessage & _).
  split; [reflexivity|]. split; [exact Hflag|]. split; [exact Hfl|].
  split.
  - apply (Hmessage Scenario.validationError
             (Json.Arr [Json.Obj [("loc", Json.Arr [Json.Str "query"; Json.Str "conf"]);
                                  ("msg", Json.Str "value is not a valid float")]]));
      reflexivity.
  - apply (Htick 3%nat (1000 # 2)%Q); reflexivity.
Defined.

(** C7 as stated fails on the error message.  With no readable error body
    the message of a status 500 is "HTTP 500", not the numeric status code,
    and an error body whose [detail] is present but empty is not used
    either.  A body that is [null] raises a [TypeError] whose message is
    neither, and a [detail] that is a list of objects gives the string
    conversion of the list, not a field of the body. *)
Lemma error_message_counterexample :
  notOkError Scenario.v8 500 None = ("Error", "HTTP 500") /\
  "HTTP 500" <> Js.showZ 500 /\
  notOkError Scenario.v8 500 (Some (Json.Obj [("detail", Json.Str "")]))
    = ("Error", "HTTP 500") /\
  notOkError Scenario.v8 500 (Some Json.Null)
    = ("TypeError", "Cannot read properties of null (reading 'detail')") /\
  notOkError Scenario.v8 422 (Some Scenario.validationError)
    = ("Error", "[object Object]").
Proof.
  vm_compute; repeat split; discriminate.
Qed.

(* ===================================================================== *)
(** ** Timers and their handles *)
(* ===================================================================== *)

Section TimerBookkeeping.

Lemma timerView_fields s s' :
  timerView s' = timerView s ->
  timers s' = timers s /\ nextTimer s' = nextTimer s /\
  forall cb, handleOf cb s' = handleOf cb s.
Proof.
  unfold timerView; intros H; inversion H as [[Ht Hn Hp Hh Hb]].
  repeat split; destruct cb; simpl; congruence.
Qed.

Lemma ok_frame s s' : timerView s' = timerView s -> timersOk s -> timersOk s'.
Proof.
  intros Hv [H1 H2 H3 H4]; apply timerView_fields in Hv.
  destruct Hv as (Ht & Hn & Hh).
  constructor; rewrite ?Ht, ?Hn; intros.
  - eapply H1; eassumption.
  - rewrite Hh in *; eapply H2; eassumption.
  - rewrite Hh in *; eapply H3; eassumption.
  - rewrite Hh; eapply H4; eassumption.
Qed.

Lemma control_timerView s s' : control s' = control s -> timerView s' = timerView s.
Proof.
  intros H; apply control_fields in H; unfold timerView.
  destruct H as (_ & _ & _ & _ & -> & -> & -> & -> & -> & _); reflexivity.
Qed.

Lemma In_clearTimer id x s : In x (timers (clearTimer id s)) -> In x (timers s).
Proof. unfold clearTimer; simpl; intros H; apply filter_In in H; tauto. Qed.

Lemma In_clearTimer_ne id i t s :
  In (i, t) (timers (clearTimer id s)) -> i <> id.
Proof.
  unfold clearTimer; simpl; intros H; apply filter_In in H; simpl in H.
  destruct H as [_ H]; apply negb_true_iff, Nat.eqb_neq in H; exact H.
Qed.

Lemma ok_clearTimer id s : timersOk s -> timersOk (clearTimer id s).
Proof.
  intros [H1 H2 H3 H4]; constructor; intros.
  - apply (H1 id0 t); eapply In_clearTimer; eassumption.
  - apply (H2 cb); assumption.
  - apply (H3 cb id0 t); [assumption|eapply In_clearTimer; eassumption].
  - apply (H4 id0 t); [eapply In_clearTimer; eassumption|assumption].
Qed.

(** A timer that no handle will remember. *)
Lemma ok_startTimer_plain cb m d s :
  cb <> CaptureTick -> cb <> HealthCheck ->
  timersOk s -> timersOk (snd (startTimer (mkTimer cb m d) s)).
Proof.
  intros Hc Hh [H1 H2 H3 H4]; constructor; simpl; intros.
  - apply in_app_or in H; destruct H as [H|[H|[]]].
    + apply H1 in H; lia.
    + inversion H; lia.
  - apply (H2 cb0) in H; lia.
  - apply in_app_or in H0; destruct H0 as [H0|[H0|[]]].
    + apply (H3 cb0 id t); assumption.
    + inversion H0; subst. apply (H2 cb0) in H. lia.
  - apply in_app_or in H; destruct H as [H|[H|[]]].
    + apply (H4 id t); assumption.
    + inversion H; subst; simpl in *. destruct H0; contradiction.
Qed.

Lemma ok_logMessage m lv s : timersOk s -> timersOk (logMessage m lv s).
Proof. apply ok_frame; reflexivity. Qed.

Lemma ok_startHeartbeat s : timersOk s -> timersOk (startHeartbeat s).
Proof.
  intros [H1 H2 H3 H4]; constructor; unfold startHeartbeat; simpl; intros.
  - apply in_app_or in H; destruct H as [H|[H|[]]].
    + apply H1 in H; lia.
    + inversion H; lia.
  - destruct cb; simpl in *; try discriminate.
    + apply (H2 CaptureTick) in H; lia.
    + apply (H2 HealthCheck) in H; lia.
    + inversion H; lia.
  - apply in_app_or in H0; destruct H0 as [H0|[H0|[]]].
    + destruct cb; simpl in *; try discriminate.
      * apply (H3 CaptureTick id t); assumption.
      * apply (H3 HealthCheck id t); assumption.
      * inversion H; subst. apply H1 in H0; lia.
    + inversion H0; subst; simpl.
      destruct cb; simpl in *; try discriminate; try reflexivity.
      * apply (H2 CaptureTick) in H; lia.
      * apply (H2 HealthCheck) in H; lia.
  - apply in_app_or in H; destruct H as [H|[H|[]]].
    + pose proof (H4 id t H H0) as Hh.
      destruct H0 as [E|E]; rewrite E in *; exact Hh.
    + inversion H; subst; simpl in *. destruct H0; discriminate.
Qed.

Lemma ok_stopHeartbeat s : timersOk s -> timersOk (stopHeartbeat s).
Proof.
  intros Hok; unfold stopHeartbeat.
  destruct (heartbeatInterval s) as [id|] eqn:Hh; [|exact Hok].
  apply (ok_clearTimer id) in Hok; destruct Hok as [H1 H2 H3 H4].
  constructor; simpl; intros.
  - apply (H1 id0 t); assumption.
  - destruct cb; simpl in *; try discriminate;
      [apply (H2 CaptureTick)|apply (H2 HealthCheck)]; assumption.
  - destruct cb; simpl in *; try discriminate;
      [apply (H3 CaptureTick id0 t)|apply (H3 HealthCheck id0 t)]; assumption.
  - pose proof (H4 id0 t H H0) as Hx.
    destruct H0 as [E|E]; rewrite E in *; exact Hx.
Qed.

Lemma ok_stopPeriodicProcessing s : timersOk s -> timersOk (stopPeriodicProcessing s).
Proof.
  intros Hok; unfold stopPeriodicProcessing.
  destruct (processingInterval s) as [id|] eqn:Hh; [|exact Hok].
  apply ok_logMessage.
  pose proof Hok as [_ _ _ T4].
  pose proof (ok_clearTimer id s Hok) as [H1 H2 H3 H4].
  constructor; simpl; intros.
  - apply (H1 id0 t); assumption.
  - destruct cb; simpl in *; try discriminate;
      [apply (H2 HealthCheck)|apply (H2 Heartbeat)]; assumption.
  - destruct cb; simpl in *; try discriminate;
      [apply (H3 HealthCheck id0 t)|apply (H3 Heartbeat id0 t)]; assumption.
  - destruct H0 as [E|E]; rewrite E.
    + exfalso. pose proof (In_clearTimer_ne _ _ _ _ H) as Hne.
      apply In_clearTimer in H.
      pose proof (T4 id0 t H (or_introl E)) as Hx; rewrite E in Hx; simpl in Hx.
      congruence.
    + pose proof (H4 id0 t H (or_intror E)) as Hx; rewrite E in Hx; exact Hx.
Qed.

Lemma ok_stopBackendHealthCheck s : timersOk s -> timersOk (stopBackendHealthCheck s).
Proof.
  intros Hok; unfold stopBackendHealthCheck.
  destruct (healthCheckInterval s) as [id|] eqn:Hh; [|exact Hok].
  pose proof Hok as [_ _ _ T4].
  pose proof (ok_clearTimer id s Hok) as [H1 H2 H3 H4].
  constructor; simpl; intros.
  - apply (H1 id0 t); assumption.
  - destruct cb; simpl in *; try discriminate;
      [apply (H2 CaptureTick)|apply (H2 Heartbeat)]; assumption.
  - destruct cb; simpl in *; try discriminate;
      [apply (H3 CaptureTick id0 t)|apply (H3 Heartbeat id0 t)]; assumption.
  - destruct H0 as [E|E]; rewrite E.
    + pose proof (H4 id0 t H (or_introl E)) as Hx; rewrite E in Hx; exact Hx.
    + exfalso. pose proof (In_clearTimer_ne _ _ _ _ H) as Hne.
      apply In_clearTimer in H.
      pose proof (T4 id0 t H (or_intror E)) as Hx; rewrite E in Hx; simpl in Hx.
      congruence.
Qed.

End TimerBookkeeping.

Section TimerInvariant.

Lemma ok_startPeriodicProcessing s : timersOk s -> timersOk (startPeriodicProcessing s).
Proof.
  intros Hok; unfold startPeriodicProcessing.
  destruct (stream s); simpl; [|exact Hok].
  set (s1 := match processingInterval s with
             | Some id => clearTimer id s
             | None => s
             end).
  assert (timersOk s1) as Hok1
      by (subst s1; destruct (processingInterval s); [apply ok_clearTimer|]; exact Hok).
  assert (forall id t, In (id, t) (timers s1) -> callback t <> CaptureTick) as Hnone.
  { intros id t Hin E. pose proof Hok as [_ _ _ T4]. subst s1.
    destruct (processingInterval s) as [old|] eqn:Hh.
    - pose proof (In_clearTimer_ne _ _ _ _ Hin) as Hne.
      apply In_clearTimer in Hin.
      pose proof (T4 id t Hin (or_introl E)) as Hx; rewrite E in Hx; simpl in Hx.
      congruence.
    - pose proof (T4 id t Hin (or_introl E)) as Hx; rewrite E in Hx; simpl in Hx.
      congruence. }
  assert (healthCheckInterval s1 = healthCheckInterval s /\
          heartbeatInterval s1 = heartbeatInterval s) as [Hhc Hhb]
      by (subst s1; destruct (processingInterval s); split; reflexivity).
  clearbody s1. destruct Hok1 as [H1 H2 H3 H4].
  constructor; simpl; intros.
  - apply in_app_or in H; destruct H as [H|[H|[]]].
    + apply H1 in H; lia.
    + inversion H; lia.
  - destruct cb; simpl in *; try discriminate.
    + inversion H; lia.
    + apply (H2 HealthCheck) in H; lia.
    + apply (H2 Heartbeat) in H; lia.
  - apply in_app_or in H0; destruct H0 as [H0|[H0|[]]].
    + destruct cb; simpl in *; try discriminate.
      * inversion H; subst. apply H1 in H0; lia.
      * apply (H3 HealthCheck id t); assumption.
      * apply (H3 Heartbeat id t); assumption.
    + inversion H0; subst; simpl.
      destruct cb; simpl in *; try discriminate; try reflexivity.
      * apply (H2 HealthCheck) in H; lia.
      * apply (H2 Heartbeat) in H; lia.
  - apply in_app_or in H; destruct H as [H|[H|[]]].
    + destruct H0 as [E|E].
      * exfalso; exact (Hnone id t H E).
      * pose proof (H4 id t H (or_intror E)) as Hx; rewrite E in *; exact Hx.
    + inversion H; subst; reflexivity.
Qed.

Lemma ok_clearOverlay s : timersOk s -> timersOk (clearOverlay s).
Proof. apply ok_frame; reflexivity. Qed.

Lemma ok_stopCamera s : timersOk s -> timersOk (stopCamera s).
Proof.
  intros Hok; unfold stopCamera; destruct (stream s); [|exact Hok].
  apply ok_logMessage, ok_stopPeriodicProcessing, ok_clearOverlay.
  revert Hok; apply ok_frame; reflexivity.
Qed.

Lemma ok_updateProcessingSpeed fps s : timersOk s -> timersOk (updateProcessingSpeed fps s).
Proof.
  intros Hok; unfold updateProcessingSpeed; apply ok_logMessage.
  assert (timersOk (set_processingSpeed fps s)) as Hok'
      by (revert Hok; apply ok_frame; reflexivity).
  simpl; destruct (processingInterval s); [|exact Hok'].
  apply ok_startPeriodicProcessing; exact Hok'.
Qed.

Lemma ok_connectWebSocket s : timersOk s -> timersOk (connectWebSocket s).
Proof. apply ok_frame; reflexivity. Qed.

Lemma ok_setReadyState sock st s : timersOk s -> timersOk (setReadyState sock st s).
Proof. apply ok_frame; reflexivity. Qed.

Lemma ok_onopen s : timersOk s -> timersOk (onopen s).
Proof.
  intros Hok; unfold onopen; apply ok_startHeartbeat, ok_logMessage.
  revert Hok; apply ok_frame; reflexivity.
Qed.

Lemma ok_onclose s : timersOk s -> timersOk (onclose s).
Proof.
  intros Hok; unfold onclose.
  apply ok_startTimer_plain; try discriminate.
  apply ok_stopHeartbeat, ok_logMessage.
  revert Hok; apply ok_frame; reflexivity.
Qed.

Lemma ok_closeSocket sock s : timersOk s -> timersOk (closeSocket sock s).
Proof.
  intros Hok; unfold closeSocket.
  destruct (readyState sock s) as [[]|]; try exact Hok;
    apply ok_setReadyState; exact Hok.
Qed.

Lemma ok_cleanup s : timersOk s -> timersOk (cleanup s).
Proof.
  intros Hok; unfold cleanup.
  pose proof (ok_stopHeartbeat _
                (ok_stopBackendHealthCheck _ (ok_stopPeriodicProcessing _ Hok))) as H.
  set (s1 := stopHeartbeat (stopBackendHealthCheck (stopPeriodicProcessing s))) in *.
  clearbody s1.
  assert (timersOk (match ws s1 with
                    | Some sock => closeSocket sock s1
                    | None => s1
                    end)) as H'
      by (destruct (ws s1); [apply ok_closeSocket|]; exact H).
  destruct (stream _); [apply ok_stopCamera|]; exact H'.
Qed.

Lemma ok_runCallback cb s : timersOk s -> timersOk (runCallback cb s).
Proof.
  intros Hok; destruct cb; simpl; try exact Hok.
  - destruct (stream s && negb (isProcessing s))%bool; [|exact Hok].
    apply ok_startTimer_plain; try discriminate; exact Hok.
  - destruct (stream s && negb (isProcessing s))%bool; [|exact Hok].
    unfold captureFrame; destruct (negb (stream s));
      [apply ok_logMessage; exact Hok|revert Hok; apply ok_frame; reflexivity].
  - unfold heartbeatCallback.
    destruct (ws s) as [sock|]; [|exact Hok].
    destruct (readyState sock s) as [[]|]; try exact Hok.
    revert Hok; apply ok_frame; reflexivity.
  - unfold reconnectCallback; destruct (negb (isConnected s)); [|exact Hok].
    apply ok_connectWebSocket, ok_logMessage; exact Hok.
  - apply ok_logMessage; exact Hok.
Qed.

Lemma processFrameWithBackend_timerView e s :
  timerView (processFrameWithBackend e s) = timerView s.
Proof.
  unfold processFrameWithBackend; destruct (isProcessing s); [reflexivity|].
  destruct e; reflexivity.
Qed.

(** Every turn of the event loop keeps the bookkeeping of timers intact. *)
Lemma step_timersOk e s : timersOk s -> timersOk (step e s).
Proof.
  intros Hok; destruct e; simpl.
  - destruct (lookupTimer id (timers s)) as [t|]; [|exact Hok].
    apply ok_runCallback; destruct (mode t); [exact Hok|apply ok_clearTimer; exact Hok].
  - destruct (pendingBlobs s); [exact Hok|].
    eapply ok_frame; [apply processFrameWithBackend_timerView|].
    revert Hok; apply ok_frame; reflexivity.
  - destruct (inflight s); [exact Hok|].
    eapply ok_frame;
      [apply control_timerView, resumeProcessFrame_control|].
    revert Hok; apply ok_frame; reflexivity.
  - revert Hok; apply ok_frame; reflexivity.
  - destruct (readyState sock s) as [[]|]; try exact Hok.
    apply ok_onopen, ok_setReadyState; exact Hok.
  - destruct (readyState sock s) as [[]|]; try exact Hok;
      (destruct parsed as [[]|]; simpl; try exact Hok;
       try (apply ok_logMessage; exact Hok);
       eapply ok_frame; [apply control_timerView, handleDetection_control|exact Hok]).
  - destruct (readyState sock s) as [[]|]; try exact Hok;
      apply ok_logMessage; exact Hok.
  - destruct (readyState sock s) as [[]|]; try exact Hok;
      apply ok_onclose, ok_setReadyState; exact Hok.
  - revert Hok; apply ok_frame; reflexivity.
  - apply ok_logMessage; exact Hok.
  - apply ok_startPeriodicProcessing; repeat apply ok_logMessage.
    revert Hok; apply ok_frame; reflexivity.
  - unfold toggleCamera, startCamera.
    destruct (stream s) eqn:Hs; [|exact Hok].
    apply ok_stopCamera; exact Hok.
  - apply ok_updateProcessingSpeed; exact Hok.
  - apply ok_logMessage; revert Hok; apply ok_frame; reflexivity.
  - eapply ok_frame; [apply control_timerView, toggleKeepCard_control|exact Hok].
  - eapply ok_frame; [apply control_timerView, removeCard_control|exact Hok].
  - eapply ok_frame; [apply control_timerView, removeAllCards_control|exact Hok].
  - destruct (negb hidden && negb (isConnected s))%bool; [|exact Hok].
    apply ok_connectWebSocket; exact Hok.
  - apply ok_cleanup; exact Hok.
  - unfold handleResize; destruct (_ && _)%bool; [apply ok_logMessage|]; exact Hok.
  - split_answer outcome; repeat apply ok_logMessage; exact Hok.
Qed.

Lemma init_timersOk page : timersOk (init page).
Proof.
  constructor; simpl; intros.
  - destruct H as [H|[H|[]]]; inversion H; lia.
  - destruct cb; simpl in *; try discriminate; inversion H; lia.
  - destruct cb; simpl in *; try discriminate.
    inversion H; subst.
    destruct H0 as [H0|[H0|[]]]; inversion H0; reflexivity.
  - destruct H as [H|[H|[]]]; inversion H; subst; simpl in *;
      [reflexivity|destruct H0; discriminate].
Qed.

Lemma reachable_timersOk page events :
  timersOk (run events (init page)).
Proof. apply run_invariant; [exact step_timersOk|apply init_timersOk]. Qed.

End TimerInvariant.

(* ===================================================================== *)
(** ** Notification channel: reconnect timers *)
(* ===================================================================== *)

Lemma filter_filter {A : Type} (p q : A -> bool) (l : list A) :
  filter p (filter q l) = filter (fun x => (q x && p x)%bool) l.
Proof.
  induction l as [|x r IH]; simpl; [reflexivity|].
  destruct (q x); simpl; [destruct (p x); simpl; rewrite IH|rewrite IH]; reflexivity.
Qed.

Lemma filter_same_on {A : Type} (p q : A -> bool) (l : list A) :
  (forall x, In x l -> p x = q x) -> filter p l = filter q l.
Proof.
  induction l as [|x r IH]; simpl; intros H; [reflexivity|].
  rewrite (H x (or_introl eq_refl)), IH; [reflexivity|].
  intros y Hy; apply H; right; exact Hy.
Qed.

Lemma callbackIs_true cb t : callbackIs cb t = true <-> callback t = cb.
Proof.
  unfold callbackIs; destruct cb, (callback t); split; intros H;
    try reflexivity; discriminate.
Qed.

(** Cancelling the timer a handle points to never removes a timer of
    another callback. *)
Lemma pending_clear_handle cb' cb id s :
  timersOk s -> handleOf cb' s = Some id -> cb <> cb' ->
  pending cb (clearTimer id s) = pending cb s.
Proof.
  intros [_ _ H3 _] Hh Hne; unfold pending, clearTimer; simpl.
  rewrite filter_filter; apply filter_same_on.
  intros [i t] Hin; simpl.
  destruct (i =? id)%nat eqn:E; simpl; [|reflexivity].
  apply Nat.eqb_eq in E; subst i.
  pose proof (H3 cb' id t Hh Hin) as Hcb.
  destruct (callbackIs cb t) eqn:Hc; [|reflexivity].
  apply callbackIs_true in Hc; congruence.
Qed.

Lemma pending_stopHeartbeat cb s :
  timersOk s -> cb <> Heartbeat -> pending cb (stopHeartbeat s) = pending cb s.
Proof.
  intros Hok Hne; unfold stopHeartbeat.
  destruct (heartbeatInterval s) as [id|] eqn:Hh; [|reflexivity].
  change (pending cb (clearTimer id s) = pending cb s).
  apply (pending_clear_handle Heartbeat); assumption.
Qed.

(** C5, as amended.  In every reachable state, the close event of a socket
    schedules exactly one reconnect timer, with the fixed delay of 3000 ms,
    on top of those already pending: pending reconnect timers are not
    limited to one.  An error event schedules none by itself.  When a
    reconnect timer fires it opens a new socket only if the channel is still
    disconnected. *)
Theorem reconnect_scheduling
    (page : Page) (events : list Event) (sock : nat) :
  let s := run events (init page) in
  notClosed sock s ->
  pending Reconnect (step (SocketCloses sock) s) =
    (pending Reconnect s ++ [(nextTimer s, mkTimer Reconnect Timeout 3000)])%list /\
  isConnected (step (SocketCloses sock) s) = false /\
  (forall message, timers (step (SocketErrors sock message) s) = timers s) /\
  (forall id,
      lookupTimer id (timers s) = Some (mkTimer Reconnect Timeout 3000) ->
      (isConnected s = true -> sockets (step (TimerFires id) s) = sockets s) /\
      (isConnected s = false ->
       sockets (step (TimerFires id) s) = (sockets s ++ [CONNECTING])%list)).
Proof.
  intros s Hopen.
  pose proof (reachable_timersOk page events) as Hok.
  fold s in Hok; clearbody s.
  assert (step (SocketCloses sock) s = onclose (setReadyState sock CLOSED s)) as ->
      by (simpl; destruct Hopen as [-> | [-> | ->]]; reflexivity).
  assert (forall message, step (SocketErrors sock message) s = onerror message s) as Herr
      by (intros; simpl; destruct Hopen as [-> | [-> | ->]]; reflexivity).
  split; [|split; [|split]].
  - unfold onclose, startTimer, pending; simpl.
    rewrite filter_app; simpl. f_equal.
    + set (s1 := logMessage DisconnectedFromServer info
                   (set_isConnected false (setReadyState sock CLOSED s))).
      assert (timersOk s1) as Hok1 by (revert Hok; apply ok_frame; reflexivity).
      change (pending Reconnect (stopHeartbeat s1) = pending Reconnect s1).
      apply pending_stopHeartbeat; [exact Hok1|discriminate].
    + unfold stopHeartbeat; simpl; destruct (heartbeatInterval s); reflexivity.
  - unfold onclose, startTimer, stopHeartbeat; simpl.
    destruct (heartbeatInterval s); reflexivity.
  - intros message; rewrite Herr; reflexivity.
  - intros id Ht; simpl; rewrite Ht; simpl; unfold reconnectCallback; simpl.
    split; intros ->; reflexivity.
Qed.

Lemma reconnect_scheduling_witness :
  let s := run [SocketOpens 0] Scenario.start in
  pending Reconnect s = [] /\
  pending Reconnect (step (SocketCloses 0) s) = [(4%nat, mkTimer Reconnect Timeout 3000)] /\
  timers (step (SocketErrors 0 None) s) = timers s.
Proof.
  intros s.
  destruct (reconnect_scheduling Scenario.page
              [SocketOpens 0] 0 (or_intror (or_introl eq_refl)))
    as [Hclose [_ [Herr _]]].
  split; [reflexivity|]. split; [exact Hclose|exact (Herr None)].
Defined.

(** C5 as stated fails: the first socket closes and its reconnect timer is
    pending; the page becomes visible again, which opens a second socket;
    that socket closes too before the timer has fired.  Two reconnect timers
    are now pending at once.  And an error event on a socket schedules no
    reconnect at all. *)
Lemma reconnect_idempotence_counterexample :
  let s1 := run [SocketCloses 0] Scenario.start in
  let s2 := run [VisibilityChange false; SocketCloses 1] s1 in
  length (pending Reconnect s1) = 1%nat /\
  length (pending Reconnect s2) = 2%nat /\
  pending Reconnect (step (SocketErrors 0 None) Scenario.start) = [].
Proof.
  vm_compute; repeat split.
Qed.

(* ===================================================================== *)
(** ** Teardown *)
(* ===================================================================== *)

Section Teardown.

Lemma filter_none {A : Type} (p : A -> bool) (l : list A) :
  (forall x, In x l -> p x = false) -> filter p l = [].
Proof.
  induction l as [|x r IH]; simpl; intros H; [reflexivity|].
  rewrite (H x (or_introl eq_refl)); apply IH.
  intros y Hy; apply H; right; exact Hy.
Qed.

(** Without a handle there is no capture or health-check interval. *)
Lemma no_handle_no_timer cb s :
  timersOk s -> cb = CaptureTick \/ cb = HealthCheck ->
  handleOf cb s = None -> pending cb s = [].
Proof.
  intros [_ _ _ H4] Hcb Hnone; unfold pending; apply filter_none.
  intros [id t] Hin; simpl.
  destruct (callbackIs cb t) eqn:E; [|reflexivity].
  apply callbackIs_true in E.
  assert (callback t = CaptureTick \/ callback t = HealthCheck) as Hc
      by (rewrite E; exact Hcb).
  pose proof (H4 id t Hin Hc) as Hx; rewrite E in Hx; congruence.
Qed.

Lemma pending_logMessage cb m lv s : pending cb (logMessage m lv s) = pending cb s.
Proof. reflexivity. Qed.

Lemma pending_stopPeriodicProcessing cb s :
  timersOk s -> cb <> CaptureTick ->
  pending cb (stopPeriodicProcessing s) = pending cb s.
Proof.
  intros Hok Hne; unfold stopPeriodicProcessing.
  destruct (processingInterval s) as [id|] eqn:Hh; [|reflexivity].
  change (pending cb (clearTimer id s) = pending cb s).
  apply (pending_clear_handle CaptureTick); assumption.
Qed.

Lemma pending_stopBackendHealthCheck cb s :
  timersOk s -> cb <> HealthCheck ->
  pending cb (stopBackendHealthCheck s) = pending cb s.
Proof.
  intros Hok Hne; unfold stopBackendHealthCheck.
  destruct (healthCheckInterval s) as [id|] eqn:Hh; [|reflexivity].
  change (pending cb (clearTimer id s) = pending cb s).
  apply (pending_clear_handle HealthCheck); assumption.
Qed.

Lemma pending_closeSocket cb sock s : pending cb (closeSocket sock s) = pending cb s.
Proof. unfold closeSocket; destruct (readyState sock s) as [[]|]; reflexivity. Qed.

Lemma pending_stopCamera cb s :
  timersOk s -> cb <> CaptureTick -> pending cb (stopCamera s) = pending cb s.
Proof.
  intros Hok Hne; unfold stopCamera; destruct (stream s); [|reflexivity].
  rewrite pending_logMessage, pending_stopPeriodicProcessing; [reflexivity| |exact Hne].
  revert Hok; apply ok_frame; reflexivity.
Qed.

(** Timers without a handle survive [cleanup]. *)
Lemma pending_cleanup cb s :
  timersOk s -> hasHandle cb = false -> pending cb (cleanup s) = pending cb s.
Proof.
  intros Hok Hcb; unfold cleanup.
  assert (cb <> CaptureTick /\ cb <> HealthCheck /\ cb <> Heartbeat) as (N1 & N2 & N3)
      by (repeat split; intros ->; discriminate).
  pose proof (ok_stopPeriodicProcessing _ Hok) as Hok1.
  pose proof (ok_stopBackendHealthCheck _ Hok1) as Hok2.
  pose proof (ok_stopHeartbeat _ Hok2) as Hok3.
  rewrite <- (pending_stopPeriodicProcessing cb s Hok N1).
  rewrite <- (pending_stopBackendHealthCheck cb _ Hok1 N2).
  rewrite <- (pending_stopHeartbeat cb _ Hok2 N3).
  set (s3 := stopHeartbeat (stopBackendHealthCheck (stopPeriodicProcessing s))) in *.
  clearbody s3.
  set (s4 := match ws s3 with Some sock => closeSocket sock s3 | None => s3 end).
  assert (pending cb s4 = pending cb s3) as E4
      by (subst s4; destruct (ws s3); [apply pending_closeSocket|reflexivity]).
  assert (timersOk s4) as Hok4
      by (subst s4; destruct (ws s3); [apply ok_closeSocket|]; exact Hok3).
  clearbody s4; rewrite <- E4.
  destruct (stream s4); [apply pending_stopCamera; assumption|reflexivity].
Qed.

Lemma stopCamera_handles s :
  healthCheckInterval (stopCamera s) = healthCheckInterval s /\
  heartbeatInterval (stopCamera s) = heartbeatInterval s /\
  (processingInterval s = None -> processingInterval (stopCamera s) = None).
Proof.
  unfold stopCamera, stopPeriodicProcessing; destruct (stream s); simpl;
    [|tauto].
  destruct (processingInterval s) eqn:E; simpl; repeat split; auto;
    intros; congruence.
Qed.

Lemma stopPeriodicProcessing_handles s :
  processingInterval (stopPeriodicProcessing s) = None /\
  healthCheckInterval (stopPeriodicProcessing s) = healthCheckInterval s /\
  heartbeatInterval (stopPeriodicProcessing s) = heartbeatInterval s.
Proof.
  unfold stopPeriodicProcessing.
  destruct (processingInterval s) eqn:E; simpl; auto.
Qed.

Lemma stopBackendHealthCheck_handles s :
  processingInterval (stopBackendHealthCheck s) = processingInterval s /\
  healthCheckInterval (stopBackendHealthCheck s) = None /\
  heartbeatInterval (stopBackendHealthCheck s) = heartbeatInterval s.
Proof.
  unfold stopBackendHealthCheck.
  destruct (healthCheckInterval s) eqn:E; simpl; auto.
Qed.

Lemma stopHeartbeat_handles s :
  processingInterval (stopHeartbeat s) = processingInterval s /\
  healthCheckInterval (stopHeartbeat s) = healthCheckInterval s /\
  heartbeatInterval (stopHeartbeat s) = None.
Proof.
  unfold stopHeartbeat.
  destruct (heartbeatInterval s) eqn:E; simpl; auto.
Qed.

(** After [cleanup] the three handles are null. *)
Lemma cleanup_handles s :
  processingInterval (cleanup s) = None /\
  healthCheckInterval (cleanup s) = None /\
  heartbeatInterval (cleanup s) = None.
Proof.
  unfold cleanup.
  set (s3 := stopHeartbeat (stopBackendHealthCheck (stopPeriodicProcessing s))).
  assert (processingInterval s3 = None /\ healthCheckInterval s3 = None /\
          heartbeatInterval s3 = None) as (P & H & B).
  { subst s3.
    destruct (stopPeriodicProcessing_handles s) as (P1 & _ & _).
    destruct (stopBackendHealthCheck_handles (stopPeriodicProcessing s))
      as (P2 & H2 & _).
    destruct (stopHeartbeat_handles
                (stopBackendHealthCheck (stopPeriodicProcessing s)))
      as (P3 & H3 & B3).
    rewrite P3, P2, H3; auto. }
  clearbody s3.
  set (s4 := match ws s3 with Some sock => closeSocket sock s3 | None => s3 end).
  assert (processingInterval s4 = None /\ healthCheckInterval s4 = None /\
          heartbeatInterval s4 = None) as (P4 & H4 & B4).
  { subst s4; destruct (ws s3) as [sock|]; [|tauto].
    unfold closeSocket; destruct (readyState sock s3) as [[]|]; simpl; tauto. }
  clearbody s4.
  destruct (stream s4); [|tauto].
  destruct (stopCamera_handles s4) as (E1 & E2 & E3).
  rewrite E1, E2, (E3 P4); tauto.
Qed.

Lemma In_stopCamera x s : In x (timers (stopCamera s)) -> In x (timers s).
Proof.
  unfold stopCamera, stopPeriodicProcessing; destruct (stream s); simpl; [|tauto].
  destruct (processingInterval s); simpl; [|tauto].
  intros H; apply filter_In in H; tauto.
Qed.

(** The timer the heartbeat handle pointed to is no longer active after
    [cleanup]. *)
Lemma cleanup_cancels_heartbeat s id t :
  heartbeatInterval s = Some id -> ~ In (id, t) (timers (cleanup s)).
Proof.
  intros Hh Hin; unfold cleanup in Hin.
  set (s2 := stopBackendHealthCheck (stopPeriodicProcessing s)) in *.
  assert (heartbeatInterval s2 = Some id) as Hh2.
  { subst s2.
    destruct (stopBackendHealthCheck_handles (stopPeriodicProcessing s))
      as (_ & _ & ->).
    destruct (stopPeriodicProcessing_handles s) as (_ & _ & ->); exact Hh. }
  clearbody s2.
  assert (In (id, t) (timers (stopHeartbeat s2))) as Hin3.
  { set (s3 := stopHeartbeat s2) in *; clearbody s3.
    set (s4 := match ws s3 with Some sock => closeSocket sock s3 | None => s3 end) in *.
    assert (timers s4 = timers s3) as E
        by (subst s4; destruct (ws s3) as [sock|]; [|reflexivity];
            unfold closeSocket; destruct (readyState sock s3) as [[]|]; reflexivity).
    clearbody s4; rewrite <- E.
    destruct (stream s4); [apply In_stopCamera|]; exact Hin. }
  unfold stopHeartbeat in Hin3; rewrite Hh2 in Hin3; simpl in Hin3.
  apply filter_In in Hin3; simpl in Hin3; destruct Hin3 as [_ Hne].
  rewrite Nat.eqb_refl in Hne; discriminate.
Qed.

End Teardown.

(** C6, as amended.  After [cleanup], in every reachable state: the three
    interval handles are null; no capture interval and no health-check
    interval is active any more; the heartbeat interval the session held is
    cancelled.  Timers the session keeps no handle of are not cancelled:
    the pending reconnect timers, the pending 25 ms capture delays and the
    constructor's connectivity test are exactly those pending before. *)
Theorem teardown_cancels_held_intervals
    (page : Page) (events : list Event) :
  let s := run events (init page) in
  processingInterval (cleanup s) = None /\
  healthCheckInterval (cleanup s) = None /\
  heartbeatInterval (cleanup s) = None /\
  pending CaptureTick (cleanup s) = [] /\
  pending HealthCheck (cleanup s) = [] /\
  (forall id t, heartbeatInterval s = Some id -> ~ In (id, t) (timers (cleanup s))) /\
  (forall cb, hasHandle cb = false -> pending cb (cleanup s) = pending cb s).
Proof.
  intros s.
  pose proof (reachable_timersOk page events) as Hok.
  fold s in Hok; clearbody s.
  destruct (cleanup_handles s) as (P & H & B).
  pose proof (ok_cleanup s Hok) as Hok'.
  split; [exact P|]. split; [exact H|]. split; [exact B|].
  split; [apply no_handle_no_timer; [exact Hok'|left; reflexivity|exact P]|].
  split; [apply no_handle_no_timer; [exact Hok'|right; reflexivity|exact H]|].
  split; [intros id t; apply cleanup_cancels_heartbeat|].
  intros cb Hcb; apply pending_cleanup; assumption.
Qed.

Lemma teardown_cancels_held_intervals_witness :
  let s := run (Scenario.cameraOn ++ [SocketOpens 0; SocketCloses 0])%list
             Scenario.start in
  pending CaptureTick s = [(3%nat, mkTimer CaptureTick Interval (1000 # 2))] /\
  pending CaptureTick (cleanup s) = [] /\
  pending Reconnect (cleanup s) = [(5%nat, mkTimer Reconnect Timeout 3000)].
Proof.
  intros s.
  destruct (teardown_cancels_held_intervals Scenario.page
              (Scenario.cameraOn ++ [SocketOpens 0; SocketCloses 0])%list)
    as [_ [_ [_ [Hcap [_ [_ Hkeep]]]]]].
  split; [reflexivity|]. split; [exact Hcap|].
  etransitivity; [exact (Hkeep Reconnect eq_refl)|reflexivity].
Defined.

(** C6 as stated fails: the socket closes, so a reconnect timer is pending;
    [cleanup] runs; the reconnect timer (and the constructor's connectivity
    test) is still pending afterwards, and when it fires it opens a new
    socket. *)
Lemma teardown_counterexample :
  let s := run [SocketCloses 0; BeforeUnload] Scenario.start in
  timers s = [(2%nat, mkTimer ConnectivityTest Timeout 1000);
              (3%nat, mkTimer Reconnect Timeout 3000)] /\
  sockets s = [CLOSED] /\
  sockets (step (TimerFires 3) s) = [CLOSED; CONNECTING].
Proof.
  vm_compute; repeat split.
Qed.

(* ===================================================================== *)
(** ** End to end *)
(* ===================================================================== *)

(** One frame is captured and answered with a single "Pikachu" at distance
    3.2: the collection holds exactly that card, not kept; the keep button
    keeps it; remove-all empties the collection and reports one card. *)
Example end_to_end :
  let s1 := run (Scenario.cameraOn ++
                 Scenario.cycle 4 (Ok Scenario.pikachuResponse (Scenario.at_ 1000)))%list
              Scenario.start in
  let s2 := step (ClickKeep "card_1000_0") s1 in
  let s3 := step ClickRemoveAll s2 in
  map (fun c => (Card.name c, Card.kept c)) (JsMap.values (detectedCards s1))
    = [("Pikachu", false)] /\
  map (fun c => (Card.name c, Card.kept c)) (JsMap.values (detectedCards s2))
    = [("Pikachu", true)] /\
  detectedCards s3 = JsMap.empty /\
  last (messageLog s3) (NoCardsToRemove, info) = (RemovedAll 1, info).
Proof.
  vm_compute; repeat split.
Qed.

(* ===================================================================== *)
(** * Further properties of the controller *)
(* ===================================================================== *)

(** ** Laws of the collection's map *)

Section MapLaws.

Lemma get_set_other k k' v m :
  k' <> k -> JsMap.get k' (JsMap.set k v m) = JsMap.get k' m.
Proof.
  intros Hne; induction m as [|[k0 v0] r IH]; simpl.
  - destruct (String.eqb k' k) eqn:E; [apply String.eqb_eq in E; contradiction|reflexivity].
  - destruct (String.eqb k k0) eqn:E; simpl.
    + apply String.eqb_eq in E; subst k0.
      destruct (String.eqb k' k) eqn:E'; [apply String.eqb_eq in E'; contradiction|].
      reflexivity.
    + destruct (String.eqb k' k0); [reflexivity|exact IH].
Qed.

Lemma set_set k v1 v2 m : JsMap.set k v2 (JsMap.set k v1 m) = JsMap.set k v2 m.
Proof.
  induction m as [|[k0 v0] r IH]; simpl.
  - rewrite String.eqb_refl; reflexivity.
  - destruct (String.eqb k k0) eqn:E; simpl; rewrite E; [reflexivity|].
    rewrite IH; reflexivity.
Qed.

Lemma set_get_same k c m : JsMap.get k m = Some c -> JsMap.set k c m = m.
Proof.
  induction m as [|[k0 v0] r IH]; simpl; [discriminate|].
  destruct (String.eqb k k0) eqn:E.
  - intros [= ->]; reflexivity.
  - intros H; rewrite (IH H); reflexivity.
Qed.

Lemma size_set_present k v c m :
  JsMap.get k m = Some c -> JsMap.size (JsMap.set k v m) = JsMap.size m.
Proof.
  unfold JsMap.size; induction m as [|[k0 v0] r IH]; simpl; [discriminate|].
  destruct (String.eqb k k0); simpl; [reflexivity|].
  intros H; rewrite (IH H); reflexivity.
Qed.

Lemma size_set_absent k v m :
  JsMap.get k m = None -> JsMap.size (JsMap.set k v m) = S (JsMap.size m).
Proof.
  unfold JsMap.size; induction m as [|[k0 v0] r IH]; simpl; [reflexivity|].
  destruct (String.eqb k k0); simpl; [discriminate|].
  intros H; rewrite (IH H); reflexivity.
Qed.

Lemma get_absent k m : ~ In k (JsMap.keys m) -> JsMap.get k m = None.
Proof.
  unfold JsMap.keys; induction m as [|[k0 v0] r IH]; simpl; intros H; [reflexivity|].
  destruct (String.eqb k k0) eqn:E.
  - apply String.eqb_eq in E; subst; tauto.
  - apply IH; tauto.
Qed.

Lemma get_delete_same k m :
  NoDup (JsMap.keys m) -> JsMap.get k (JsMap.delete k m) = None.
Proof.
  unfold JsMap.keys; induction m as [|[k0 v0] r IH]; simpl; intros Hnd; [reflexivity|].
  inversion Hnd as [|? ? Hnotin Hnd']; subst.
  destruct (String.eqb k k0) eqn:E; simpl.
  - apply String.eqb_eq in E; subst k0. apply get_absent; exact Hnotin.
  - rewrite E; apply IH; exact Hnd'.
Qed.

Lemma get_delete_other k k' m :
  k' <> k -> JsMap.get k' (JsMap.delete k m) = JsMap.get k' m.
Proof.
  intros Hne; induction m as [|[k0 v0] r IH]; simpl; [reflexivity|].
  destruct (String.eqb k k0) eqn:E; simpl.
  - apply String.eqb_eq in E; subst k0.
    destruct (String.eqb k' k) eqn:E'; [apply String.eqb_eq in E'; contradiction|].
    reflexivity.
  - destruct (String.eqb k' k0); [reflexivity|exact IH].
Qed.

Lemma size_delete_present k c m :
  JsMap.get k m = Some c -> S (JsMap.size (JsMap.delete k m)) = JsMap.size m.
Proof.
  unfold JsMap.size; induction m as [|[k0 v0] r IH]; simpl; [discriminate|].
  destruct (String.eqb k k0); simpl; [reflexivity|].
  intros H; rewrite (IH H); reflexivity.
Qed.

Lemma setKept_setKept c b b' : Card.setKept (Card.setKept c b) b' = Card.setKept c b'.
Proof. reflexivity. Qed.

Lemma setKept_same c : Card.setKept c (Card.kept c) = c.
Proof. destruct c; reflexivity. Qed.

End MapLaws.

(** ** Keeping and removing cards *)

(** X1. The keep button is a toggle on one card: pressing it flips the [kept]
    flag of the card stored under that id and leaves every other card as it
    is; pressing it twice restores the collection; on an id that is not
    stored it does nothing at all, not even a log entry. *)
Theorem toggleKeepCard_toggles (cardId : string) (s : Session) :
  (forall card,
      JsMap.get cardId (detectedCards s) = Some card ->
      JsMap.get cardId (detectedCards (toggleKeepCard cardId s))
        = Some (Card.setKept card (negb (Card.kept card))) /\
      (forall other, other <> cardId ->
         JsMap.get other (detectedCards (toggleKeepCard cardId s))
           = JsMap.get other (detectedCards s)) /\
      JsMap.size (detectedCards (toggleKeepCard cardId s)) = JsMap.size (detectedCards s) /\
      detectedCards (toggleKeepCard cardId (toggleKeepCard cardId s)) = detectedCards s) /\
  (JsMap.get cardId (detectedCards s) = None -> toggleKeepCard cardId s = s).
Proof.
  split.
  - intros card Hget.
    assert (detectedCards (toggleKeepCard cardId s) =
            JsMap.set cardId (Card.setKept card (negb (Card.kept card))) (detectedCards s))
      as E by (unfold toggleKeepCard; rewrite Hget; reflexivity).
    split; [rewrite E; apply get_set_same|].
    split; [intros other Hne; rewrite E; apply get_set_other; exact Hne|].
    split; [rewrite E; apply (size_set_present _ _ card); exact Hget|].
    unfold toggleKeepCard at 1; rewrite E, get_set_same; simpl.
    rewrite set_set, setKept_setKept, negb_involutive, setKept_same.
    apply set_get_same; exact Hget.
  - intros Hget; unfold toggleKeepCard; rewrite Hget; reflexivity.
Qed.

Lemma toggleKeepCard_toggles_witness :
  let s := handleBackendResponse (Scenario.at_ 1000) Scenario.pikachuResponse
             Scenario.start in
  map Card.kept (JsMap.values (detectedCards (toggleKeepCard "card_1000_0" s))) = [true] /\
  detectedCards (toggleKeepCard "card_1000_0" (toggleKeepCard "card_1000_0" s))
    = detectedCards s /\
  toggleKeepCard "card_7_7" s = s.
Proof.
  intros s.
  destruct (toggleKeepCard_toggles "card_1000_0" s) as [Hpresent _].
  destruct (toggleKeepCard_toggles "card_7_7" s) as [_ Habsent].
  match type of Hpresent with
  | forall card, ?G = Some card -> _ =>
      let c := eval vm_compute in G in
      match c with
      | Some ?card => destruct (Hpresent card eq_refl) as [_ [_ [_ Htwice]]]
      end
  end.
  split; [reflexivity|]. split; [exact Htwice|apply Habsent; reflexivity].
Defined.

(** X2. Removing a card, in any state the controller can reach: the card stored
    under that id is gone, every other card is still there under its id,
    and the collection is one card smaller; on an id that is not stored
    nothing happens at all. *)
Theorem removeCard_removes (page : Page) (events : list Event) (cardId : string) :
  let s := run events (init page) in
  (forall card,
      JsMap.get cardId (detectedCards s) = Some card ->
      JsMap.get cardId (detectedCards (removeCard cardId s)) = None /\
      (forall other, other <> cardId ->
         JsMap.get other (detectedCards (removeCard cardId s))
           = JsMap.get other (detectedCards s)) /\
      S (JsMap.size (detectedCards (removeCard cardId s))) = JsMap.size (detectedCards s)) /\
  (JsMap.get cardId (detectedCards s) = None -> removeCard cardId s = s).
Proof.
  intros s.
  pose proof (reachable_uniqueKeys page events) as Hkeys.
  fold s in Hkeys; clearbody s; unfold uniqueKeys in Hkeys.
  split.
  - intros card Hget.
    assert (detectedCards (removeCard cardId s) = JsMap.delete cardId (detectedCards s))
      as E by (unfold removeCard; rewrite Hget; reflexivity).
    rewrite E; split; [apply get_delete_same; exact Hkeys|].
    split; [intros other Hne; apply get_delete_other; exact Hne|].
    apply (size_delete_present _ card); exact Hget.
  - intros Hget; unfold removeCard; rewrite Hget; reflexivity.
Qed.

Lemma removeCard_removes_witness :
  let s := run (Scenario.cameraOn ++
                Scenario.cycle 4 (Ok Scenario.pikachuResponse (Scenario.at_ 1000)))%list
             Scenario.start in
  JsMap.size (detectedCards s) = 1%nat /\
  JsMap.get "card_1000_0" (detectedCards (removeCard "card_1000_0" s)) = None /\
  removeCard "card_7_7" s = s.
Proof.
  intros s.
  destruct (removeCard_removes Scenario.page
              (Scenario.cameraOn ++
               Scenario.cycle 4 (Ok Scenario.pikachuResponse (Scenario.at_ 1000)))%list
              "card_1000_0") as [Hpresent _].
  destruct (removeCard_removes Scenario.page
              (Scenario.cameraOn ++
               Scenario.cycle 4 (Ok Scenario.pikachuResponse (Scenario.at_ 1000)))%list
              "card_7_7") as [_ Habsent].
  split; [reflexivity|]. split.
  - match type of Hpresent with
    | forall card, ?G = Some card -> _ =>
        let c := eval vm_compute in G in
        match c with
        | Some ?card => destruct (Hpresent card eq_refl) as [Hgone _]
        end
    end.
    exact Hgone.
  - apply Habsent; reflexivity.
Defined.

(** ** Insertion *)

(** The cooldown check never decides anything: whenever a card of the name
    was "recently detected", whatever the instant and the cooldown, a card
    of that name is in the collection, and that alone blocks the insertion. *)
Lemma recent_implies_existing now name minutes s :
  isRecentlyDetected now name minutes s = true ->
  exists card, existingCard name s = Some card.
Proof.
  unfold isRecentlyDetected, existingCard.
  induction (JsMap.values (detectedCards s)) as [|c r IH]; simpl; [discriminate|].
  destruct (sameName (Card.name c) name); [intros _; exists c; reflexivity|].
  simpl; exact IH.
Qed.

Lemma insert_decision now name minutes s :
  (negb (Js.present (existingCard name s)) && negb (isRecentlyDetected now name minutes s))%bool
  = negb (Js.present (existingCard name s)).
Proof.
  destruct (isRecentlyDetected now name minutes s) eqn:E.
  - destruct (recent_implies_existing _ _ _ _ E) as [c ->]; reflexivity.
  - apply andb_true_r.
Qed.

(** X3. Whether a detection or a channel card is inserted depends only on the
    names in the collection, never on the instant at which the cooldown is
    checked: with every other reading the same, two different instants give
    the same session. *)
Theorem cooldown_never_decides
    (clk : HttpReadings) (env : WsReadings) (checked : Z)
    (d : Detection.t) (card : WsCard.t) (i : nat) (s : Session) :
  addBackendDetection (mkHttpReadings (idNow clk) checked (stampNow clk)) d i s
    = addBackendDetection clk d i s /\
  addChannelCard (mkWsReadings checked (wsIdNow env) (wsRandom env) (wsStampNow env)) card i s
    = addChannelCard env card i s /\
  (forall now name minutes,
      isRecentlyDetected now name minutes s = true ->
      exists stored, existingCard name s = Some stored).
Proof.
  split; [|split].
  - unfold addBackendDetection.
    destruct (Detection.matches d) as [[|m r]|]; try reflexivity.
    cbn [idNow checkNow stampNow]; rewrite !insert_decision; reflexivity.
  - unfold addChannelCard.
    cbn [wsCheckNow wsIdNow wsRandom wsStampNow]; rewrite !insert_decision; reflexivity.
  - intros now name minutes; apply recent_implies_existing.
Qed.

Lemma cooldown_never_decides_witness :
  let s := handleBackendResponse (Scenario.at_ 1000) Scenario.pikachuResponse
             Scenario.start in
  addBackendDetection (mkHttpReadings 1000 999999999 1000) Scenario.pikachuDetection 0 s
    = addBackendDetection (Scenario.at_ 1000 0%nat) Scenario.pikachuDetection 0 s /\
  exists stored, existingCard "PIKACHU" s = Some stored.
Proof.
  intros s.
  destruct (cooldown_never_decides (Scenario.at_ 1000 0%nat)
              (mkWsReadings 1000 1000 "k3j9x0q1z" 1000) 999999999
              Scenario.pikachuDetection (WsCard.mk "Pikachu" None None None None None)
              0 s) as (Hbackend & _ & Hrecent).
  split; [exact Hbackend|].
  apply (Hrecent 1000 "PIKACHU" 2); vm_compute; reflexivity.
Defined.

(** X4. What an insertion does to the collection.  A detection whose name is not
    stored is stored under the id built from the clock and its index.  When
    that id is new, the collection grows by one card and every card stored
    before is still there.  When a card is already stored under that id
    (same millisecond, same index), that card is replaced in place: the
    collection keeps its size and the older card is lost. *)
Theorem insertion_by_id
    (clk : HttpReadings) (d : Detection.t) (i : nat) (s : Session)
    (m : BestMatch.t) (r : list BestMatch.t) :
  Detection.matches d = Some (m :: r) ->
  existingCard (cardName m) s = None ->
  let cardId := "card_" ++ Js.showZ (idNow clk) ++ "_" ++ Js.showNat i in
  let s' := addBackendDetection clk d i s in
  (forall other, other <> cardId ->
     JsMap.get other (detectedCards s') = JsMap.get other (detectedCards s)) /\
  (JsMap.get cardId (detectedCards s) = None ->
   JsMap.size (detectedCards s') = S (JsMap.size (detectedCards s))) /\
  (forall old,
      JsMap.get cardId (detectedCards s) = Some old ->
      JsMap.size (detectedCards s') = JsMap.size (detectedCards s) /\
      exists new, JsMap.get cardId (detectedCards s') = Some new /\
                  Card.name new = cardName m /\
                  foldedName new <> foldedName old).
Proof.
  intros Hm Hex cardId s'.
  assert (exists new, Card.name new = cardName m /\
                      detectedCards s' = JsMap.set cardId new (detectedCards s))
    as [new [Hname E]].
  { subst s'; unfold addBackendDetection; rewrite Hm, Hex.
    rewrite (existingCard_None_not_recent _ _ _ _ Hex); simpl.
    eexists; split; [|reflexivity]; reflexivity. }
  rewrite E; split; [intros other Hne; apply get_set_other; exact Hne|].
  split; [apply size_set_absent|].
  intros old Hold; split; [apply (size_set_present _ _ old); exact Hold|].
  exists new; split; [apply get_set_same|]. split; [exact Hname|].
  intros Heq. apply (existingCard_None _ _ Hex).
  unfold foldedNames; apply in_map_iff; exists old; split.
  - unfold foldedName in *; rewrite <- Heq, Hname; reflexivity.
  - exact (get_In _ _ _ Hold).
Qed.

Lemma insertion_by_id_witness :
  let s := handleBackendResponse (Scenario.at_ 1000) Scenario.pikachuResponse
             Scenario.start in
  let d := Detection.mk None None (Some [Scenario.setOnly]) in
  map Card.name (JsMap.values (detectedCards s)) = ["Pikachu"] /\
  JsMap.size (detectedCards (addBackendDetection (Scenario.at_ 1000 0%nat) d 0 s)) = 1%nat /\
  JsMap.size (detectedCards (addBackendDetection (Scenario.at_ 1001 0%nat) d 0 s)) = 2%nat.
Proof.
  intros s d.
  destruct (insertion_by_id (Scenario.at_ 1000 0%nat) d 0 s Scenario.setOnly []
              eq_refl eq_refl) as [_ [_ Hsame]].
  destruct (insertion_by_id (Scenario.at_ 1001 0%nat) d 0 s Scenario.setOnly []
              eq_refl eq_refl) as [_ [Hnew _]].
  split; [reflexivity|]. split.
  - match type of Hsame with
    | forall old, ?G = Some old -> _ =>
        let c := eval vm_compute in G in
        match c with
        | Some ?old => destruct (Hsame old eq_refl) as [Hsize _]
        end
    end.
    exact Hsize.
  - apply Hnew; reflexivity.
Defined.

(** X5. The channel path stores the name as received.  A card whose name, in
    any letter case, is already in the collection changes nothing, whenever
    it arrives: the stored card keeps its timestamp and its [kept] flag.  A
    card with a new name is stored under the id built from the clock and the
    random suffix, with exactly the name received (not trimmed, possibly
    empty), not kept. *)
Theorem channel_card_insertion
    (env : WsReadings) (card : WsCard.t) (i : nat) (s : Session) :
  (forall stored,
      In stored (JsMap.values (detectedCards s)) ->
      sameName (Card.name stored) (WsCard.name card) = true ->
      addChannelCard env card i s = s) /\
  (existingCard (WsCard.name card) s = None ->
   exists new,
     JsMap.get ("card_" ++ Js.showZ (wsIdNow env) ++ "_" ++ wsRandom env)
       (detectedCards (addChannelCard env card i s)) = Some new /\
     Card.name new = WsCard.name card /\
     Card.timestamp new = wsStampNow env /\
     Card.kept new = false).
Proof.
  split.
  - intros stored Hin Hsame; unfold addChannelCard.
    destruct (existingCard_Some _ _ _ Hin Hsame) as [c' ->]; reflexivity.
  - intros Hex; unfold addChannelCard; rewrite Hex.
    rewrite (existingCard_None_not_recent _ _ _ _ Hex); simpl.
    eexists; split; [apply get_set_same|]; simpl; auto.
Qed.

Lemma channel_card_insertion_witness :
  let s := handleBackendResponse (Scenario.at_ 1000) Scenario.pikachuResponse
             Scenario.start in
  let shout := WsCard.mk "PIKACHU" None None None None None in
  let blank := WsCard.mk "" None None None None None in
  addChannelCard (mkWsReadings 500000 500000 "k3j9x0q1z" 500000) shout 0 s = s /\
  exists new,
    JsMap.get "card_500000_k3j9x0q1z"
      (detectedCards
         (addChannelCard (mkWsReadings 500000 500000 "k3j9x0q1z" 500000) blank 0 s))
    = Some new /\ Card.name new = "".
Proof.
  intros s shout blank.
  destruct (channel_card_insertion (mkWsReadings 500000 500000 "k3j9x0q1z" 500000)
              shout 0 s) as [Hsame _].
  destruct (channel_card_insertion (mkWsReadings 500000 500000 "k3j9x0q1z" 500000)
              blank 0 s) as [_ Hnew].
  split.
  - match eval vm_compute in (JsMap.values (detectedCards s)) with
    | ?stored :: _ => apply (Hsame stored); [left; reflexivity|reflexivity]
    end.
  - destruct (Hnew eq_refl) as [new [Hget [Hname _]]].
    exists new; split; [exact Hget|exact Hname].
Defined.

(** ** Display names are never blank *)

Section Trimming.

Lemma trimEnd_involutive x : Js.trimEnd (Js.trimEnd x) = Js.trimEnd x.
Proof.
  induction x as [|c r IH]; simpl; [reflexivity|].
  destruct (Js.trimEnd r) as [|c' r'] eqn:E.
  - destruct (Js.isWhite c) eqn:W; simpl; [reflexivity|rewrite W; reflexivity].
  - simpl in *; rewrite IH; reflexivity.
Qed.

Lemma trimStart_shape s :
  Js.trimStart s = EmptyString \/
  exists c r, Js.trimStart s = String c r /\ Js.isWhite c = false.
Proof.
  induction s as [|c r IH]; simpl; [left; reflexivity|].
  destruct (Js.isWhite c) eqn:W; [exact IH|].
  right; exists c, r; split; [reflexivity|exact W].
Qed.

Lemma trimEnd_keeps_head c r :
  Js.isWhite c = false -> exists r', Js.trimEnd (String c r) = String c r'.
Proof.
  intros W; simpl; destruct (Js.trimEnd r) as [|c' r'].
  - rewrite W; exists EmptyString; reflexivity.
  - exists (String c' r'); reflexivity.
Qed.

(** [trim] of a trimmed string changes nothing. *)
Lemma trim_involutive s : Js.trim (Js.trim s) = Js.trim s.
Proof.
  unfold Js.trim.
  destruct (trimStart_shape s) as [E|[c [r [E W]]]]; rewrite E; [reflexivity|].
  destruct (trimEnd_keeps_head c r W) as [r' E']; rewrite E'.
  simpl Js.trimStart; rewrite W, <- E'; apply trimEnd_involutive.
Qed.

Lemma nonBlank_trimmed f v :
  Js.nonBlank f = Some v -> v <> "" /\ Js.trim v = v.
Proof.
  unfold Js.nonBlank; destruct f as [s|]; [|discriminate].
  destruct (Js.truthy s); simpl; [|discriminate].
  destruct (Js.truthy (Js.trim s)) eqn:T; [|discriminate].
  intros [= <-]; split; [|apply trim_involutive].
  intros E; rewrite E in T; discriminate.
Qed.

End Trimming.

(** X6. The name the backend path gives a card, and the label the overlay gives
    a polygon, are never empty; the card's name never starts or ends with
    white space, whatever the recognition service sent. *)
Theorem names_never_blank (m : BestMatch.t) (d : Detection.t) (i : nat) :
  cardName m <> "" /\ Js.trim (cardName m) = cardName m /\ Overlay.cardName i d <> "".
Proof.
  split; [|split].
  - unfold cardName.
    destruct (Js.nonBlank (BestMatch.name m)) eqn:E1;
      [exact (proj1 (nonBlank_trimmed _ _ E1))|].
    destruct (Js.nonBlank (BestMatch.card_id m)) eqn:E2;
      [exact (proj1 (nonBlank_trimmed _ _ E2))|].
    destruct (Js.nonBlank (BestMatch.set_id m)) eqn:E3;
      [exact (proj1 (nonBlank_trimmed _ _ E3))|discriminate].
  - unfold cardName.
    destruct (Js.nonBlank (BestMatch.name m)) eqn:E1;
      [exact (proj2 (nonBlank_trimmed _ _ E1))|].
    destruct (Js.nonBlank (BestMatch.card_id m)) eqn:E2;
      [exact (proj2 (nonBlank_trimmed _ _ E2))|].
    destruct (Js.nonBlank (BestMatch.set_id m)) eqn:E3;
      [exact (proj2 (nonBlank_trimmed _ _ E3))|reflexivity].
  - unfold Overlay.cardName.
    destruct (Detection.matches d) as [[|b r]|]; try discriminate.
    destruct (Js.nonBlank (BestMatch.name b)) eqn:E1;
      [exact (proj1 (nonBlank_trimmed _ _ E1))|].
    destruct (Js.nonBlank (BestMatch.card_id b)) eqn:E2;
      [exact (proj1 (nonBlank_trimmed _ _ E2))|discriminate].
Qed.

(** ** The channel and the server behind it *)

(** X7. Whatever arrives on the channel, the controller's scheduling state is
    left alone: the camera stream, the in-flight flag, the outstanding
    request, every timer and handle, every socket and the connection flag
    are as before.  A payload that is not JSON, a [pong] and a message of an
    unknown type change nothing at all. *)
Theorem channel_messages_do_not_schedule (parsed : option Envelope) (s : Session) :
  control (onmessage parsed s) = control s /\
  (parsed = None \/ parsed = Some MsgPong \/ (exists type, parsed = Some (MsgOther type)) ->
   onmessage parsed s = s).
Proof.
  split.
  - destruct parsed as [[]|]; simpl; try reflexivity.
    apply handleDetection_control.
  - intros [-> | [-> | [type ->]]]; reflexivity.
Qed.

Lemma channel_messages_do_not_schedule_witness :
  onmessage (Some (MsgOther "ping")) Scenario.start = Scenario.start.
Proof.
  destruct (channel_messages_do_not_schedule (Some (MsgOther "ping")) Scenario.start)
    as [_ Hsame].
  apply Hsame; right; right; exists "ping"; reflexivity.
Defined.

(** X8. The serving side answers each incoming message with at most one reply;
    a ping gets exactly a pong, which the controller ignores, so a heartbeat
    round trip leaves the controller as it was; and no reply of the server,
    the greeting included, ever changes the collection, queues a render pass
    or touches the scheduling state: the replies only reach the log. *)
Theorem server_replies_are_harmless (data : option (option string)) (s : Session) :
  (length (Server.onMessage data) <= 1)%nat /\
  Server.onMessage (outgoingData ping) = [Server.pong] /\
  onmessage (Some (replyEnvelope Server.pong)) s = s /\
  (forall r,
      In r (Server.onMessage data ++ Server.onConnection)%list ->
      let s' := onmessage (Some (replyEnvelope r)) s in
      detectedCards s' = detectedCards s /\
      rafQueue s' = rafQueue s /\
      overlay s' = overlay s /\
      control s' = control s).
Proof.
  split; [|split; [reflexivity|split; [reflexivity|]]].
  - destruct data as [[t|]|]; simpl; try lia.
    destruct (String.eqb t "frame"); [simpl; lia|].
    destruct (String.eqb t "ping"); simpl; lia.
  - intros r _ s'; subst s'; destruct r; simpl; repeat split; reflexivity.
Qed.

Lemma server_replies_are_harmless_witness :
  let s := onmessage
             (Some (replyEnvelope
                      (Server.connected "Connected to Pokemon Card Detection server")))
             Scenario.start in
  detectedCards s = detectedCards Scenario.start /\ control s = control Scenario.start.
Proof.
  intros s.
  destruct (server_replies_are_harmless (Some (Some "frame")) Scenario.start)
    as [_ [_ [_ Hall]]].
  destruct (Hall (Server.connected "Connected to Pokemon Card Detection server"))
    as [Hcards [_ [_ Hcontrol]]].
  - right; left; reflexivity.
  - split; [exact Hcards|exact Hcontrol].
Defined.

(** ** Where captures and requests come from *)

Section Origins.

Lemma runCallback_blobs cb s :
  cb <> CaptureDelay -> pendingBlobs (runCallback cb s) = pendingBlobs s.
Proof.
  intros Hne; destruct cb; try contradiction; unfold runCallback; unfold_control;
    simpl; split_branches; reflexivity.
Qed.

Lemma control_blobs s s' : control s' = control s -> pendingBlobs s' = pendingBlobs s.
Proof.
  intros H; apply control_fields in H.
  destruct H as (_ & _ & _ & _ & _ & _ & _ & _ & _ & _ & H & _); exact H.
Qed.

(** Timers and delivered frames apart, no event changes the number of
    frames awaiting delivery. *)
Lemma step_blobs e s :
  (forall id, e <> TimerFires id) -> (forall a, e <> BlobReady a) ->
  pendingBlobs (step e s) = pendingBlobs s.
Proof.
  intros Htimer Hblob.
  destruct e; simpl;
    try (exfalso; eapply Htimer; reflexivity);
    try (exfalso; eapply Hblob; reflexivity).
  - destruct (inflight s) as [|n]; [reflexivity|].
    rewrite (control_blobs _ _ (resumeProcessFrame_control outcome (set_inflight n s)));
      reflexivity.
  - reflexivity.
  - destruct (readyState sock s) as [[]|]; reflexivity.
  - destruct (readyState sock s) as [[]|]; try reflexivity;
      (destruct parsed as [[]|]; simpl; try reflexivity;
       apply control_blobs, handleDetection_control).
  - destruct (readyState sock s) as [[]|]; reflexivity.
  - destruct (readyState sock s) as [[]|]; try reflexivity;
      (unfold onclose; unfold_control; simpl; split_branches; reflexivity).
  - reflexivity.
  - reflexivity.
  - unfold_control; simpl; split_branches; reflexivity.
  - unfold_control; simpl; split_branches; reflexivity.
  - unfold_control; simpl; split_branches; reflexivity.
  - reflexivity.
  - apply control_blobs, toggleKeepCard_control.
  - apply control_blobs, removeCard_control.
  - apply control_blobs, removeAllCards_control.
  - destruct (negb hidden && negb (isConnected s))%bool; reflexivity.
  - unfold_control; simpl; split_branches; reflexivity.
  - unfold handleResize; destruct (_ && _)%bool; reflexivity.
  - split_answer outcome; reflexivity.
Qed.

End Origins.

(** X9. A frame is captured only when the 25 ms delay of a tick elapses while
    the camera streams and no request is in flight, and then exactly one
    frame.  A recognition request is issued only when a captured frame is
    delivered intact while the in-flight flag is clear, and then exactly
    one.  No other event, whatever the state, starts a capture or a
    request. *)
Theorem captures_and_requests_origin (e : Event) (s : Session) :
  ((pendingBlobs s < pendingBlobs (step e s))%nat ->
   exists id t,
     e = TimerFires id /\ lookupTimer id (timers s) = Some t /\
     callback t = CaptureDelay /\
     stream s = true /\ isProcessing s = false /\
     pendingBlobs (step e s) = S (pendingBlobs s)) /\
  ((inflight s < inflight (step e s))%nat ->
   e = BlobReady None /\ isProcessing s = false /\ (0 < pendingBlobs s)%nat /\
   inflight (step e s) = S (inflight s)).
Proof.
  split.
  - intros Hgrow.
    destruct e as [id|a| | | | | | | | | | | | | | | | | | |];
      try (rewrite step_blobs in Hgrow by discriminate; lia).
    + (* a timer *)
      simpl in *. destruct (lookupTimer id (timers s)) as [t|] eqn:Ht; [|lia].
      set (s1 := match mode t with Timeout => clearTimer id s | Interval => s end) in *.
      assert (pendingBlobs s1 = pendingBlobs s /\ stream s1 = stream s /\
              isProcessing s1 = isProcessing s) as (Eb & Es & Ep)
          by (subst s1; destruct (mode t); repeat split; reflexivity).
      clearbody s1.
      destruct (callback t) eqn:Hcb;
        try (rewrite runCallback_blobs in Hgrow by discriminate; lia).
      exists id, t; simpl in *.
      rewrite Es, Ep in *.
      destruct (stream s) eqn:Hs; simpl in *; [|lia].
      destruct (isProcessing s) eqn:Hp; simpl in *; [lia|].
      unfold captureFrame in *; rewrite Es in *; simpl in *.
      repeat split; try assumption; try reflexivity.
      rewrite Eb; reflexivity.
    + (* a delivered frame only consumes one *)
      simpl in Hgrow. destruct (pendingBlobs s) as [|n] eqn:E; [rewrite E in Hgrow; lia|].
      unfold processFrameWithBackend in Hgrow; simpl in Hgrow.
      destruct (isProcessing s); simpl in Hgrow; [lia|].
      destruct a; simpl in Hgrow; lia.
  - intros Hgrow.
    destruct e as [id|a|o| | | | | | | | | | | | | | | | | |];
      try (match goal with
           | H : (inflight s < inflight (step ?e s))%nat |- _ =>
               assert (flight (step e s) = flight s) as Hf
                 by (apply step_flight; discriminate);
               apply flight_fields in Hf; destruct Hf as [_ Hf]; lia
           end).
    + simpl in *. destruct (pendingBlobs s) as [|n]; [lia|].
      unfold processFrameWithBackend in *; simpl in *.
      destruct (isProcessing s); simpl in *; [lia|].
      destruct a; simpl in *; [lia|].
      repeat split; lia.
    + simpl in Hgrow. destruct (inflight s) as [|n] eqn:E; [lia|].
      pose proof (resumeProcessFrame_flight o (set_inflight n s)) as Hf.
      unfold flight in Hf; simpl in Hf; injection Hf as _ Hi. lia.
Qed.

Lemma captures_and_requests_origin_witness :
  let s := run (Scenario.cameraOn ++ [TimerFires 3; TimerFires 4])%list Scenario.start in
  pendingBlobs s = 1%nat /\ inflight s = 0%nat /\ inflight (step (BlobReady None) s) = 1%nat.
Proof.
  intros s.
  destruct (captures_and_requests_origin (BlobReady None) s) as [_ Hreq].
  split; [reflexivity|]. split; [reflexivity|].
  destruct Hreq as [_ [_ [_ Hone]]]; [vm_compute; lia|exact Hone].
Defined.

(** ** Stopping twice *)

Section Idempotence.

Lemma nth_error_setNth_same {A : Type} (n : nat) (x y : A) (l : list A) :
  nth_error l n = Some y -> nth_error (setNth n x l) n = Some x.
Proof.
  revert n; induction l as [|z r IH]; intros [|n]; simpl; try discriminate.
  - reflexivity.
  - apply IH.
Qed.

Lemma nth_error_setNth_other {A : Type} (n k : nat) (x : A) (l : list A) :
  k <> n -> nth_error (setNth n x l) k = nth_error l k.
Proof.
  revert n k; induction l as [|z r IH]; intros [|n] [|k] Hne; simpl;
    try reflexivity; try contradiction.
  apply IH; intros E; apply Hne; rewrite E; reflexivity.
Qed.

Lemma length_setNth {A : Type} (n : nat) (x : A) (l : list A) :
  length (setNth n x l) = length l.
Proof.
  revert n; induction l as [|z r IH]; intros [|n]; simpl; try reflexivity.
  rewrite IH; reflexivity.
Qed.

(** On a torn-down session [cleanup] finds nothing to do. *)
Lemma tornDown_fixed s : tornDown s -> cleanup s = s.
Proof.
  intros (P & H & B & S & W); unfold cleanup.
  assert (stopPeriodicProcessing s = s) as -> by (unfold stopPeriodicProcessing; rewrite P; reflexivity).
  assert (stopBackendHealthCheck s = s) as -> by (unfold stopBackendHealthCheck; rewrite H; reflexivity).
  assert (stopHeartbeat s = s) as -> by (unfold stopHeartbeat; rewrite B; reflexivity).
  assert (match ws s with Some sock => closeSocket sock s | None => s end = s) as ->.
  { destruct (ws s) as [sock|] eqn:E; [|reflexivity].
    destruct (W sock eq_refl) as [N1 N2]; unfold closeSocket.
    destruct (readyState sock s) as [[]|]; try reflexivity; congruence. }
  rewrite S; reflexivity.
Qed.

Lemma stopCamera_stream s : stream (stopCamera s) = false.
Proof.
  unfold stopCamera, stopPeriodicProcessing; destruct (stream s) eqn:E; simpl; [|exact E].
  destruct (processingInterval s); reflexivity.
Qed.

Lemma stopCamera_channel s :
  ws (stopCamera s) = ws s /\ sockets (stopCamera s) = sockets s.
Proof.
  unfold stopCamera, stopPeriodicProcessing; destruct (stream s); simpl; [|tauto].
  destruct (processingInterval s); split; reflexivity.
Qed.

Lemma closeSocket_closes sock s :
  ws (closeSocket sock s) = ws s /\
  readyState sock (closeSocket sock s) <> Some CONNECTING /\
  readyState sock (closeSocket sock s) <> Some OPEN.
Proof.
  unfold closeSocket, readyState.
  destruct (nth_error (sockets s) sock) as [[]|] eqn:E; simpl;
    try (rewrite (nth_error_setNth_same _ _ _ _ E));
    try rewrite E; repeat split; discriminate.
Qed.

Lemma cleanup_tornDown s : tornDown (cleanup s).
Proof.
  destruct (cleanup_handles s) as (P & H & B).
  split; [exact P|]. split; [exact H|]. split; [exact B|].
  unfold cleanup.
  set (s3 := stopHeartbeat (stopBackendHealthCheck (stopPeriodicProcessing s))).
  clearbody s3.
  set (s4 := match ws s3 with Some sock => closeSocket sock s3 | None => s3 end).
  assert (forall sock, ws s4 = Some sock ->
            readyState sock s4 <> Some CONNECTING /\ readyState sock s4 <> Some OPEN) as W4.
  { subst s4; destruct (ws s3) as [sock0|] eqn:E.
    - intros sock Hw. destruct (closeSocket_closes sock0 s3) as (Ew & N).
      rewrite Ew, E in Hw; injection Hw as <-; exact N.
    - intros sock Hw; congruence. }
  clearbody s4.
  destruct (stream s4) eqn:Es; [|split; [exact Es|exact W4]].
  split; [apply stopCamera_stream|].
  destruct (stopCamera_channel s4) as (Ew & Esock).
  intros sock Hw; rewrite Ew in Hw; unfold readyState; rewrite Esock.
  exact (W4 sock Hw).
Qed.

End Idempotence.

(** X10. Stopping is idempotent, in every state: a second [cleanup] right after
    the first changes nothing, and neither does a second [stopCamera],
    [stopPeriodicProcessing], [stopHeartbeat] or [stopBackendHealthCheck];
    an idle scheduler is stopped without even a log entry. *)
Theorem stopping_twice (s : Session) :
  cleanup (cleanup s) = cleanup s /\
  stopCamera (stopCamera s) = stopCamera s /\
  stopPeriodicProcessing (stopPeriodicProcessing s) = stopPeriodicProcessing s /\
  stopHeartbeat (stopHeartbeat s) = stopHeartbeat s /\
  stopBackendHealthCheck (stopBackendHealthCheck s) = stopBackendHealthCheck s /\
  (processingInterval s = None -> stopPeriodicProcessing s = s).
Proof.
  split; [apply tornDown_fixed, cleanup_tornDown|].
  split; [unfold stopCamera at 1; rewrite stopCamera_stream; reflexivity|].
  split; [unfold stopPeriodicProcessing at 1;
          destruct (stopPeriodicProcessing_handles s) as (-> & _); reflexivity|].
  split; [unfold stopHeartbeat at 1;
          destruct (stopHeartbeat_handles s) as (_ & _ & ->); reflexivity|].
  split; [unfold stopBackendHealthCheck at 1;
          destruct (stopBackendHealthCheck_handles s) as (_ & -> & _); reflexivity|].
  intros P; unfold stopPeriodicProcessing; rewrite P; reflexivity.
Qed.

Lemma stopping_twice_witness :
  stopPeriodicProcessing Scenario.start = Scenario.start.
Proof.
  destruct (stopping_twice Scenario.start) as [_ [_ [_ [_ [_ Hidle]]]]].
  apply Hidle; reflexivity.
Defined.

(** ** The connection flag and the current socket *)

Section Channel.

Lemma chan_frame s s' : chanView s' = chanView s -> channelOk s -> channelOk s'.
Proof.
  unfold chanView, channelOk, readyState; intros H; inversion H as [[Hw Hs Hc]].
  rewrite Hw, Hs, Hc; tauto.
Qed.

Lemma control_chanView s s' : control s' = control s -> chanView s' = chanView s.
Proof.
  intros H; apply control_fields in H; unfold chanView.
  destruct H as (_ & -> & -> & _ & _ & _ & _ & _ & _ & -> & _); reflexivity.
Qed.

Lemma chan_connectWebSocket s : channelOk s -> channelOk (connectWebSocket s).
Proof.
  unfold channelOk, connectWebSocket, readyState; simpl; intros (Hw & Hne & Hc).
  split; [rewrite length_app; simpl; f_equal; lia|].
  split; [destruct (sockets s); discriminate|].
  intros Hconn; destruct (Hc Hconn) as [sock Hs]; exists sock.
  assert (sock < length (sockets s))%nat as Hlt
      by (apply nth_error_Some; destruct Hs as [E|E]; rewrite E; discriminate).
  rewrite nth_error_app1 by exact Hlt; exact Hs.
Qed.

Lemma chan_closeSocket sock s : channelOk s -> channelOk (closeSocket sock s).
Proof.
  intros Hok; unfold closeSocket.
  assert (forall st, readyState sock s = Some st -> st = CONNECTING \/ st = OPEN ->
                     channelOk (setReadyState sock CLOSING s)) as Hset.
  { intros st Hst Hcase; destruct Hok as (Hw & Hne & Hc).
    unfold channelOk, setReadyState, readyState in *; simpl.
    rewrite length_setNth; split; [exact Hw|].
    split; [intros E; apply Hne; apply (f_equal (@length _)) in E;
            rewrite length_setNth in E; destruct (sockets s); [reflexivity|discriminate]|].
    intros Hconn; destruct (Hc Hconn) as [w Hwit].
    destruct (Nat.eq_dec w sock) as [->|Hneq].
    - exists sock; right; apply (nth_error_setNth_same _ _ st); exact Hst.
    - exists w; rewrite nth_error_setNth_other by exact Hneq; exact Hwit. }
  destruct (readyState sock s) as [[]|] eqn:E; try exact Hok.
  - apply (Hset CONNECTING); auto.
  - apply (Hset OPEN); auto.
Qed.

Lemma chanView_stops s :
  chanView (stopPeriodicProcessing s) = chanView s /\
  chanView (stopBackendHealthCheck s) = chanView s /\
  chanView (stopHeartbeat s) = chanView s /\
  chanView (stopCamera s) = chanView s /\
  chanView (startPeriodicProcessing s) = chanView s.
Proof.
  unfold_control; simpl; repeat split; split_branches; reflexivity.
Qed.

Lemma chan_cleanup s : channelOk s -> channelOk (cleanup s).
Proof.
  intros Hok; unfold cleanup.
  assert (channelOk (stopHeartbeat (stopBackendHealthCheck (stopPeriodicProcessing s))))
    as H3.
  { destruct (chanView_stops s) as (E1 & _).
    destruct (chanView_stops (stopPeriodicProcessing s)) as (_ & E2 & _).
    destruct (chanView_stops (stopBackendHealthCheck (stopPeriodicProcessing s)))
      as (_ & _ & E3 & _).
    apply (chan_frame s); [congruence|exact Hok]. }
  set (s3 := stopHeartbeat (stopBackendHealthCheck (stopPeriodicProcessing s))) in *.
  clearbody s3.
  assert (channelOk (match ws s3 with Some sock => closeSocket sock s3 | None => s3 end))
    as H4 by (destruct (ws s3); [apply chan_closeSocket|]; exact H3).
  destruct (stream _); [|exact H4].
  eapply chan_frame; [|exact H4].
  destruct (chanView_stops (match ws s3 with
                            | Some sock => closeSocket sock s3
                            | None => s3
                            end)) as (_ & _ & _ & E & _); exact E.
Qed.

Lemma chan_runCallback cb s : channelOk s -> channelOk (runCallback cb s).
Proof.
  intros Hok; destruct cb; simpl; try exact Hok.
  - destruct (stream s && negb (isProcessing s))%bool; [|exact Hok].
    revert Hok; apply chan_frame; reflexivity.
  - destruct (stream s && negb (isProcessing s))%bool; [|exact Hok].
    unfold captureFrame; destruct (negb (stream s));
      revert Hok; apply chan_frame; reflexivity.
  - unfold heartbeatCallback.
    destruct (ws s) as [sock|]; [|exact Hok].
    destruct (readyState sock s) as [[]|]; exact Hok.
  - unfold reconnectCallback; destruct (negb (isConnected s)); [|exact Hok].
    apply chan_connectWebSocket. revert Hok; apply chan_frame; reflexivity.
Qed.

Lemma chan_onopen sock s :
  readyState sock s = Some CONNECTING ->
  channelOk s -> channelOk (onopen (setReadyState sock OPEN s)).
Proof.
  intros Hst (Hw & Hne & Hc).
  unfold channelOk, onopen, startHeartbeat, startTimer, setReadyState, readyState in *;
    simpl.
  rewrite length_setNth; split; [exact Hw|].
  split; [intros E; apply Hne; apply (f_equal (@length _)) in E;
          rewrite length_setNth in E; destruct (sockets s); [reflexivity|discriminate]|].
  intros _; exists sock; left; apply (nth_error_setNth_same _ _ CONNECTING); exact Hst.
Qed.

Lemma chan_onclose sock s :
  channelOk s -> channelOk (onclose (setReadyState sock CLOSED s)).
Proof.
  intros (Hw & Hne & Hc).
  set (s' := onclose (setReadyState sock CLOSED s)).
  assert (chanView s' = (ws s, setNth sock CLOSED (sockets s), false)) as E
      by (subst s'; unfold onclose, stopHeartbeat, startTimer; simpl;
          destruct (heartbeatInterval s); reflexivity).
  clearbody s'; unfold chanView in E; injection E as Ew Es Ec.
  unfold channelOk, readyState; rewrite Ew, Es, Ec, length_setNth.
  split; [exact Hw|].
  split; [intros E; apply Hne; apply (f_equal (@length _)) in E;
          rewrite length_setNth in E; destruct (sockets s); [reflexivity|discriminate]|].
  discriminate.
Qed.

(** Every turn of the event loop keeps the channel's bookkeeping. *)
Lemma step_channelOk e s : channelOk s -> channelOk (step e s).
Proof.
  intros Hok; destruct e; simpl.
  - destruct (lookupTimer id (timers s)) as [t|]; [|exact Hok].
    apply chan_runCallback; destruct (mode t); [exact Hok|].
    revert Hok; apply chan_frame; reflexivity.
  - destruct (pendingBlobs s); [exact Hok|].
    eapply chan_frame; [|exact Hok].
    unfold processFrameWithBackend; simpl; destruct (isProcessing s); [reflexivity|].
    destruct appendError; reflexivity.
  - destruct (inflight s); [exact Hok|].
    eapply chan_frame; [apply control_chanView, resumeProcessFrame_control|].
    revert Hok; apply chan_frame; reflexivity.
  - revert Hok; apply chan_frame; reflexivity.
  - destruct (readyState sock s) as [[]|] eqn:E; try exact Hok.
    apply chan_onopen; assumption.
  - destruct (readyState sock s) as [[]|]; try exact Hok;
      (destruct parsed as [[]|]; simpl; try exact Hok;
       try (revert Hok; apply chan_frame; reflexivity);
       eapply chan_frame; [apply control_chanView, handleDetection_control|exact Hok]).
  - destruct (readyState sock s) as [[]|]; try exact Hok;
      revert Hok; apply chan_frame; reflexivity.
  - destruct (readyState sock s) as [[]|]; try exact Hok;
      apply chan_onclose; exact Hok.
  - revert Hok; apply chan_frame; reflexivity.
  - revert Hok; apply chan_frame; reflexivity.
  - eapply chan_frame; [|exact Hok].
    destruct (chanView_stops
                (logMessage (VideoDisplaySize rectWidth rectHeight) info
                   (logMessage (CanvasDimensions videoWidth videoHeight) info
                      (logMessage (CameraStarted videoWidth videoHeight) info
                         (set_overlay (Canvas.resize videoWidth videoHeight (overlay s)) s)))))
      as (_ & _ & _ & _ & E); exact E.
  - unfold toggleCamera, startCamera; destruct (stream s) eqn:Hs; [|exact Hok].
    eapply chan_frame; [|exact Hok].
    destruct (chanView_stops s) as (_ & _ & _ & E & _); exact E.
  - eapply chan_frame; [|exact Hok].
    unfold updateProcessingSpeed; simpl.
    destruct (processingInterval s); [|reflexivity].
    destruct (chanView_stops (set_processingSpeed fps s)) as (_ & _ & _ & _ & E);
      exact E.
  - revert Hok; apply chan_frame; reflexivity.
  - eapply chan_frame; [apply control_chanView, toggleKeepCard_control|exact Hok].
  - eapply chan_frame; [apply control_chanView, removeCard_control|exact Hok].
  - eapply chan_frame; [apply control_chanView, removeAllCards_control|exact Hok].
  - destruct (negb hidden && negb (isConnected s))%bool; [|exact Hok].
    apply chan_connectWebSocket; exact Hok.
  - apply chan_cleanup; exact Hok.
  - unfold handleResize; destruct (_ && _)%bool; exact Hok.
  - split_answer outcome; exact Hok.
Qed.

Lemma init_channelOk page : channelOk (init page).
Proof.
  unfold channelOk; simpl; split; [reflexivity|]. split; discriminate.
Qed.

End Channel.

(** X11. In every state the controller can reach, [this.ws] is the socket
    created last, and the controller only says it is connected while one
    of its sockets is open or closing: with every socket still connecting
    or closed, the status shown is "Disconnected". *)
Theorem connected_means_live_socket (page : Page) (events : list Event) :
  let s := run events (init page) in
  ws s = Some (Nat.pred (length (sockets s))) /\
  (isConnected s = true ->
   exists sock, readyState sock s = Some OPEN \/ readyState sock s = Some CLOSING).
Proof.
  intros s.
  assert (channelOk s) as (Hw & _ & Hc)
      by (apply run_invariant; [exact step_channelOk|apply init_channelOk]).
  split; assumption.
Qed.

Lemma connected_means_live_socket_witness :
  let s := run [SocketOpens 0] Scenario.start in
  isConnected s = true /\
  exists sock, readyState sock s = Some OPEN \/ readyState sock s = Some CLOSING.
Proof.
  intros s.
  destruct (connected_means_live_socket Scenario.page [SocketOpens 0]) as [_ Hlive].
  split; [reflexivity|apply Hlive; reflexivity].
Defined.

(** ** The event log is bounded *)

(** The log only changes by [logMessage].  A property of the log that
    [logMessage] preserves is preserved by every handler and by every turn
    of the event loop. *)
Section LogClosure.

Variable P : list LogEntry -> Prop.

Hypothesis P_log : forall m lv l, P l -> P (keepLast 50 (l ++ [(m, lv)])).

Ltac logged :=
  unfold_control; simpl; split_branches;
  repeat (apply P_log); assumption.

Lemma addBackendDetection_logged clk d i s :
  P (messageLog s) -> P (messageLog (addBackendDetection clk d i s)).
Proof. intros H; unfold addBackendDetection; logged. Qed.

Lemma addChannelCard_logged env c i s :
  P (messageLog s) -> P (messageLog (addChannelCard env c i s)).
Proof. intros H; unfold addChannelCard; logged. Qed.

Lemma handleBackendResponse_logged clock data s :
  P (messageLog s) -> P (messageLog (handleBackendResponse clock data s)).
Proof.
  unfold handleBackendResponse; intros H.
  destruct (Response.detections data) as [[|d ds]|]; try exact H.
  unfold drawDetectionOverlay, forEach.
  change (messageLog (set_rafQueue ?q ?x)) with (messageLog x).
  apply (forEachFrom_preserves (fun s => P (messageLog s))); [|exact H].
  intros; apply addBackendDetection_logged; assumption.
Qed.

Lemma handleDetection_logged env cards s :
  P (messageLog s) -> P (messageLog (handleDetection env cards s)).
Proof.
  unfold handleDetection; intros H.
  destruct cards as [[|c cs]|]; try (apply P_log; exact H).
  unfold drawDetectionOverlay, forEach.
  change (messageLog (set_rafQueue ?q ?x)) with (messageLog x).
  apply (forEachFrom_preserves (fun s => P (messageLog s))).
  - intros; apply addChannelCard_logged; assumption.
  - apply P_log; exact H.
Qed.

Lemma resumeProcessFrame_logged o s :
  P (messageLog s) -> P (messageLog (resumeProcessFrame o s)).
Proof.
  intros H.
  assert (forall data,
             P (messageLog
                  (match Response.num_detections data with
                   | Some n =>
                       if n >? 0 then logMessage (ReceivedDetections n) info s else s
                   | None => s
                   end))) as Hreceived
      by (intros data; destruct (Response.num_detections data) as [n|]; [|exact H];
          destruct (n >? 0); [apply P_log|]; exact H).
  destruct o as [n m|st body engine|data clock|data clock point n m]; simpl;
    try (repeat apply P_log; exact H).
  - destruct (notOkError engine st body); simpl; repeat apply P_log; exact H.
  - unfold finallyBlock.
    change (messageLog (set_isProcessing ?b ?x)) with (messageLog x).
    apply handleBackendResponse_logged, Hreceived.
  - unfold catchBlock, finallyBlock.
    change (messageLog (set_isProcessing ?b ?x)) with (messageLog x).
    do 2 apply P_log.
    destruct point; [|apply handleBackendResponse_logged, Hreceived].
    apply (forEachFrom_preserves (fun s => P (messageLog s))); [|apply Hreceived].
    intros; apply addBackendDetection_logged; assumption.
Qed.

Lemma runCallback_logged cb s : P (messageLog s) -> P (messageLog (runCallback cb s)).
Proof. intros H; destruct cb; unfold runCallback; logged. Qed.

Lemma step_logged e s : P (messageLog s) -> P (messageLog (step e s)).
Proof.
  intros H; destruct e; simpl.
  - destruct (lookupTimer id (timers s)) as [t|]; [|exact H].
    apply runCallback_logged; destruct (mode t); exact H.
  - destruct (pendingBlobs s); [exact H|].
    unfold processFrameWithBackend; logged.
  - destruct (inflight s); [exact H|].
    apply resumeProcessFrame_logged; exact H.
  - exact H.
  - destruct (readyState sock s) as [[]|]; try exact H; unfold onopen; logged.
  - destruct (readyState sock s) as [[]|]; try exact H;
      (destruct parsed as [[]|]; simpl; try exact H;
       try (apply P_log; exact H);
       apply handleDetection_logged; exact H).
  - destruct (readyState sock s) as [[]|]; try exact H; apply P_log; exact H.
  - destruct (readyState sock s) as [[]|]; try exact H; unfold onclose; logged.
  - exact H.
  - apply P_log; exact H.
  - logged.
  - logged.
  - logged.
  - apply P_log; exact H.
  - unfold toggleKeepCard; logged.
  - unfold removeCard; logged.
  - unfold removeAllCards; logged.
  - destruct (negb hidden && negb (isConnected s))%bool; exact H.
  - logged.
  - unfold handleResize; destruct (_ && _)%bool; [apply P_log|]; exact H.
  - split_answer outcome; simpl; repeat apply P_log; exact H.
Qed.

End LogClosure.

Lemma keepLast_length {A : Type} (n : nat) (l : list A) : (length (keepLast n l) <= n)%nat.
Proof. unfold keepLast; rewrite length_skipn; lia. Qed.

(** X12. The event log never holds more than 50 entries, in any state the
    controller can reach (window resizes and the answers to the connectivity
    test included), and logging keeps the entries in order: the entry just
    logged comes last, behind the (at most 49) newest older ones. *)
Theorem log_is_bounded (page : Page) (events : list Event) :
  let s := run events (init page) in
  (length (messageLog s) <= 50)%nat /\
  (forall m lv,
      messageLog (logMessage m lv s) = (keepLast 49 (messageLog s) ++ [(m, lv)])%list /\
      ((length (messageLog s) < 50)%nat ->
       messageLog (logMessage m lv s) = (messageLog s ++ [(m, lv)])%list)).
Proof.
  intros s; split.
  - apply (run_invariant (fun s => (length (messageLog s) <= 50)%nat));
      [|simpl; lia].
    intros e s0; apply (step_logged (fun l => (length l <= 50)%nat)).
    intros; apply keepLast_length.
  - intros m lv; split; [apply logMessage_last|].
    intros Hlt; rewrite logMessage_last; f_equal.
    unfold keepLast; replace (length (messageLog s) - 49)%nat with 0%nat by lia.
    reflexivity.
Qed.

Lemma log_is_bounded_witness :
  let s := run (Scenario.cameraOn ++
                [TimerFires 2; WindowResize 640 480 800 600;
                 ConnectivityAnswer (ProbeOk Json.Null Scenario.v8)])%list
             Scenario.start in
  length (messageLog s) = 8%nat /\
  messageLog (logMessage CameraStopped info s)
    = (messageLog s ++ [(CameraStopped, info)])%list.
Proof.
  intros s.
  destruct (log_is_bounded Scenario.page
              (Scenario.cameraOn ++
               [TimerFires 2; WindowResize 640 480 800 600;
                ConnectivityAnswer (ProbeOk Json.Null Scenario.v8)])%list)
    as [_ Hlog].
  destruct (Hlog CameraStopped info) as [_ Hshort].
  split; [reflexivity|apply Hshort; vm_compute; lia].
Defined.

(** ** The capture interval follows the speed slider *)

Section CaptureInterval.

#[local] Arguments callbackIs : simpl never.

Lemma filter_filter_le {A : Type} (p q : A -> bool) (l : list A) :
  (length (filter p (filter q l)) <= length (filter p l))%nat.
Proof.
  induction l as [|x r IH]; simpl; [lia|].
  destruct (q x); simpl; destruct (p x); simpl; lia.
Qed.

Lemma captureOk_frame s s' :
  timers s' = timers s -> processingSpeed s' = processingSpeed s ->
  captureOk s -> captureOk s'.
Proof.
  unfold captureOk, pending; intros -> ->; tauto.
Qed.

Lemma captureOk_filter f s s' :
  timers s' = filter f (timers s) -> processingSpeed s' = processingSpeed s ->
  captureOk s -> captureOk s'.
Proof.
  unfold captureOk, pending; intros -> -> [Hlen Hrate]; split.
  - pose proof (filter_filter_le (fun p => callbackIs CaptureTick (snd p)) f (timers s)).
    lia.
  - intros id t Hin Hcb; apply (Hrate id t); [|exact Hcb].
    apply filter_In in Hin; tauto.
Qed.

Lemma captureOk_add id t s s' :
  timers s' = (timers s ++ [(id, t)])%list -> callback t <> CaptureTick ->
  processingSpeed s' = processingSpeed s ->
  captureOk s -> captureOk s'.
Proof.
  unfold captureOk, pending; intros -> Hcb -> [Hlen Hrate]; split.
  - rewrite filter_app; cbn [filter snd].
    destruct (callbackIs CaptureTick t) eqn:E;
      [apply callbackIs_true in E; contradiction|].
    rewrite app_nil_r; exact Hlen.
  - intros i u Hin Hu; apply in_app_or in Hin; destruct Hin as [Hin|[Hin|[]]].
    + exact (Hrate i u Hin Hu).
    + inversion Hin; subst; contradiction.
Qed.

Lemma captureOk_clearTimer id s : captureOk s -> captureOk (clearTimer id s).
Proof. apply (captureOk_filter (fun p => negb (fst p =? id)%nat)); reflexivity. Qed.

Lemma captureOk_stopHeartbeat s : captureOk s -> captureOk (stopHeartbeat s).
Proof.
  intros H; unfold stopHeartbeat; destruct (heartbeatInterval s) as [id|]; [|exact H].
  revert H; apply (captureOk_filter (fun p => negb (fst p =? id)%nat)); reflexivity.
Qed.

Lemma captureOk_stopBackendHealthCheck s :
  captureOk s -> captureOk (stopBackendHealthCheck s).
Proof.
  intros H; unfold stopBackendHealthCheck;
    destruct (healthCheckInterval s) as [id|]; [|exact H].
  revert H; apply (captureOk_filter (fun p => negb (fst p =? id)%nat)); reflexivity.
Qed.

Lemma captureOk_stopPeriodicProcessing s :
  captureOk s -> captureOk (stopPeriodicProcessing s).
Proof.
  intros H; unfold stopPeriodicProcessing;
    destruct (processingInterval s) as [id|]; [|exact H].
  revert H; apply (captureOk_filter (fun p => negb (fst p =? id)%nat)); reflexivity.
Qed.

Lemma captureOk_stopCamera s : captureOk s -> captureOk (stopCamera s).
Proof.
  intros H; unfold stopCamera; destruct (stream s); [|exact H].
  apply (captureOk_frame
           (stopPeriodicProcessing (clearOverlay (set_stream false s)))); try reflexivity.
  apply captureOk_stopPeriodicProcessing.
  revert H; apply captureOk_frame; reflexivity.
Qed.

(** Once the old interval is cancelled, no capture interval is left. *)
Lemma cancelled_capture s :
  timersOk s ->
  forall id t,
    In (id, t) (timers (match processingInterval s with
                        | Some old => clearTimer old s
                        | None => s
                        end)) ->
    callback t <> CaptureTick.
Proof.
  intros [_ _ _ T4] id t Hin E.
  destruct (processingInterval s) as [old|] eqn:Hh.
  - pose proof (In_clearTimer_ne _ _ _ _ Hin) as Hne.
    apply In_clearTimer in Hin.
    pose proof (T4 id t Hin (or_introl E)) as Hx; rewrite E in Hx; simpl in Hx.
    congruence.
  - pose proof (T4 id t Hin (or_introl E)) as Hx; rewrite E in Hx; simpl in Hx.
    congruence.
Qed.

(** With the camera streaming, (re)starting leaves exactly the new interval,
    at the rate of the slider. *)
Lemma startPeriodicProcessing_pending s :
  timersOk s -> stream s = true ->
  pending CaptureTick (startPeriodicProcessing s) =
    [(nextTimer s,
      mkTimer CaptureTick Interval (1000 / inject_Z (processingSpeed s))%Q)] /\
  processingInterval (startPeriodicProcessing s) = Some (nextTimer s) /\
  captureOk (startPeriodicProcessing s) /\
  stream (startPeriodicProcessing s) = true.
Proof.
  intros Hok Hs.
  pose proof (cancelled_capture s Hok) as Hnone.
  unfold startPeriodicProcessing; rewrite Hs; simpl.
  set (s1 := match processingInterval s with
             | Some old => clearTimer old s
             | None => s
             end) in *.
  assert (nextTimer s1 = nextTimer s /\ processingSpeed s1 = processingSpeed s /\
          stream s1 = true)
    as (En & Ep & Es)
      by (subst s1; destruct (processingInterval s); repeat split; assumption || reflexivity).
  assert (pending CaptureTick s1 = []) as Hempty.
  { unfold pending; apply filter_none; intros [id t] Hin; cbn [snd].
    destruct (callbackIs CaptureTick t) eqn:E; [|reflexivity].
    apply callbackIs_true in E; exfalso; exact (Hnone id t Hin E). }
  clearbody s1. unfold pending in *.
  split; [|split; [|split]].
  - simpl; rewrite filter_app, Hempty, En, Ep; reflexivity.
  - simpl; rewrite En; reflexivity.
  - split.
    + unfold pending; simpl; rewrite filter_app, Hempty; simpl; lia.
    + simpl; intros id t Hin Hcb; apply in_app_or in Hin; destruct Hin as [Hin|[Hin|[]]].
      * exfalso; exact (Hnone id t Hin Hcb).
      * inversion Hin; reflexivity.
  - simpl; exact Es.
Qed.

(** *** The cache and log operations leave the slider alone *)

Lemma addBackendDetection_speed clk d i s :
  processingSpeed (addBackendDetection clk d i s) = processingSpeed s.
Proof.
  unfold addBackendDetection.
  destruct (Detection.matches d) as [[|m r]|]; try reflexivity.
  destruct (negb _ && negb _)%bool; reflexivity.
Qed.

Lemma addChannelCard_speed env c i s :
  processingSpeed (addChannelCard env c i s) = processingSpeed s.
Proof. unfold addChannelCard; destruct (negb _ && negb _)%bool; reflexivity. Qed.

Lemma handleBackendResponse_speed clock data s :
  processingSpeed (handleBackendResponse clock data s) = processingSpeed s.
Proof.
  unfold handleBackendResponse.
  destruct (Response.detections data) as [[|d ds]|]; try reflexivity.
  unfold drawDetectionOverlay, forEach.
  change (processingSpeed (set_rafQueue ?q ?x)) with (processingSpeed x).
  apply (forEachFrom_view processingSpeed).
  intros; apply addBackendDetection_speed.
Qed.

Lemma handleDetection_speed env cards s :
  processingSpeed (handleDetection env cards s) = processingSpeed s.
Proof.
  unfold handleDetection.
  destruct cards as [[|c cs]|]; try reflexivity.
  unfold drawDetectionOverlay, forEach.
  change (processingSpeed (set_rafQueue ?q ?x)) with (processingSpeed x).
  rewrite (forEachFrom_view processingSpeed).
  - reflexivity.
  - intros; apply addChannelCard_speed.
Qed.

Lemma resumeProcessFrame_speed o s :
  processingSpeed (resumeProcessFrame o s) = processingSpeed s.
Proof.
  assert (forall data,
             processingSpeed
               (match Response.num_detections data with
                | Some n =>
                    if n >? 0 then logMessage (ReceivedDetections n) info s else s
                | None => s
                end) = processingSpeed s) as Hreceived
      by (intros data; destruct (Response.num_detections data) as [n|];
          [destruct (n >? 0)|]; reflexivity).
  destruct o as [n m|st body engine|data clock|data clock point n m];
    try reflexivity.
  - simpl; destruct (notOkError engine st body); reflexivity.
  - unfold resumeProcessFrame, finallyBlock.
    change (processingSpeed (set_isProcessing ?b ?x)) with (processingSpeed x).
    rewrite handleBackendResponse_speed; apply Hreceived.
  - unfold resumeProcessFrame.
    change (processingSpeed (catchBlock ?a ?b ?x)) with (processingSpeed x).
    destruct point.
    + unfold forEach; rewrite (forEachFrom_view processingSpeed);
        [apply Hreceived|intros; apply addBackendDetection_speed].
    + rewrite handleBackendResponse_speed; apply Hreceived.
Qed.

Lemma processFrameWithBackend_capView e s :
  capView (processFrameWithBackend e s) = capView s.
Proof.
  unfold processFrameWithBackend; destruct (isProcessing s); [reflexivity|].
  destruct e; reflexivity.
Qed.

Lemma capView_control s s' :
  control s' = control s -> processingSpeed s' = processingSpeed s ->
  capView s' = capView s.
Proof.
  intros Hc Hp; apply control_fields in Hc.
  destruct Hc as (H1 & H2 & H3 & H4 & H5 & H6 & H7 & H8 & H9 & H10 & H11 & H12).
  unfold capView; congruence.
Qed.

Lemma resumeProcessFrame_capView o s :
  capView (resumeProcessFrame o s) = capView s.
Proof.
  pose proof (resumeProcessFrame_control o s) as Hc; apply control_fields in Hc.
  destruct Hc as (H1 & H2 & H3 & H4 & H5 & H6 & H7 & H8 & H9 & H10 & H11 & H12).
  unfold capView; rewrite resumeProcessFrame_speed; simpl in *; congruence.
Qed.

(** *** The scheduler's invariant, one handler at a time *)

Lemma schedule_frame s s' :
  capView s' = capView s ->
  captureOk s /\ running s -> captureOk s' /\ running s'.
Proof.
  unfold capView, running; intros Hv [Hc Hr].
  injection Hv as Ht Hp Hs Hh.
  split; [exact (captureOk_frame s s' Ht Hp Hc)|].
  rewrite Hs, Hh; exact Hr.
Qed.

Lemma schedule_clearTimer id s :
  captureOk s /\ running s ->
  captureOk (clearTimer id s) /\ running (clearTimer id s).
Proof. intros [Hc Hr]; split; [apply captureOk_clearTimer; exact Hc|exact Hr]. Qed.

Lemma schedule_startTimer cb m d s :
  cb <> CaptureTick ->
  captureOk s /\ running s ->
  captureOk (snd (startTimer (mkTimer cb m d) s)) /\
  running (snd (startTimer (mkTimer cb m d) s)).
Proof.
  intros Hcb [Hc Hr]; split; [|exact Hr].
  revert Hc; apply (captureOk_add (nextTimer s) (mkTimer cb m d)); [reflexivity|exact Hcb|reflexivity].
Qed.

Lemma schedule_stopHeartbeat s :
  captureOk s /\ running s -> captureOk (stopHeartbeat s) /\ running (stopHeartbeat s).
Proof.
  intros [Hc Hr]; split; [apply captureOk_stopHeartbeat; exact Hc|].
  unfold stopHeartbeat; destruct (heartbeatInterval s); exact Hr.
Qed.

Lemma schedule_stopBackendHealthCheck s :
  captureOk s /\ running s ->
  captureOk (stopBackendHealthCheck s) /\ running (stopBackendHealthCheck s).
Proof.
  intros [Hc Hr]; split; [apply captureOk_stopBackendHealthCheck; exact Hc|].
  unfold stopBackendHealthCheck; destruct (healthCheckInterval s); exact Hr.
Qed.

Lemma stopPeriodicProcessing_idle s : processingInterval (stopPeriodicProcessing s) = None.
Proof.
  unfold stopPeriodicProcessing; destruct (processingInterval s) eqn:E; [reflexivity|exact E].
Qed.

Lemma schedule_stopPeriodicProcessing s :
  captureOk s ->
  captureOk (stopPeriodicProcessing s) /\ running (stopPeriodicProcessing s).
Proof.
  intros Hc; split; [apply captureOk_stopPeriodicProcessing; exact Hc|].
  intros id Hid; rewrite stopPeriodicProcessing_idle in Hid; discriminate.
Qed.

Lemma schedule_stopCamera s :
  captureOk s /\ running s -> captureOk (stopCamera s) /\ running (stopCamera s).
Proof.
  intros [Hc Hr]; split; [apply captureOk_stopCamera; exact Hc|].
  unfold stopCamera; destruct (stream s) eqn:Hs; [|exact Hr].
  intros id Hid; exfalso.
  change (processingInterval
            (stopPeriodicProcessing (clearOverlay (set_stream false s))) = Some id) in Hid.
  rewrite stopPeriodicProcessing_idle in Hid; discriminate.
Qed.

Lemma schedule_closeSocket sock s :
  captureOk s /\ running s -> captureOk (closeSocket sock s) /\ running (closeSocket sock s).
Proof.
  intros H; unfold closeSocket.
  destruct (readyState sock s) as [[]|]; try exact H;
    (revert H; apply schedule_frame; reflexivity).
Qed.

Lemma schedule_cleanup s :
  captureOk s /\ running s -> captureOk (cleanup s) /\ running (cleanup s).
Proof.
  intros [Hc _]; unfold cleanup.
  pose proof (schedule_stopHeartbeat _
                (schedule_stopBackendHealthCheck _
                   (schedule_stopPeriodicProcessing _ Hc))) as H.
  set (s1 := stopHeartbeat (stopBackendHealthCheck (stopPeriodicProcessing s))) in *.
  clearbody s1.
  assert (captureOk (match ws s1 with
                     | Some sock => closeSocket sock s1
                     | None => s1
                     end) /\
          running (match ws s1 with
                   | Some sock => closeSocket sock s1
                   | None => s1
                   end)) as H'
      by (destruct (ws s1); [apply schedule_closeSocket|]; exact H).
  destruct (stream _); [apply schedule_stopCamera|]; exact H'.
Qed.

Lemma schedule_startHeartbeat s :
  captureOk s /\ running s -> captureOk (startHeartbeat s) /\ running (startHeartbeat s).
Proof.
  intros H; unfold startHeartbeat.
  apply (schedule_frame (snd (startTimer (mkTimer Heartbeat Interval 30000) s)));
    [reflexivity|].
  apply schedule_startTimer; [discriminate|exact H].
Qed.

Lemma schedule_startPeriodicProcessing s :
  timersOk s ->
  captureOk s /\ running s ->
  captureOk (startPeriodicProcessing s) /\ running (startPeriodicProcessing s).
Proof.
  intros Hok H; destruct (stream s) eqn:Hs.
  - destruct (startPeriodicProcessing_pending s Hok Hs) as (_ & _ & Hc & Hst).
    split; [exact Hc|intros id _; exact Hst].
  - unfold startPeriodicProcessing; rewrite Hs; exact H.
Qed.

Lemma schedule_updateProcessingSpeed fps s :
  timersOk s ->
  captureOk s /\ running s ->
  captureOk (updateProcessingSpeed fps s) /\ running (updateProcessingSpeed fps s).
Proof.
  intros Hok [Hc Hr]; unfold updateProcessingSpeed.
  apply (schedule_frame
           (match processingInterval (set_processingSpeed fps s) with
            | Some _ => startPeriodicProcessing (set_processingSpeed fps s)
            | None => set_processingSpeed fps s
            end)); [reflexivity|].
  assert (timersOk (set_processingSpeed fps s)) as Hok'
      by (revert Hok; apply ok_frame; reflexivity).
  change (processingInterval (set_processingSpeed fps s)) with (processingInterval s).
  destruct (processingInterval s) as [id|] eqn:Hid.
  - pose proof (Hr id Hid) as Hs.
    destruct (startPeriodicProcessing_pending _ Hok' Hs) as (_ & _ & Hc' & Hst).
    split; [exact Hc'|intros i _; exact Hst].
  - split; [|intros i Hi; simpl in Hi; congruence].
    destruct Hok as [_ _ _ T4]; split.
    + unfold pending; rewrite filter_none; [simpl; lia|].
      intros [i u] Hin; cbn [snd timers set_processingSpeed].
      destruct (callbackIs CaptureTick u) eqn:E; [|reflexivity].
      apply callbackIs_true in E.
      pose proof (T4 i u Hin (or_introl E)) as Hx; rewrite E in Hx; simpl in Hx.
      congruence.
    + intros i u Hin E; exfalso.
      pose proof (T4 i u Hin (or_introl E)) as Hx; rewrite E in Hx; simpl in Hx.
      congruence.
Qed.

Lemma schedule_runCallback cb s :
  captureOk s /\ running s -> captureOk (runCallback cb s) /\ running (runCallback cb s).
Proof.
  intros H; destruct cb; simpl; try exact H.
  - destruct (stream s && negb (isProcessing s))%bool; [|exact H].
    apply schedule_startTimer; [discriminate|exact H].
  - destruct (stream s && negb (isProcessing s))%bool; [|exact H].
    unfold captureFrame; destruct (negb (stream s));
      revert H; apply schedule_frame; reflexivity.
  - unfold heartbeatCallback.
    destruct (ws s) as [sock|]; [|exact H].
    destruct (readyState sock s) as [[]|]; exact H.
  - unfold reconnectCallback; destruct (negb (isConnected s)); [|exact H].
    revert H; apply schedule_frame; reflexivity.
Qed.

Lemma schedule_onopen s :
  captureOk s /\ running s -> captureOk (onopen s) /\ running (onopen s).
Proof.
  intros H; unfold onopen; apply schedule_startHeartbeat.
  revert H; apply schedule_frame; reflexivity.
Qed.

Lemma schedule_onclose s :
  captureOk s /\ running s -> captureOk (onclose s) /\ running (onclose s).
Proof.
  intros H; unfold onclose.
  apply schedule_startTimer; [discriminate|].
  apply schedule_stopHeartbeat.
  revert H; apply schedule_frame; reflexivity.
Qed.

(** Every turn of the event loop keeps the scheduler's invariant. *)
Lemma step_schedule e s :
  timersOk s ->
  captureOk s /\ running s -> captureOk (step e s) /\ running (step e s).
Proof.
  intros Hok H; destruct e; simpl.
  - destruct (lookupTimer id (timers s)) as [t|]; [|exact H].
    apply schedule_runCallback; destruct (mode t); [exact H|apply schedule_clearTimer; exact H].
  - destruct (pendingBlobs s); [exact H|].
    eapply schedule_frame; [apply processFrameWithBackend_capView|].
    revert H; apply schedule_frame; reflexivity.
  - destruct (inflight s); [exact H|].
    eapply schedule_frame; [apply resumeProcessFrame_capView|].
    revert H; apply schedule_frame; reflexivity.
  - revert H; apply schedule_frame; reflexivity.
  - destruct (readyState sock s) as [[]|]; try exact H.
    apply schedule_onopen; revert H; apply schedule_frame; reflexivity.
  - destruct (readyState sock s) as [[]|]; try exact H;
      (destruct parsed as [[]|]; simpl; try exact H;
       try (revert H; apply schedule_frame; reflexivity);
       eapply schedule_frame;
       [apply capView_control;
        [apply handleDetection_control|apply handleDetection_speed]|exact H]).
  - destruct (readyState sock s) as [[]|]; try exact H;
      revert H; apply schedule_frame; reflexivity.
  - destruct (readyState sock s) as [[]|]; try exact H;
      apply schedule_onclose; revert H; apply schedule_frame; reflexivity.
  - destruct H as [Hc Hr]; split; [exact Hc|intros id _; reflexivity].
  - revert H; apply schedule_frame; reflexivity.
  - apply schedule_startPeriodicProcessing.
    + repeat apply ok_logMessage. revert Hok; apply ok_frame; reflexivity.
    + revert H; apply schedule_frame; reflexivity.
  - unfold toggleCamera, startCamera.
    destruct (stream s) eqn:Hs; [|exact H].
    apply schedule_stopCamera; exact H.
  - apply schedule_updateProcessingSpeed; assumption.
  - revert H; apply schedule_frame; reflexivity.
  - eapply schedule_frame; [|exact H].
    unfold toggleKeepCard; destruct (JsMap.get _ _); reflexivity.
  - eapply schedule_frame; [|exact H].
    unfold removeCard; destruct (JsMap.get _ _); reflexivity.
  - eapply schedule_frame; [|exact H].
    unfold removeAllCards; destruct (_ =? _)%nat; reflexivity.
  - destruct (negb hidden && negb (isConnected s))%bool; [|exact H].
    revert H; apply schedule_frame; reflexivity.
  - apply schedule_cleanup; exact H.
  - unfold handleResize; destruct (_ && _)%bool; exact H.
  - split_answer outcome; exact H.
Qed.

End CaptureInterval.

Lemma init_schedule page : captureOk (init page) /\ running (init page).
Proof.
  split; [split|].
  - unfold pending; simpl; lia.
  - simpl; intros id t [H|[H|[]]] Hcb; inversion H; subst; discriminate.
  - intros id H; discriminate.
Qed.

Lemma reachable_schedule page events :
  let s := run events (init page) in
  timersOk s /\ captureOk s /\ running s.
Proof.
  apply (run_invariant (fun s => timersOk s /\ captureOk s /\ running s)).
  - intros e s [Hok H]; split; [apply step_timersOk; exact Hok|].
    apply step_schedule; assumption.
  - split; [apply init_timersOk|apply init_schedule].
Qed.

(** X13. In every reachable state at most one capture interval is
    active; an active one is the interval the controller holds the handle of,
    the camera is streaming, and its period is 1000 ms divided by the value of
    the speed slider.  Moving the slider to a positive value while capture
    runs replaces the interval by a single new one at the new rate; while
    capture is stopped it leaves the timers alone and starts nothing. *)
Theorem capture_follows_slider (page : Page) (events : list Event) :
  let s := run events (init page) in
  (length (pending CaptureTick s) <= 1)%nat /\
  (forall id t,
      In (id, t) (timers s) -> callback t = CaptureTick ->
      processingInterval s = Some id /\ stream s = true /\
      (0 < processingSpeed s ->
       t = mkTimer CaptureTick Interval (1000 / inject_Z (processingSpeed s))%Q)) /\
  (forall fps old,
      0 < fps -> processingInterval s = Some old ->
      pending CaptureTick (step (SpeedInput fps) s) =
        [(nextTimer s, mkTimer CaptureTick Interval (1000 / inject_Z fps)%Q)] /\
      processingInterval (step (SpeedInput fps) s) = Some (nextTimer s)) /\
  (forall fps,
      processingInterval s = None ->
      timers (step (SpeedInput fps) s) = timers s /\
      processingInterval (step (SpeedInput fps) s) = None).
Proof.
  intros s.
  destruct (reachable_schedule page events) as (Hok & [Hlen Hrate] & Hrun).
  fold s in Hok, Hlen, Hrate, Hrun; clearbody s.
  split; [exact Hlen|]. split; [|split].
  - intros id t Hin Hcb.
    pose proof (tracked s Hok id t Hin (or_introl Hcb)) as Hh.
    rewrite Hcb in Hh; simpl in Hh.
    split; [exact Hh|]. split; [exact (Hrun id Hh)|].
    intros _; exact (Hrate id t Hin Hcb).
  - intros fps old _ Hold.
    assert (timersOk (set_processingSpeed fps s)) as Hok'
        by (revert Hok; apply ok_frame; reflexivity).
    destruct (startPeriodicProcessing_pending _ Hok' (Hrun old Hold))
      as (Hp & Hh & _ & _).
    simpl; unfold updateProcessingSpeed.
    change (processingInterval (set_processingSpeed fps s)) with (processingInterval s).
    rewrite Hold; split; [exact Hp|exact Hh].
  - intros fps Hnone; simpl; unfold updateProcessingSpeed.
    change (processingInterval (set_processingSpeed fps s)) with (processingInterval s).
    rewrite Hnone; split; [reflexivity|exact Hnone].
Qed.

Lemma capture_follows_slider_witness :
  processingInterval (run Scenario.cameraOn (init Scenario.page)) = Some 3%nat /\
  stream (run Scenario.cameraOn (init Scenario.page)) = true /\
  pending CaptureTick (step (SpeedInput 5) (run Scenario.cameraOn (init Scenario.page))) =
    [(4%nat, mkTimer CaptureTick Interval (1000 / inject_Z 5)%Q)].
Proof.
  destruct (capture_follows_slider Scenario.page Scenario.cameraOn)
    as (_ & Hone & Hmove & _).
  destruct (Hone 3%nat (mkTimer CaptureTick Interval (1000 / inject_Z 2)%Q))
    as (Hh & Hs & _);
    [vm_compute; right; right; left; reflexivity|reflexivity|].
  destruct (Hmove 5 3%nat) as [Hp _]; [reflexivity|exact Hh|].
  split; [exact Hh|]. split; [exact Hs|].
  etransitivity; [exact Hp|vm_compute; reflexivity].
Defined.

(** ** What the overlay shows after an animation frame *)

Section Visibility.
Import Canvas OverlayOps.

Lemma sinceClear_app (shown l r : list Op) :
  sinceClear shown (l ++ r) = sinceClear (sinceClear shown l) r.
Proof.
  revert shown; induction l as [|op l IH]; intros shown; [reflexivity|].
  destruct op; simpl; apply IH.
Qed.

Lemma sinceClear_painted (shown ops : list Op) :
  forallb (fun op => negb (isClear op)) ops = true ->
  sinceClear shown ops = (shown ++ ops)%list.
Proof.
  revert shown; induction ops as [|op r IH]; intros shown H; simpl.
  - rewrite app_nil_r; reflexivity.
  - simpl in H; apply andb_true_iff in H; destruct H as [Hop Hr].
    destruct op; try discriminate; rewrite (IH _ Hr), <- app_assoc; reflexivity.
Qed.

Lemma polygonOps_painted (p : Point) (ps : list Point) :
  forallb (fun op => negb (isClear op)) (polygonOps p ps) = true.
Proof.
  unfold polygonOps; rewrite !forallb_app; simpl.
  rewrite andb_true_r.
  induction ps as [|q r IH]; simpl; [reflexivity|exact IH].
Qed.

Lemma passOps_painted (m : string -> string -> Q) (font0 : string) (i : nat)
    (l : list Detection.t) :
  forallb (fun op => negb (isClear op)) (passOps m font0 i l) = true.
Proof.
  revert font0 i; induction l as [|d r IH]; intros font0 i; [reflexivity|].
  cbn [passOps]; destruct (Detection.polygon d) as [[|[x y] ps]|]; try apply IH.
  rewrite !forallb_app, polygonOps_painted, IH; reflexivity.
Qed.

(** After a pass the overlay shows what that pass drew and nothing older. *)
Lemma visible_renderPass (detections : option (list Detection.t)) (c : Canvas.t) :
  visible (Overlay.renderPass detections c) =
  passOps (metrics c) (currentFont c) 0 (listed detections).
Proof.
  unfold visible; rewrite renderPass_trace, sinceClear_app.
  cbn [sinceClear]; apply (sinceClear_painted []), passOps_painted.
Qed.

Lemma drawDetection_metrics (d : Detection.t) (i : nat) (c : Canvas.t) :
  metrics (Overlay.drawDetection d i c) = metrics c.
Proof.
  destruct (Detection.polygon d) as [[|p ps]|] eqn:Hp.
  - rewrite drawDetection_no_polygon by (right; exact Hp); reflexivity.
  - rewrite (drawDetection_polygon d i c p ps Hp); reflexivity.
  - rewrite drawDetection_no_polygon by (left; exact Hp); reflexivity.
Qed.

Lemma renderPass_metrics (detections : option (list Detection.t)) (c : Canvas.t) :
  metrics (Overlay.renderPass detections c) = metrics c.
Proof.
  unfold Overlay.renderPass, forEach.
  destruct detections as [[|d r]|]; try reflexivity.
  rewrite (forEachFrom_view metrics); [reflexivity|].
  intros; apply drawDetection_metrics.
Qed.

Lemma passes_metrics (q : list (option (list Detection.t))) (c : Canvas.t) :
  metrics (fold_left (fun c detections => Overlay.renderPass detections c) q c) =
  metrics c.
Proof.
  revert c; induction q as [|d r IH]; intros c; simpl; [reflexivity|].
  rewrite IH; apply renderPass_metrics.
Qed.

End Visibility.

(** X14. The render passes
    queued for the next animation frame all run at that frame, in the order
    they were queued, and each one clears the whole canvas first; so after
    the frame the overlay shows exactly what the pass queued last drew and
    the queue is empty.  Stopping the camera clears the overlay at once but
    cancels no queued pass: a pass queued before the stop still paints its
    detections at the next frame. *)
Theorem overlay_shows_last_pass (s : Session)
    (earlier : list (option (list Detection.t)))
    (last : option (list Detection.t)) :
  rafQueue s = (earlier ++ [last])%list ->
  let font0 c :=
    Canvas.currentFont
      (fold_left (fun c detections => Overlay.renderPass detections c) earlier c) in
  visible (overlay (step AnimationFrame s)) =
    OverlayOps.passOps (Canvas.metrics (overlay s)) (font0 (overlay s)) 0
      (OverlayOps.listed last) /\
  rafQueue (step AnimationFrame s) = [] /\
  (stream s = true ->
   visible (overlay (stopCamera s)) = [] /\
   rafQueue (stopCamera s) = (earlier ++ [last])%list /\
   visible (overlay (step AnimationFrame (stopCamera s))) =
     OverlayOps.passOps (Canvas.metrics (overlay s))
       (font0 (Canvas.clearAll (overlay s))) 0 (OverlayOps.listed last)).
Proof.
  intros Hq font0.
  assert (forall s0, rafQueue s0 = (earlier ++ [last])%list ->
            visible (overlay (step AnimationFrame s0)) =
            OverlayOps.passOps (Canvas.metrics (overlay s0)) (font0 (overlay s0)) 0
              (OverlayOps.listed last)) as Hframe.
  { intros s0 H0; simpl; rewrite H0, fold_left_app; simpl.
    rewrite visible_renderPass, passes_metrics; reflexivity. }
  split; [exact (Hframe s Hq)|]. split; [reflexivity|].
  intros Hs.
  assert (overlay (stopCamera s) = Canvas.clearAll (overlay s) /\
          rafQueue (stopCamera s) = rafQueue s) as [Ho Hr].
  { unfold stopCamera; rewrite Hs; simpl.
    unfold stopPeriodicProcessing; simpl.
    destruct (processingInterval s); split; reflexivity. }
  split; [|split].
  - rewrite Ho; unfold visible, Canvas.clearAll, Canvas.emit; simpl.
    rewrite sinceClear_app; reflexivity.
  - rewrite Hr; exact Hq.
  - rewrite (Hframe (stopCamera s)) by (rewrite Hr; exact Hq).
    rewrite Ho; reflexivity.
Qed.

Lemma overlay_shows_last_pass_witness :
  visible (overlay
             (step AnimationFrame
                (stopCamera
                   (run (Scenario.cameraOn ++
                         Scenario.cycle 4 (Ok Scenario.pikachuResponse (Scenario.at_ 1000)))
                      (init Scenario.page))))) =
  OverlayOps.passOps Scenario.metrics Canvas.defaultFont 0 [Scenario.pikachuDetection].
Proof.
  destruct (overlay_shows_last_pass
              (run (Scenario.cameraOn ++
                    Scenario.cycle 4 (Ok Scenario.pikachuResponse (Scenario.at_ 1000)))
                 (init Scenario.page))
              [] (Some [Scenario.pikachuDetection]))
    as (_ & _ & Hstop); [vm_compute; reflexivity|].
  destruct Hstop as (_ & _ & Hshown); [vm_compute; reflexivity|].
  etransitivity; [exact Hshown|vm_compute; reflexivity].
Defined.
